(** * Canvas MCP server: a shallow embedding of [src/index.ts]

    The server answers two protocol requests, list-tools and call-tool, by
    fetching course data from a Canvas instance and reshaping it.  The
    embedding keeps the structure of the TypeScript source:

    - a JavaScript number is an IEEE-754 binary64 ([double], the
      [spec_float] of the standard library): the numbers among the tool
      arguments and in the bodies that Canvas sends, and the arithmetic on
      them, the end of the window of get_upcoming_assignments and the
      completion rate;
    - the time value of a [Date] is a whole number of milliseconds or
      [NaN] ([number]); time values are compared and subtracted as whole
      numbers, as are the whole days until a due date, which are shown
      to be the doubles that the code computes;
    - the tool arguments are [undefined] or JSON primitives;
    - the built-ins whose result depends on the engine ([Date] parsing,
      [toLowerCase], the conversions between numbers and strings) are the
      fields of a [Runtime] class; [Engine] is a concrete instance;
    - [await]ed requests are calls of an oracle [fetch] in a state and error
      monad [M] whose state is the log of the requests issued so far. *)

From Stdlib Require Import ZArith List String Ascii Bool Lia.
From Stdlib Require Import Sorted Permutation SpecFloat DecimalString.
Import ListNotations.

Open Scope string_scope.
Open Scope Z_scope.

(* ================================================================= *)
(** ** Binary64 arithmetic *)

(** A JavaScript number. *)
Definition double := spec_float.

Definition prec : Z := 53.
Definition emax : Z := 1024.

(** The double of an integer (exact below 2^53). *)
Definition of_int (z : Z) : double := binary_normalize prec emax z 0 false.

Definition float_div : double -> double -> double := SFdiv prec emax.
Definition float_mul : double -> double -> double := SFmul prec emax.
Definition float_add : double -> double -> double := SFadd prec emax.
Definition float_sub : double -> double -> double := SFsub prec emax.

(** [Math.round]: the integer closest to [x], a tie going towards
    +infinity; integral values, infinities and [NaN] are returned as they
    are. *)
Definition Math_round (x : double) : double :=
  match x with
  | S754_finite s m (Zneg p) =>
      let v := if s then Zneg m else Zpos m in
      let half := Zpos (Pos.pow 2 p) in
      match (2 * v + half) / (2 * half) with
      | Z0 => S754_zero s
      | n => of_int n
      end
  | _ => x
  end.

(** [Math.ceil]: the least integer that is not below [x]; integral
    values, infinities and [NaN] are returned as they are. *)
Definition Math_ceil (x : double) : double :=
  match x with
  | S754_finite s m (Zneg p) =>
      let v := if s then Zneg m else Zpos m in
      match - ((- v) / 2 ^ Zpos p) with
      | Z0 => S754_zero s
      | n => of_int n
      end
  | _ => x
  end.

(* ================================================================= *)
(** ** JavaScript values and coercions *)

(** The values that reach the handlers as tool arguments: [undefined]
    and the JSON primitives. *)
Inductive jsval :=
| JUndefined
| JNull
| JBool (b : bool)
| JNumber (x : double)
| JString (s : string).

(** The time value of a [Date]: a whole number of milliseconds, or
    [NaN]. *)
Definition number := option Z.
Definition NaN : number := None.

(** ToBoolean: of the numbers, the two zeros and [NaN] are falsy. *)
Definition truthy (v : jsval) : bool :=
  match v with
  | JUndefined | JNull => false
  | JBool b => b
  | JNumber (S754_zero _) | JNumber S754_nan => false
  | JNumber _ => true
  | JString s => negb (s =? "")%string
  end.

(** [a || b] on values. *)
Definition js_or (a b : jsval) : jsval := if truthy a then a else b.

(** The decimal digits of an integer. *)
Definition string_of_Z (z : Z) : string := NilZero.string_of_int (Z.to_int z).

(** The engine-dependent built-ins. *)
Class Runtime := {
  (** [new Date(s).getTime()], [None] for an Invalid Date *)
  Date_parse : string -> number;
  (** [s.toLowerCase()] *)
  toLowerCase : string -> string;
  (** ToNumber on a string *)
  StringToNumber : string -> double;
  (** ToString on a number: the shortest decimal that reads back as the
      same double, in exponent notation from 1e21 on *)
  Number_toString : double -> string;
}.

(** ToString, as used by template literals. *)
Definition ToString `{Runtime} (v : jsval) : string :=
  match v with
  | JUndefined => "undefined"
  | JNull => "null"
  | JBool true => "true"
  | JBool false => "false"
  | JNumber x => Number_toString x
  | JString s => s
  end.

(** ToNumber. *)
Definition ToNumber `{Runtime} (v : jsval) : double :=
  match v with
  | JUndefined => S754_nan
  | JNull => S754_zero false
  | JBool true => of_int 1
  | JBool false => S754_zero false
  | JNumber x => x
  | JString s => StringToNumber s
  end.

(** The difference of two time values. *)
Definition num_sub (a b : number) : number :=
  match a, b with Some x, Some y => Some (x - y) | _, _ => NaN end.

(** [a >= b] and [a <= b]: false as soon as one side is [NaN]. *)
Definition num_ge (a b : number) : bool :=
  match a, b with Some x, Some y => y <=? x | _, _ => false end.

Definition num_le (a b : number) : bool :=
  match a, b with Some x, Some y => x <=? y | _, _ => false end.

(** [m * 2^e > bound], for a bound that is a whole number. *)
Definition exceeds (m : positive) (e bound : Z) : bool :=
  match e with
  | Zneg p => bound * 2 ^ Zpos p <? Zpos m
  | _ => bound <? Zpos m * 2 ^ e
  end.

(** The integral part of [m * 2^e]. *)
Definition integral_part (m : positive) (e : Z) : Z :=
  match e with
  | Zneg p => Zpos m / 2 ^ Zpos p
  | _ => Zpos m * 2 ^ e
  end.

(** TimeClip: the time value of [new Date(t)].  Beyond 8.64e15 ms, and
    for an infinity or [NaN], the date is an Invalid Date; otherwise the
    fraction of a millisecond is dropped. *)
Definition TimeClip (t : double) : number :=
  match t with
  | S754_zero _ => Some 0
  | S754_finite s m e =>
      if exceeds m e 8640000000000000 then NaN
      else Some (if s then - integral_part m e else integral_part m e)
  | S754_infinity _ | S754_nan => NaN
  end.

(** [Math.ceil(x / d)] for a positive divisor. *)
Definition ceil_div (x d : Z) : Z := - ((- x) / d).

(* ----------------------------------------------------------------- *)
(** *** Strings *)

Fixpoint startsWith (s q : string) {struct q} : bool :=
  match q, s with
  | EmptyString, _ => true
  | String b q', String a s' => Ascii.eqb a b && startsWith s' q'
  | String _ _, EmptyString => false
  end.

(** [s.includes(q)] *)
Fixpoint includes (s q : string) : bool :=
  startsWith s q ||
  match s with
  | EmptyString => false
  | String _ s' => includes s' q
  end.

(* ----------------------------------------------------------------- *)
(** *** Arrays *)

(** [Array.prototype.sort] with a comparator: a stable sort; a [NaN]
    returned by the comparator counts as 0. *)
Section ArraySort.
Context {A : Type} (cmp : A -> A -> number).

Definition comes_after (x y : A) : bool :=
    match cmp x y with Some v => 0 <? v | None => false end.

Fixpoint sort_insert (x : A) (l : list A) : list A :=
    match l with
    | [] => [x]
    | y :: l' => if comes_after x y then y :: sort_insert x l' else x :: y :: l'
    end.

Definition Array_sort (l : list A) : list A := fold_right sort_insert [] l.
End ArraySort.

(* ================================================================= *)
(** ** A concrete engine *)

Module Engine.

Definition digit (c : ascii) : option Z :=
    let n := Z.of_N (N_of_ascii c) in
    if (48 <=? n) && (n <=? 57) then Some (n - 48) else None.

  (** Reads exactly [n] decimal digits. *)
Fixpoint read_digits (n : nat) (acc : Z) (s : string) : option (Z * string) :=
    match n with
    | O => Some (acc, s)
    | S n' =>
        match s with
        | String c s' =>
            match digit c with
            | Some d => read_digits n' (10 * acc + d) s'
            | None => None
            end
        | EmptyString => None
        end
    end.

Definition expect (c : ascii) (s : string) : option string :=
    match s with
    | String c' s' => if Ascii.eqb c c' then Some s' else None
    | EmptyString => None
    end.

Definition is_leap (y : Z) : bool :=
    ((y mod 4 =? 0) && negb (y mod 100 =? 0)) || (y mod 400 =? 0).

Definition days_in_month (y m : Z) : Z :=
    if m =? 2 then (if is_leap y then 29 else 28)
    else if (m =? 4) || (m =? 6) || (m =? 9) || (m =? 11) then 30 else 31.

  (** Days between 1970-01-01 and the given civil date. *)
Definition days_from_civil (y m d : Z) : Z :=
    let y' := if m <=? 2 then y - 1 else y in
    let era := y' / 400 in
    let yoe := y' - era * 400 in
    let doy := (153 * (if 2 <? m then m - 3 else m + 9) + 2) / 5 + d - 1 in
    let doe := yoe * 365 + yoe / 4 - yoe / 100 + doy in
    era * 146097 + doe - 719468.

Definition bind_opt {A B} (o : option A) (k : A -> option B) : option B :=
    match o with Some a => k a | None => None end.

  (** The time of day: [THH:mm:ss] with an optional [.sss], then [Z]. *)
Definition parse_time (s : string) : option Z :=
    bind_opt (expect "T" s) (fun s =>
    bind_opt (read_digits 2 0 s) (fun '(hh, s) =>
    bind_opt (expect ":" s) (fun s =>
    bind_opt (read_digits 2 0 s) (fun '(mi, s) =>
    bind_opt (expect ":" s) (fun s =>
    bind_opt (read_digits 2 0 s) (fun '(ss, s) =>
    bind_opt (match expect "." s with
              | Some s' => read_digits 3 0 s'
              | None => Some (0, s)
              end) (fun '(ms, s) =>
    if (s =? "Z")%string && (hh <? 24) && (mi <? 60) && (ss <? 60)
    then Some (((hh * 60 + mi) * 60 + ss) * 1000 + ms)
    else None))))))).

  (** The ECMAScript date-time string format, in UTC:
      [YYYY-MM-DD], [YYYY-MM-DDTHH:mm:ssZ], [YYYY-MM-DDTHH:mm:ss.sssZ].
      Any other string is an Invalid Date. *)
Definition Date_parse (s : string) : number :=
    bind_opt (read_digits 4 0 s) (fun '(y, s) =>
    bind_opt (expect "-" s) (fun s =>
    bind_opt (read_digits 2 0 s) (fun '(m, s) =>
    bind_opt (expect "-" s) (fun s =>
    bind_opt (read_digits 2 0 s) (fun '(d, s) =>
    if (1 <=? m) && (m <=? 12) && (1 <=? d) && (d <=? days_in_month y m)
    then
      bind_opt (match s with EmptyString => Some 0 | _ => parse_time s end)
               (fun t => Some (days_from_civil y m d * 86400000 + t))
    else None))))).

Definition lower_ascii (c : ascii) : ascii :=
    let n := N_of_ascii c in
    if (65 <=? n)%N && (n <=? 90)%N then ascii_of_N (n + 32) else c.

Fixpoint toLowerCase (s : string) : string :=
    match s with
    | EmptyString => EmptyString
    | String c s' => String (lower_ascii c) (toLowerCase s')
    end.

(** *** Numbers and their decimal text *)

(** The double nearest to [s * 10^q]. *)
Definition of_decimal (neg : bool) (s : positive) (q : Z) : double :=
  match q with
  | Zneg p => float_div (S754_finite neg s 0) (S754_finite false (10 ^ p) 0)
  | _ =>
      binary_normalize prec emax
        (if neg then - (Zpos s * 10 ^ q) else Zpos s * 10 ^ q) 0 false
  end.

(** A positive double [m * 2^e] as a fraction. *)
Definition fraction (m : positive) (e : Z) : Z * Z :=
  match e with
  | Zneg p => (Zpos m, 2 ^ Zpos p)
  | _ => (Zpos m * 2 ^ e, 1)
  end.

Definition scale10 (x : Z * Z) (j : Z) : Z * Z :=
  match j with
  | Zneg p => (fst x, snd x * 10 ^ Zpos p)
  | _ => (fst x * 10 ^ j, snd x)
  end.

(** The least [n], from [n] on, with [x < 10^n]. *)
Fixpoint magnitude_from (fuel : nat) (x : Z * Z) (n : Z) : Z :=
  match fuel with
  | O => n
  | S fuel' =>
      let '(a, b) := scale10 x (- n) in
      if a <? b then n else magnitude_from fuel' x (n + 1)
  end.

(** The [n] with [10^(n-1) <= m * 2^e < 10^n]; the search starts just
    below, at an estimate taken from the number of binary digits. *)
Definition magnitude (m : positive) (e : Z) : Z :=
  magnitude_from 6 (fraction m e) ((Zpos (digits2_pos m) + e - 1) * 1233 / 4096 - 1).

(** The fewest digits [s] (there are [k] of them) for which
    [s * 10^(n-k)] reads back as [x]; of two candidates the one closer to
    [x].  Seventeen digits are always enough. *)
Fixpoint shortest (fuel : nat) (k : Z) (x : double) (xq : Z * Z) (n : Z) : Z * Z * Z :=
  match fuel with
  | O => (n, k, 0)
  | S fuel' =>
      let '(a, b) := scale10 xq (k - n) in
      let lo := a / b in
      let hi := lo + 1 in
      let reads_back c := SFeqb (of_decimal false (Z.to_pos c) (n - k)) x in
      let pick c := if c =? 10 ^ k then (n + 1, 1, 1) else (n, k, c) in
      match reads_back lo, reads_back hi with
      | true, true =>
          match 2 * a ?= (lo + hi) * b with
          | Lt => pick lo
          | Gt => pick hi
          | Eq => if Z.even lo then pick lo else pick hi
          end
      | true, false => pick lo
      | false, true => pick hi
      | false, false => shortest fuel' (k + 1) x xq n
      end
  end.

Fixpoint zeros (n : nat) : string :=
  match n with O => "" | S n' => String "0" (zeros n') end.

(** Where the point goes, and when the exponent is written. *)
Definition layout (n k s : Z) : string :=
  let digits := string_of_Z s in
  if (k <=? n) && (n <=? 21) then
    digits ++ zeros (Z.to_nat (n - k))
  else if (0 <? n) && (n <=? 21) then
    substring 0 (Z.to_nat n) digits ++ "."
      ++ substring (Z.to_nat n) (Z.to_nat (k - n)) digits
  else if (-6 <? n) && (n <=? 0) then
    "0." ++ zeros (Z.to_nat (- n)) ++ digits
  else
    let exponent := (if n - 1 <? 0 then "-" else "+") ++ string_of_Z (Z.abs (n - 1)) in
    if k =? 1 then digits ++ "e" ++ exponent
    else substring 0 1 digits ++ "." ++ substring 1 (Z.to_nat (k - 1)) digits
         ++ "e" ++ exponent.

(** Number::toString in radix 10. *)
Definition Number_toString (x : double) : string :=
  match x with
  | S754_nan => "NaN"
  | S754_zero _ => "0"
  | S754_infinity s => if s then "-Infinity" else "Infinity"
  | S754_finite s m e =>
      let '(n, k, digits) :=
        shortest 17 1 (S754_finite false m e) (fraction m e) (magnitude m e) in
      (if s then "-" else "") ++ layout n k digits
  end.

Definition is_space (c : ascii) : bool :=
  let n := N_of_ascii c in ((9 <=? n) && (n <=? 13) || (n =? 32))%N.

Fixpoint trim_start (s : string) : string :=
  match s with
  | String c s' => if is_space c then trim_start s' else s
  | EmptyString => s
  end.

Fixpoint rev_string (acc s : string) : string :=
  match s with
  | String c s' => rev_string (String c acc) s'
  | EmptyString => acc
  end.

Definition trim (s : string) : string :=
  rev_string "" (trim_start (rev_string "" (trim_start s))).

(** Reads decimal digits: their value, how many there are, and the
    rest. *)
Fixpoint read_number (acc : Z) (count : Z) (s : string) : Z * Z * string :=
  match s with
  | String c s' =>
      match digit c with
      | Some d => read_number (10 * acc + d) (count + 1) s'
      | None => (acc, count, s)
      end
  | EmptyString => (acc, count, s)
  end.

Definition read_sign (s : string) : bool * string :=
  match s with
  | String "-" s' => (true, s')
  | String "+" s' => (false, s')
  | _ => (false, s)
  end.

(** The exponent part, 0 when there is none; [None] when it is
    malformed. *)
Definition read_exponent (s : string) : option Z :=
  match s with
  | EmptyString => Some 0
  | String c s' =>
      if (Ascii.eqb c "e" || Ascii.eqb c "E")%bool then
        let '(neg, s'') := read_sign s' in
        let '(v, count, rest) := read_number 0 0 s'' in
        if (0 <? count) && (rest =? "")%string then Some (if neg then - v else v)
        else None
      else None
  end.

(** The value of a digit in a base up to 16. *)
Definition digit_in (base : Z) (c : ascii) : option Z :=
  let n := Z.of_N (N_of_ascii c) in
  let v := if (48 <=? n) && (n <=? 57) then n - 48
           else if (97 <=? n) && (n <=? 102) then n - 87
           else if (65 <=? n) && (n <=? 70) then n - 55
           else 16 in
  if v <? base then Some v else None.

Fixpoint read_in (base : Z) (acc : Z) (s : string) : option Z :=
  match s with
  | EmptyString => Some acc
  | String c s' =>
      match digit_in base c with
      | Some d => read_in base (base * acc + d) s'
      | None => None
      end
  end.

(** A binary, octal or hexadecimal integer literal: its base and its
    digits. *)
Definition non_decimal (s : string) : option (Z * string) :=
  match s with
  | String "0" (String c (String d s')) =>
      let digits := String d s' in
      if (Ascii.eqb c "b" || Ascii.eqb c "B")%bool then Some (2, digits)
      else if (Ascii.eqb c "o" || Ascii.eqb c "O")%bool then Some (8, digits)
      else if (Ascii.eqb c "x" || Ascii.eqb c "X")%bool then Some (16, digits)
      else None
  | _ => None
  end.

(** ToNumber on a string: a decimal literal or [Infinity], with an
    optional sign, or a binary, octal or hexadecimal integer; ASCII white
    space around it is skipped and the empty string is 0.  Any other
    string is [NaN]. *)
Definition StringToNumber (s : string) : double :=
  let s := trim s in
  if (s =? "")%string then S754_zero false else
  match non_decimal s with
  | Some (base, digits) =>
      match read_in base 0 digits with
      | Some v => of_int v
      | None => S754_nan
      end
  | None =>
  let '(neg, s) := read_sign s in
  if (s =? "Infinity")%string then S754_infinity neg else
  let '(int, int_count, s) := read_number 0 0 s in
  let '(frac, frac_count, s) :=
    match s with
    | String "." s' => read_number 0 0 s'
    | _ => (0, 0, s)
    end in
  if int_count + frac_count =? 0 then S754_nan else
  match read_exponent s with
  | None => S754_nan
  | Some exponent =>
      let significand := int * 10 ^ frac_count + frac in
      let q := exponent - frac_count in
      match significand with
      | Zpos p =>
          if 400 <? q then S754_infinity neg
          else if q + int_count + frac_count <? -400 then S754_zero neg
          else of_decimal neg p q
      | _ => S754_zero neg
      end
  end
  end.

#[export] Instance runtime : Runtime :=
    Build_Runtime Date_parse toLowerCase StringToNumber Number_toString.

End Engine.

(* ================================================================= *)
(** ** Data model (the interfaces of [index.ts]) *)

Module Course.
Record t := {
    id : double;
    name : string;
    course_code : string;
    enrollment_term_id : double;
  }.
End Course.

(** The [submission] object that Canvas attaches to an assignment when the
    request carries [include[]=submission]. *)
Module Submission.
Record t := {
    submitted_at : option string;
    score : option double;
    grade : option string;
  }.
End Submission.

Module Assignment.
Record t := {
    id : double;
    name : string;
    due_at : option string;   (* [string | null] *)
    points_possible : double;
    submission_types : list string;
    course_id : double;
    html_url : string;
    submission : option Submission.t;
  }.
End Assignment.

Module Grades.
Record t := {
    current_grade : option string;
    current_score : option double;
  }.
End Grades.

Module Enrollment.
Record t := { grades : option Grades.t }.
End Enrollment.

(** An assignment with the fields added during aggregation. *)
Module Tagged.
Record t := {
    a : Assignment.t;
    course_name : option string;
    days_until_due : number;
  }.
End Tagged.

(* ----------------------------------------------------------------- *)
(** *** Payloads handed to [JSON.stringify] *)

Module CourseOut.
Record t := { id : double; name : string; code : string }.
End CourseOut.

Module AssignmentOut.
Record t := {
    id : double;
    name : string;
    due_date : option string;
    points : double;
    course_id : double;
    course_name : option string;
    url : string;
  }.
End AssignmentOut.

Module UpcomingOut.
Record t := {
    name : string;
    course : option string;
    due_date : option string;
    days_until_due : number;
    points : double;
    url : string;
  }.
End UpcomingOut.

Module ScoreOut.
Record t := {
    name : string;
    score : option double;
    grade : option string;
    points_possible : double;
  }.
End ScoreOut.

Module GradeOut.
Record t := {
    course_name : option string;
    course_id : jsval;
    current_grade : option string;
    current_score : option double;
    assignments : option (list ScoreOut.t);
  }.
End GradeOut.

Module PendingOut.
Record t := {
    name : string;
    due_date : option string;
    points_possible : double;
  }.
End PendingOut.

Module CourseInfo.
Record t := { name : string; code : string }.
End CourseInfo.

Module GradeInfo.
Record t := {
  current_grade : option string;
  current_score : option double;
}.
End GradeInfo.

Module Progress.
Record t := {
  total_assignments : nat;
  completed_assignments : nat;
  pending_assignments : nat;
  completion_rate : double;
}.
End Progress.

Module ProgressOut.
Record t := {
  course : CourseInfo.t;
  grade_info : GradeInfo.t;
  progress : Progress.t;
  pending_assignments : list PendingOut.t;
}.
End ProgressOut.

Module SearchOut.
Record t := {
    name : string;
    course : option string;
    due_date : option string;
    points : double;
    url : string;
  }.
End SearchOut.

(** The object inside the single text block of a tool result. *)
Inductive ToolResult :=
| CoursesResult (courses : list CourseOut.t)
| AssignmentsResult (assignments : list AssignmentOut.t)
| UpcomingResult (upcoming_assignments : list UpcomingOut.t)
| GradesResult (grades : list GradeOut.t)
| ProgressResult (progress : ProgressOut.t)
| SearchResult (query : jsval) (results : list SearchOut.t).

(* ================================================================= *)
(** ** Errors *)

Inductive ErrorCode := InternalError | MethodNotFound.

Definition ErrorCode_value (c : ErrorCode) : Z :=
  match c with InternalError => -32603 | MethodNotFound => -32601 end.

(** What a [throw] can carry: the SDK's [McpError], a plain [Error], or
    a value that is not an [Error]. *)
Inductive exn :=
| McpError (code : ErrorCode) (message : string)
| Error (message : string)
| Thrown (v : jsval).

(** [error instanceof Error ? error.message : 'Unknown error'].  The
    SDK's [McpError] extends [Error] with the message
    [MCP error <code>: <message>]. *)
Definition message_or_unknown (error : exn) : string :=
  match error with
  | McpError c m => ("MCP error " ++ string_of_Z (ErrorCode_value c) ++ ": " ++ m)%string
  | Error m => m
  | Thrown _ => "Unknown error"
  end.

(* ================================================================= *)
(** ** Requests and the world outside *)

Module Request.
Record t := {
    url : string;
    headers : list (string * string);
  }.
End Request.

(** The endpoints the handlers ask for; the argument is the text spliced
    into the path. *)
Inductive endpoint :=
| EP_courses
| EP_courses_total_scores
| EP_course (courseId : string)
| EP_assignments (courseId : string)
| EP_assignments_submission (courseId : string)
| EP_enrollments (courseId : string).

Definition endpoint_path (e : endpoint) : string :=
  (match e with
   | EP_courses => "/courses?enrollment_state=active&per_page=100"
   | EP_courses_total_scores =>
       "/courses?enrollment_state=active&include[]=total_scores&per_page=100"
   | EP_course c => "/courses/" ++ c
   | EP_assignments c => "/courses/" ++ c ++ "/assignments?per_page=100"
   | EP_assignments_submission c =>
       "/courses/" ++ c ++ "/assignments?include[]=submission&per_page=100"
   | EP_enrollments c =>
       "/courses/" ++ c ++ "/enrollments?user_id=self&include[]=grades"
   end)%string.

(** The decoded body expected from each endpoint. *)
Definition body (e : endpoint) : Type :=
  match e with
  | EP_courses | EP_courses_total_scores => list Course.t
  | EP_course _ => Course.t
  | EP_assignments _ | EP_assignments_submission _ => list Assignment.t
  | EP_enrollments _ => list Enrollment.t
  end.

Module Response.
Record t (A : Type) := {
    ok : bool;
    status : Z;
    statusText : string;
    json : exn + A;   (* [response.json()] may reject *)
  }.
Arguments ok {A}.
Arguments status {A}.
Arguments statusText {A}.
Arguments json {A}.
End Response.

(** What the process sees of the outside: the clock read by [new Date()],
    for each endpoint what [fetch] does (it rejects or resolves with a
    response), and the time at which the request to an endpoint settles,
    which decides between requests that are under way together. *)
Record World := {
  clock : Z;
  fetch : forall e : endpoint, exn + Response.t (body e);
  settles : endpoint -> nat;
}.

(* ----------------------------------------------------------------- *)
(** *** The monad of handlers: errors, and the log of requests issued *)

Definition M (A : Type) : Type :=
  list Request.t -> (exn + A) * list Request.t.

Definition ret {A} (x : A) : M A := fun log => (inr x, log).

Definition throw {A} (e : exn) : M A := fun log => (inl e, log).

Definition bind {A B} (c : M A) (k : A -> M B) : M B :=
  fun log =>
    match c log with
    | (inr x, log') => k x log'
    | (inl e, log') => (inl e, log')
    end.

Definition try_catch {A} (c : M A) (handler : exn -> M A) : M A :=
  fun log =>
    match c log with
    | (inr x, log') => (inr x, log')
    | (inl e, log') => handler e log'
    end.

Definition issue (r : Request.t) : M unit := fun log => (inr tt, (log ++ [r])%list).

Declare Scope handler_scope.
Delimit Scope handler_scope with handler.
Notation "x <- c ;; k" := (bind c (fun x => k))
  (at level 100, c at next level, right associativity) : handler_scope.
Notation "' p <- c ;; k" := (bind c (fun p => k))
  (at level 100, p pattern, c at next level, right associativity) : handler_scope.
Open Scope handler_scope.

(** [for (const x of l) { ...; acc.push(...ys) }]: runs the body on each
    element in turn and collects what it pushes. *)
Fixpoint for_of {A B} (l : list A) (body : A -> M (list B)) : M (list B) :=
  match l with
  | [] => ret []
  | x :: l' =>
      ys <- body x ;;
      rest <- for_of l' body ;;
      ret (ys ++ rest)%list
  end.

(** Of two rejections, each with the time at which it happens, the one
    that happens first; at the same time, the first of the two. *)
Definition sooner (x y : nat * exn) : nat * exn :=
  if (fst y <? fst x)%nat then y else x.

(** [Promise.all] of three promises, each with the time at which it
    settles: the three are started, in array order, before any is awaited.
    When all fulfil the result is the three values; otherwise [Promise.all]
    rejects with the rejection that happens first, and the other promises
    run on. *)
Definition Promise_all3 {A B C} (p : nat * M A) (q : nat * M B) (r : nat * M C)
    : M (A * B * C) :=
  fun log =>
    let '(x, log1) := snd p log in
    let '(y, log2) := snd q log1 in
    let '(z, log3) := snd r log2 in
    (match x, y, z with
     | inr a, inr b, inr c => inr (a, b, c)
     | inl e1, inr _, inr _ => inl e1
     | inr _, inl e2, inr _ => inl e2
     | inr _, inr _, inl e3 => inl e3
     | inl e1, inl e2, inr _ => inl (snd (sooner (fst p, e1) (fst q, e2)))
     | inl e1, inr _, inl e3 => inl (snd (sooner (fst p, e1) (fst r, e3)))
     | inr _, inl e2, inl e3 => inl (snd (sooner (fst q, e2) (fst r, e3)))
     | inl e1, inl e2, inl e3 =>
         inl (snd (sooner (sooner (fst p, e1) (fst q, e2)) (fst r, e3)))
     end,
     log3).

(* ================================================================= *)
(** ** The server *)

Definition CANVAS_BASE_URL : string := "https://bruinlearn.ucla.edu".
Definition API_VERSION : string := "v1".

Record CanvasConfig := {
  baseUrl : string;
  accessToken : string;
}.

Record CanvasMCPServer := { config : CanvasConfig }.

(** [process.env], after [dotenv.config()]. *)
Module ProcessEnv.
Record t := {
  CANVAS_BASE_URL : option string;
  CANVAS_ACCESS_TOKEN : option string;
}.
End ProcessEnv.

(** [process.env.X || fallback] *)
Definition env_or (v : option string) (fallback : string) : string :=
  match v with
  | Some s => if (s =? "")%string then fallback else s
  | None => fallback
  end.

(** The constructor (lines 55-78).  Creating the SDK server and
    registering the two handlers issues no request. *)
Definition constructor (env : ProcessEnv.t) : M CanvasMCPServer :=
  let config :=
    {| baseUrl := env_or (ProcessEnv.CANVAS_BASE_URL env) CANVAS_BASE_URL;
       accessToken := env_or (ProcessEnv.CANVAS_ACCESS_TOKEN env) "" |} in
  if negb (truthy (JString (accessToken config))) then
    throw (Error "CANVAS_ACCESS_TOKEN environment variable is required")
  else
    ret {| config := config |}.

(* ----------------------------------------------------------------- *)
(** *** The tool registry (lines 105-191) *)

Module Property.
Record t := {
  type : string;
  description : string;
  default : option jsval;
}.
End Property.

Module InputSchema.
Record t := {
  type : string;
  properties : list (string * Property.t);
  required : option (list string);
}.
End InputSchema.

Module Tool.
Record t := {
  name : string;
  description : string;
  inputSchema : InputSchema.t;
}.
End Tool.

Definition ListTools : list Tool.t :=
  [ {| Tool.name := "get_courses";
       Tool.description := "Get all enrolled courses";
       Tool.inputSchema :=
         {| InputSchema.type := "object";
            InputSchema.properties := [];
            InputSchema.required := None |} |};
    {| Tool.name := "get_assignments";
       Tool.description := "Get assignments for a specific course or all courses";
       Tool.inputSchema :=
         {| InputSchema.type := "object";
            InputSchema.properties :=
              [ ("course_id",
                 {| Property.type := "number";
                    Property.description :=
                      "Course ID (optional - if not provided, gets all assignments)";
                    Property.default := None |});
                ("include_completed",
                 {| Property.type := "boolean";
                    Property.description := "Include completed assignments (default: false)";
                    Property.default := Some (JBool false) |}) ];
            InputSchema.required := None |} |};
    {| Tool.name := "get_upcoming_assignments";
       Tool.description := "Get upcoming assignments with deadlines";
       Tool.inputSchema :=
         {| InputSchema.type := "object";
            InputSchema.properties :=
              [ ("days_ahead",
                 {| Property.type := "number";
                    Property.description := "Number of days to look ahead (default: 7)";
                    Property.default := Some (JNumber (of_int 7)) |}) ];
            InputSchema.required := None |} |};
    {| Tool.name := "get_grades";
       Tool.description := "Get grades for a specific course or all courses";
       Tool.inputSchema :=
         {| InputSchema.type := "object";
            InputSchema.properties :=
              [ ("course_id",
                 {| Property.type := "number";
                    Property.description :=
                      "Course ID (optional - if not provided, gets all grades)";
                    Property.default := None |}) ];
            InputSchema.required := None |} |};
    {| Tool.name := "get_course_progress";
       Tool.description := "Get detailed progress information for a course";
       Tool.inputSchema :=
         {| InputSchema.type := "object";
            InputSchema.properties :=
              [ ("course_id",
                 {| Property.type := "number";
                    Property.description := "Course ID";
                    Property.default := None |}) ];
            InputSchema.required := Some ["course_id"] |} |};
    {| Tool.name := "search_assignments";
       Tool.description := "Search for assignments by name or keyword";
       Tool.inputSchema :=
         {| InputSchema.type := "object";
            InputSchema.properties :=
              [ ("query",
                 {| Property.type := "string";
                    Property.description := "Search query";
                    Property.default := None |}) ];
            InputSchema.required := Some ["query"] |} |} ].

(** The argument object of a call-tool request, and [args?.key]. *)
Definition object := list (string * jsval).

Fixpoint get (o : object) (key : string) : jsval :=
  match o with
  | [] => JUndefined
  | (k, v) :: o' => if (k =? key)%string then v else get o' key
  end.

Definition arg (args : option object) (key : string) : jsval :=
  match args with
  | Some o => get o key
  | None => JUndefined
  end.

(* ----------------------------------------------------------------- *)
(** *** The handlers *)

Section Handlers.
Context {rt : Runtime}.
Variable this : CanvasMCPServer.
Variable w : World.

(** [makeCanvasRequest] (lines 80-102). *)
Definition makeCanvasRequest (e : endpoint) : M (body e) :=
  let url := (baseUrl (config this) ++ "/api/" ++ API_VERSION ++ endpoint_path e)%string in
  _ <- issue {| Request.url := url;
                Request.headers :=
                  [ ("Authorization", ("Bearer " ++ accessToken (config this))%string);
                    ("Content-Type", "application/json") ] |} ;;
  try_catch
    (match fetch w e with
     | inl error => throw error
     | inr response =>
         if negb (Response.ok response) then
           throw (Error ("Canvas API error: " ++ string_of_Z (Response.status response)
                         ++ " " ++ Response.statusText response)%string)
         else
           match Response.json response with
           | inl error => throw error
           | inr data => ret data
           end
     end)
    (fun error =>
       throw (McpError InternalError
                ("Failed to fetch from Canvas: " ++ message_or_unknown error)%string)).

(** [getCourses] (lines 234-251). *)
Definition getCourses : M ToolResult :=
  courses <- makeCanvasRequest EP_courses ;;
  ret (CoursesResult
         (map (fun course =>
                 {| CourseOut.id := Course.id course;
                    CourseOut.name := Course.name course;
                    CourseOut.code := Course.course_code course |})
              courses)).

Definition tag (course_name : option string) (a : Assignment.t) : Tagged.t :=
  {| Tagged.a := a; Tagged.course_name := course_name; Tagged.days_until_due := NaN |}.

(** The assignments of every active course, each with the name of its
    course: the loop shared by [getAssignments] and [searchAssignments]. *)
Definition allCourseAssignments : M (list Tagged.t) :=
  courses <- makeCanvasRequest EP_courses ;;
  for_of courses (fun course =>
    courseAssignments <-
      makeCanvasRequest (EP_assignments (Number_toString (Course.id course))) ;;
    ret (map (tag (Some (Course.name course))) courseAssignments)).

(** The first half of [getAssignments] (lines 254-264). *)
Definition getAssignments_fetch (courseId : jsval) : M (list Tagged.t) :=
  if truthy courseId then
    assignments <- makeCanvasRequest (EP_assignments (ToString courseId)) ;;
    ret (map (tag None) assignments)
  else
    allCourseAssignments.

(** [!assignment.due_at] *)
Definition no_due_at (a : Assignment.t) : bool :=
  negb (match Assignment.due_at a with
        | Some s => truthy (JString s)
        | None => truthy JNull
        end).

(** [new Date(assignment.due_at)] as a time value; [new Date(null)] is
    the epoch. *)
Definition dueDate (a : Assignment.t) : number :=
  match Assignment.due_at a with
  | Some s => Date_parse s
  | None => Some 0
  end.

(** The filter callback of lines 268-271. *)
Definition still_due (now : Z) (a : Assignment.t) : bool :=
  if no_due_at a then true else num_ge (dueDate a) (Some now).

Definition assignment_out (t : Tagged.t) : AssignmentOut.t :=
  let assignment := Tagged.a t in
  {| AssignmentOut.id := Assignment.id assignment;
     AssignmentOut.name := Assignment.name assignment;
     AssignmentOut.due_date := Assignment.due_at assignment;
     AssignmentOut.points := Assignment.points_possible assignment;
     AssignmentOut.course_id := Assignment.course_id assignment;
     AssignmentOut.course_name := Tagged.course_name t;
     AssignmentOut.url := Assignment.html_url assignment |}.

(** [getAssignments] (lines 253-292); an [undefined] second argument
    takes the default [false]. *)
Definition getAssignments (courseId includeCompleted : jsval) : M ToolResult :=
  let includeCompleted :=
    match includeCompleted with JUndefined => JBool false | v => v end in
  assignments <- getAssignments_fetch courseId ;;
  let assignments :=
    if negb (truthy includeCompleted) then
      let now := clock w in
      filter (fun t => still_due now (Tagged.a t)) assignments
    else assignments in
  ret (AssignmentsResult (map assignment_out assignments)).

(** [new Date(now.getTime() + (daysAhead * 24 * 60 * 60 * 1000))]: the
    product and the sum are computed in binary64, from left to right. *)
Definition cutoffDate (now : Z) (daysAhead : jsval) : number :=
  TimeClip
    (float_add (of_int now)
       (float_mul (float_mul (float_mul (float_mul (ToNumber daysAhead) (of_int 24))
                                        (of_int 60)) (of_int 60)) (of_int 1000))).

(** The filter callback of lines 304-308. *)
Definition is_upcoming (now : Z) (cutoff : number) (a : Assignment.t) : bool :=
  if no_due_at a then false
  else num_ge (dueDate a) (Some now) && num_le (dueDate a) cutoff.

(** [Math.ceil((due - now) / (24 * 60 * 60 * 1000))] on two time values,
    in the doubles of the code. *)
Definition days_between (due now : Z) : double :=
  Math_ceil
    (float_div (float_sub (of_int due) (of_int now))
               (float_mul (float_mul (float_mul (of_int 24) (of_int 60)) (of_int 60))
                          (of_int 1000))).

(** [Math.ceil((new Date(a.due_at!).getTime() - now.getTime()) /
    (24 * 60 * 60 * 1000))] as a whole number: for a due date that is not
    before [now] and less than 2^53 ms after it, the double of
    [days_between] is this whole number ([days_between_exact]). *)
Definition days_until (now : Z) (a : Assignment.t) : number :=
  option_map (fun ms => ceil_div ms (24 * 60 * 60 * 1000))
             (num_sub (dueDate a) (Some now)).

Definition upcoming_out (t : Tagged.t) : UpcomingOut.t :=
  let assignment := Tagged.a t in
  {| UpcomingOut.name := Assignment.name assignment;
     UpcomingOut.course := Tagged.course_name t;
     UpcomingOut.due_date := Assignment.due_at assignment;
     UpcomingOut.days_until_due := Tagged.days_until_due t;
     UpcomingOut.points := Assignment.points_possible assignment;
     UpcomingOut.url := Assignment.html_url assignment |}.

(** The comparator of line 317. *)
Definition by_due_at (x y : Tagged.t) : number :=
  num_sub (dueDate (Tagged.a x)) (dueDate (Tagged.a y)).

(** The loop of [getUpcomingAssignments] (lines 295-315). *)
Definition getUpcomingAssignments_collect (daysAhead : jsval) : M (list Tagged.t) :=
  courses <- makeCanvasRequest EP_courses ;;
  let now := clock w in
  let cutoff := cutoffDate now daysAhead in
  for_of courses (fun course =>
    assignments <-
      makeCanvasRequest (EP_assignments (Number_toString (Course.id course))) ;;
    let upcoming := filter (is_upcoming now cutoff) assignments in
    ret (map (fun a =>
                {| Tagged.a := a;
                   Tagged.course_name := Some (Course.name course);
                   Tagged.days_until_due := days_until now a |})
             upcoming)).

(** [getUpcomingAssignments] (lines 294-336). *)
Definition getUpcomingAssignments (daysAhead : jsval) : M ToolResult :=
  upcomingAssignments <- getUpcomingAssignments_collect daysAhead ;;
  let upcomingAssignments := Array_sort by_due_at upcomingAssignments in
  ret (UpcomingResult (map upcoming_out upcomingAssignments)).

(** [enrollments[0]?.grades?.current_grade] and [...current_score] *)
Definition first_grades (enrollments : list Enrollment.t) : option Grades.t :=
  match enrollments with
  | e :: _ => Enrollment.grades e
  | [] => None
  end.

Definition current_grade (enrollments : list Enrollment.t) : option string :=
  match first_grades enrollments with
  | Some g => Grades.current_grade g
  | None => None
  end.

Definition current_score (enrollments : list Enrollment.t) : option double :=
  match first_grades enrollments with
  | Some g => Grades.current_score g
  | None => None
  end.

Definition score_out (a : Assignment.t) : ScoreOut.t :=
  {| ScoreOut.name := Assignment.name a;
     ScoreOut.score :=
       match Assignment.submission a with Some s => Submission.score s | None => None end;
     ScoreOut.grade :=
       match Assignment.submission a with Some s => Submission.grade s | None => None end;
     ScoreOut.points_possible := Assignment.points_possible a |}.

(** [getGrades] (lines 338-378). *)
Definition getGrades (courseId : jsval) : M ToolResult :=
  grades <-
    (if truthy courseId then
       enrollments <- makeCanvasRequest (EP_enrollments (ToString courseId)) ;;
       assignments <- makeCanvasRequest (EP_assignments_submission (ToString courseId)) ;;
       ret [ {| GradeOut.course_name := None;
                GradeOut.course_id := courseId;
                GradeOut.current_grade := current_grade enrollments;
                GradeOut.current_score := current_score enrollments;
                GradeOut.assignments := Some (map score_out assignments) |} ]
     else
       courses <- makeCanvasRequest EP_courses_total_scores ;;
       for_of courses (fun course =>
         enrollments <-
           makeCanvasRequest (EP_enrollments (Number_toString (Course.id course))) ;;
         ret [ {| GradeOut.course_name := Some (Course.name course);
                  GradeOut.course_id := JNumber (Course.id course);
                  GradeOut.current_grade := current_grade enrollments;
                  GradeOut.current_score := current_score enrollments;
                  GradeOut.assignments := None |} ])) ;;
  ret (GradesResult grades).

(** [a.submission && a.submission.submitted_at], as a condition. *)
Definition is_submitted (a : Assignment.t) : bool :=
  match Assignment.submission a with
  | Some s =>
      match Submission.submitted_at s with
      | Some t => truthy (JString t)
      | None => false
      end
  | None => false
  end.

(** [Math.round((completed / total) * 100)] on two array lengths. *)
Definition completion_rate (completed total : nat) : double :=
  Math_round
    (float_mul (float_div (of_int (Z.of_nat completed)) (of_int (Z.of_nat total)))
               (of_int 100)).

Definition pending_out (a : Assignment.t) : PendingOut.t :=
  {| PendingOut.name := Assignment.name a;
     PendingOut.due_date := Assignment.due_at a;
     PendingOut.points_possible := Assignment.points_possible a |}.

(** The body of [getCourseProgress] once the three responses are in
    (lines 387-417). *)
Definition courseProgress (course : Course.t) (enrollments : list Enrollment.t)
    (assignments : list Assignment.t) : ProgressOut.t :=
  let completedAssignments := filter is_submitted assignments in
  let pendingAssignments := filter (fun a => negb (is_submitted a)) assignments in
  {| ProgressOut.course :=
       {| CourseInfo.name := Course.name course;
          CourseInfo.code := Course.course_code course |};
     ProgressOut.grade_info :=
       {| GradeInfo.current_grade := current_grade enrollments;
          GradeInfo.current_score := current_score enrollments |};
     ProgressOut.progress :=
       {| Progress.total_assignments := List.length assignments;
          Progress.completed_assignments := List.length completedAssignments;
          Progress.pending_assignments := List.length pendingAssignments;
          Progress.completion_rate :=
            completion_rate (List.length completedAssignments) (List.length assignments) |};
     ProgressOut.pending_assignments := map pending_out pendingAssignments |}.

(** [getCourseProgress] (lines 380-418). *)
Definition getCourseProgress (courseId : jsval) : M ToolResult :=
  '(course, enrollments, assignments) <-
    (let course := EP_course (ToString courseId) in
     let enrollments := EP_enrollments (ToString courseId) in
     let assignments := EP_assignments_submission (ToString courseId) in
     Promise_all3
       (settles w course, makeCanvasRequest course)
       (settles w enrollments, makeCanvasRequest enrollments)
       (settles w assignments, makeCanvasRequest assignments)) ;;
  ret (ProgressResult (courseProgress course enrollments assignments)).

(** The filter callback of lines 432-435, for a query that is a string.
    Every element of [allAssignments] carries a course name (see
    [allCourseAssignments]), so the last case does not arise. *)
Definition matches (query : string) (t : Tagged.t) : bool :=
  includes (toLowerCase (Assignment.name (Tagged.a t))) (toLowerCase query)
  || match Tagged.course_name t with
     | Some course_name => includes (toLowerCase course_name) (toLowerCase query)
     | None => false
     end.

(** [query.toLowerCase()] on a value that is not a string throws a
    [TypeError]; the text is V8's. *)
Definition toLowerCase_TypeError (query : jsval) : exn :=
  match query with
  | JUndefined => Error "Cannot read properties of undefined (reading 'toLowerCase')"
  | JNull => Error "Cannot read properties of null (reading 'toLowerCase')"
  | _ => Error "query.toLowerCase is not a function"
  end.

Definition search_out (t : Tagged.t) : SearchOut.t :=
  let assignment := Tagged.a t in
  {| SearchOut.name := Assignment.name assignment;
     SearchOut.course := Tagged.course_name t;
     SearchOut.due_date := Assignment.due_at assignment;
     SearchOut.points := Assignment.points_possible assignment;
     SearchOut.url := Assignment.html_url assignment |}.

(** [searchAssignments] (lines 420-454).  The callback runs once per
    element, so a query that is not a string throws only when there is an
    element to test. *)
Definition searchAssignments (query : jsval) : M ToolResult :=
  allAssignments <- allCourseAssignments ;;
  matchingAssignments <-
    match query with
    | JString q => ret (filter (matches q) allAssignments)
    | _ =>
        match allAssignments with
        | [] => ret []
        | _ :: _ => throw (toLowerCase_TypeError query)
        end
    end ;;
  ret (SearchResult query (map search_out matchingAssignments)).

(** The [switch] of the call-tool handler (lines 197-221). *)
Definition dispatch (name : string) (args : option object) : M ToolResult :=
  if (name =? "get_courses")%string then
    getCourses
  else if (name =? "get_assignments")%string then
    getAssignments (arg args "course_id") (arg args "include_completed")
  else if (name =? "get_upcoming_assignments")%string then
    getUpcomingAssignments (js_or (arg args "days_ahead") (JNumber (of_int 7)))
  else if (name =? "get_grades")%string then
    getGrades (arg args "course_id")
  else if (name =? "get_course_progress")%string then
    getCourseProgress (arg args "course_id")
  else if (name =? "search_assignments")%string then
    searchAssignments (arg args "query")
  else
    throw (McpError MethodNotFound ("Unknown tool: " ++ name)%string).

(** The [catch] of the call-tool handler (lines 222-230). *)
Definition rethrow (name : string) (error : exn) : M ToolResult :=
  match error with
  | McpError _ _ => throw error
  | _ =>
      throw (McpError InternalError
               ("Error executing " ++ name ++ ": " ++ message_or_unknown error)%string)
  end.

(** The call-tool handler (lines 193-231). *)
Definition CallTool (name : string) (args : option object) : M ToolResult :=
  try_catch (dispatch name args) (rethrow name).

End Handlers.

(** The server handles a request only once it has been constructed. *)
Definition start_and_call {rt : Runtime} (env : ProcessEnv.t) (w : World)
    (name : string) (args : option object) : M ToolResult :=
  this <- constructor env ;;
  CallTool this w name args.

(* ================================================================= *)
(** ** What the specification says, in its own words *)









(** [round(completed/total*100)] over the rationals: the integer nearest
    to [100 * completed / total], a half going up. *)
Definition round_percent (completed total : Z) : Z :=
  (200 * completed + total) / (2 * total).

(** The due date of an assignment lies strictly before [now]. *)
Definition due_date_passed {rt : Runtime} (now : Z) (a : Assignment.t) : bool :=
  match Assignment.due_at a with
  | Some s =>
      match Date_parse s with
      | Some t => t <? now
      | None => false
      end
  | None => false
  end.

(** The same, or the [due_at] text is there and cannot be read as a
    date. *)
Definition due_date_passed_or_unreadable {rt : Runtime} (now : Z) (a : Assignment.t) : bool :=
  match Assignment.due_at a with
  | Some s =>
      negb (s =? "")%string &&
      match Date_parse s with
      | Some t => t <? now
      | None => true
      end
  | None => false
  end.

(** The due date printed in an item of the upcoming list, as a time. *)
Definition due_time {rt : Runtime} (item : UpcomingOut.t) : number :=
  match UpcomingOut.due_date item with
  | Some s => Date_parse s
  | None => NaN
  end.

(** [x] is due no later than [y]. *)
Definition due_before {rt : Runtime} (x y : UpcomingOut.t) : Prop :=
  exists tx ty, due_time x = Some tx /\ due_time y = Some ty /\ tx <= ty.

(** [ms] milliseconds are no more than [days] days, the number of days
    being a double and the comparison exact. *)
Definition within_days (ms : Z) (days : double) : bool :=
  match days with
  | S754_zero _ => ms <=? 0
  | S754_finite s m e =>
      let v := if s then Zneg m else Zpos m in
      match e with
      | Zneg p => ms * 2 ^ Zpos p <=? v * 86400000
      | _ => ms <=? v * 2 ^ e * 86400000
      end
  | S754_infinity s => negb s
  | S754_nan => false
  end.

(** [days] is a whole number of days for which the end of the window,
    [now + days * 86400000], is computed without rounding: the product and
    the sum stay below 2^53. *)
Definition whole_days (now days : Z) : Prop :=
  Z.abs now < 2 ^ 53 /\
  Z.abs (days * 86400000) < 2 ^ 53 /\
  Z.abs (now + days * 86400000) < 2 ^ 53.

(* ================================================================= *)
(** ** Vocabulary of the statements *)

(** [raises P c]: whatever [c] throws satisfies [P]. *)
Definition raises {A} (P : exn -> Prop) (c : M A) : Prop :=
  forall log e log', c log = (inl e, log') -> P e.

Definition is_McpError (e : exn) : Prop :=
  match e with McpError _ _ => True | _ => False end.

Definition is_Error (e : exn) : Prop :=
  match e with Thrown _ => False | _ => True end.

(** [r] is an integer nearest to [100 * completed / total], and it is
    [round_percent] unless that quotient lies half way between two
    integers. *)
Definition nearest_percent (completed total r : Z) : Prop :=
  0 <= r <= 100 /\
  2 * Z.abs (r * total - 100 * completed) <= total /\
  ((200 * completed + total) mod (2 * total) <> 0 -> r = round_percent completed total).

(** An array has fewer than 2^32 elements. *)
Definition max_array_length : Z := 2 ^ 32 - 1.

(** Every request is answered with an [ok] response whose body decodes. *)
Definition healthy (w : World) : Prop :=
  forall e, exists response data,
    fetch w e = inr response /\
    Response.ok response = true /\
    Response.json response = inr data.

(** [c] returns a result, whatever the log. *)
Definition returns {A} (c : M A) : Prop :=
  forall log, exists x log', c log = (inr x, log').

(** The comparator [(x, y) => key(x) - key(y)]. *)
Definition by_key {A} (key : A -> number) (x y : A) : number :=
  num_sub (key x) (key y).

(** Both keys are numbers, and the first is at most the second. *)
Definition key_le {A} (key : A -> number) (x y : A) : Prop :=
  exists tx ty, key x = Some tx /\ key y = Some ty /\ tx <= ty.


(* ================================================================= *)
(** ** A small world to run the handlers in *)

Module Examples.

Definition server : CanvasMCPServer :=
  {| config := {| baseUrl := CANVAS_BASE_URL; accessToken := "token" |} |}.

Definition assignment (id : Z) (name : string) (due_at : option string)
    (submitted_at : option string) : Assignment.t :=
  {| Assignment.id := of_int id;
     Assignment.name := name;
     Assignment.due_at := due_at;
     Assignment.points_possible := of_int 10;
     Assignment.submission_types := ["online_upload"];
     Assignment.course_id := of_int 1;
     Assignment.html_url := "https://bruinlearn.ucla.edu/courses/1/assignments";
     Assignment.submission :=
       Some {| Submission.submitted_at := submitted_at;
               Submission.score := None;
               Submission.grade := None |} |}.

Definition math : Course.t :=
  {| Course.id := of_int 1; Course.name := "Math 101";
     Course.course_code := "MATH101"; Course.enrollment_term_id := of_int 7 |}.

Definition history : Course.t :=
  {| Course.id := of_int 2; Course.name := "History";
     Course.course_code := "HIST1"; Course.enrollment_term_id := of_int 7 |}.

Definition math_assignments : list Assignment.t :=
  [ assignment 1 "Midterm" (Some "2024-01-15T23:59:00Z") None;
    assignment 2 "Homework" None (Some "2024-01-02T10:00:00Z");
    assignment 3 "Quiz" (Some "TBD") None;
    assignment 4 "Warm-up" (Some "2023-01-15T23:59:00Z") (Some "2023-01-10T08:00:00Z");
    assignment 5 "Reading" (Some "2024-01-12T00:00:00Z") None ].

Definition history_assignments : list Assignment.t :=
  [ assignment 7 "Essay" (Some "2024-01-13T00:00:00Z") None ].

(** What the loop over the two courses gathers. *)
Definition all_assignments : list Tagged.t :=
  (map (fun a => {| Tagged.a := a; Tagged.course_name := Some "Math 101";
                    Tagged.days_until_due := NaN |}) math_assignments
   ++ map (fun a => {| Tagged.a := a; Tagged.course_name := Some "History";
                       Tagged.days_until_due := NaN |}) history_assignments)%list.

(** What get_upcoming_assignments answers in the world below. *)
Definition upcoming_item (name course due_date : string) (days : Z) : UpcomingOut.t :=
  {| UpcomingOut.name := name;
     UpcomingOut.course := Some course;
     UpcomingOut.due_date := Some due_date;
     UpcomingOut.days_until_due := Some days;
     UpcomingOut.points := of_int 10;
     UpcomingOut.url := "https://bruinlearn.ucla.edu/courses/1/assignments" |}.

Definition upcoming_items : list UpcomingOut.t :=
  [ upcoming_item "Reading" "Math 101" "2024-01-12T00:00:00Z" 1;
    upcoming_item "Essay" "History" "2024-01-13T00:00:00Z" 2;
    upcoming_item "Midterm" "Math 101" "2024-01-15T23:59:00Z" 5 ].

Definition resolved {A} (data : A) : exn + Response.t A :=
  inr {| Response.ok := true; Response.status := 200;
         Response.statusText := "OK"; Response.json := inr data |}.

Definition not_found {A} : exn + Response.t A :=
  inr {| Response.ok := false; Response.status := 404;
         Response.statusText := "Not Found";
         Response.json := inl (Error "Unexpected token") |}.

Definition assignments_of (courseId : string) : exn + Response.t (list Assignment.t) :=
  if (courseId =? "1")%string then resolved math_assignments
  else if (courseId =? "2")%string then resolved history_assignments
  else not_found.

(** The details of a course take longest to arrive, its enrollments
    come first. *)
Definition arrival (e : endpoint) : nat :=
  match e with
  | EP_course _ => 3
  | EP_enrollments _ => 1
  | _ => 2
  end.

(** The clock reads 2024-01-11T19:06:40Z. *)
Definition world : World :=
  {| clock := 1705000000000;
     fetch := fun e =>
       match e return exn + Response.t (body e) with
       | EP_courses | EP_courses_total_scores => resolved [math; history]
       | EP_course c => if (c =? "1")%string then resolved math else not_found
       | EP_assignments c | EP_assignments_submission c => assignments_of c
       | EP_enrollments _ => resolved []
       end;
     settles := arrival |}.

(** The same world with the network down. *)
Definition offline : World :=
  {| clock := 1705000000000;
     fetch := fun e => inl (Error "fetch failed");
     settles := arrival |}.

(** A poll that closes at the very moment the clock shows, a survey that
    closes one millisecond later, and an essay due in two days. *)
Definition closing_assignments : list Assignment.t :=
  [ assignment 11 "Poll" (Some "2024-01-11T19:06:40Z") None;
    assignment 12 "Survey" (Some "2024-01-11T19:06:40.001Z") None;
    assignment 13 "Essay" (Some "2024-01-13T19:06:40Z") None ].

Definition world_closing : World :=
  {| clock := 1705000000000;
     fetch := fun e =>
       match e return exn + Response.t (body e) with
       | EP_courses | EP_courses_total_scores => resolved [math]
       | EP_course _ => resolved math
       | EP_assignments _ | EP_assignments_submission _ => resolved closing_assignments
       | EP_enrollments _ => resolved []
       end;
     settles := arrival |}.

(** What get_upcoming_assignments answers there when the window is
    a little less than one millisecond: the survey is in. *)
Definition closing_items : list UpcomingOut.t :=
  [ upcoming_item "Poll" "Math 101" "2024-01-11T19:06:40Z" 0;
    upcoming_item "Survey" "Math 101" "2024-01-11T19:06:40.001Z" 1 ].

(** The double 1.1573958333333334e-08: a little less than one
    millisecond, in days. *)
Definition almost_a_millisecond : double :=
  S754_finite false 6996028532155284 (-79).

(** The double 0.5. *)
Definition half : double := S754_finite false 4503599627370496 (-53).

(** Forty assignments, the first [n] of them submitted. *)
Definition forty (n : nat) : list Assignment.t :=
  map (fun i => assignment (Z.of_nat i) "Problem set" None
                  (if (i <? n)%nat then Some "2024-01-02T10:00:00Z" else None))
      (seq 0 40).

Definition world_forty (n : nat) : World :=
  {| clock := 1705000000000;
     fetch := fun e =>
       match e return exn + Response.t (body e) with
       | EP_courses | EP_courses_total_scores => resolved [math]
       | EP_course _ => resolved math
       | EP_assignments _ | EP_assignments_submission _ => resolved (forty n)
       | EP_enrollments _ => resolved []
       end;
     settles := arrival |}.

Definition no_token : ProcessEnv.t :=
  {| ProcessEnv.CANVAS_BASE_URL := None; ProcessEnv.CANVAS_ACCESS_TOKEN := None |}.

Definition empty_token : ProcessEnv.t :=
  {| ProcessEnv.CANVAS_BASE_URL := None; ProcessEnv.CANVAS_ACCESS_TOKEN := Some "" |}.

End Examples.


(* ================================================================= *)
(** ** Vocabulary of the further properties *)

(** The request that [makeCanvasRequest] sends for an endpoint (lines
    81-89). *)
Definition request_of (this : CanvasMCPServer) (e : endpoint) : Request.t :=
  {| Request.url := (baseUrl (config this) ++ "/api/v1" ++ endpoint_path e)%string;
     Request.headers :=
       [ ("Authorization", ("Bearer " ++ accessToken (config this))%string);
         ("Content-Type", "application/json") ] |}.

(** The data an endpoint answers with: [fetch] resolves, the response is
    [ok] and its body decodes. *)
Definition answered (w : World) (e : endpoint) : option (body e) :=
  match fetch w e with
  | inr response =>
      if Response.ok response then
        match Response.json response with
        | inr data => Some data
        | inl _ => None
        end
      else None
  | inl _ => None
  end.

(** What went wrong with a request, in words. *)
Definition failure_text (w : World) (e : endpoint) : string :=
  match fetch w e with
  | inl error => message_or_unknown error
  | inr response =>
      if Response.ok response then
        match Response.json response with
        | inl error => message_or_unknown error
        | inr _ => ""
        end
      else
        ("Canvas API error: " ++ string_of_Z (Response.status response)
         ++ " " ++ Response.statusText response)%string
  end.

(** The error a request that is not answered ends with. *)
Definition failure_of (w : World) (e : endpoint) : exn :=
  McpError InternalError ("Failed to fetch from Canvas: " ++ failure_text w e)%string.

(** The elements of a list up to the first whose request is not
    answered, that one included. *)
Fixpoint until_unanswered {A} (w : World) (ep : A -> endpoint) (l : list A) : list A :=
  match l with
  | [] => []
  | x :: l' =>
      match answered w (ep x) with
      | Some _ => x :: until_unanswered w ep l'
      | None => [x]
      end
  end.

(** The first element whose request is not answered. *)
Fixpoint first_unanswered {A} (w : World) (ep : A -> endpoint) (l : list A) : option A :=
  match l with
  | [] => None
  | x :: l' =>
      match answered w (ep x) with
      | Some _ => first_unanswered w ep l'
      | None => Some x
      end
  end.

(** [c] only adds to the log, and what it adds satisfies [P]. *)
Definition sends {A} (P : Request.t -> Prop) (c : M A) : Prop :=
  forall log r log',
    c log = (r, log') -> exists sent, log' = (log ++ sent)%list /\ Forall P sent.

(** A request to the configured Canvas instance carrying the token. *)
Definition authenticated (this : CanvasMCPServer) (r : Request.t) : Prop :=
  exists e, r = request_of this e.

Definition is_InternalError (e : exn) : Prop :=
  exists message, e = McpError InternalError message.

(** The endpoint of the assignments of a course. *)
Definition assignments_of {rt : Runtime} (course : Course.t) : endpoint :=
  EP_assignments (Number_toString (Course.id course)).

Definition enrollments_of {rt : Runtime} (course : Course.t) : endpoint :=
  EP_enrollments (Number_toString (Course.id course)).

(** An assignment without a submission time: no submission, or one whose
    [submitted_at] is [null] or empty. *)
Definition not_submitted (a : Assignment.t) : Prop :=
  Assignment.submission a = None \/
  exists s, Assignment.submission a = Some s /\
            (Submission.submitted_at s = None \/ Submission.submitted_at s = Some "").

(** The window of get_upcoming_assignments cannot hold a date: the number
    of days is not a number, or it is a whole number of days that is
    negative or leads past the range of [Date]. *)
Definition no_window {rt : Runtime} (now : Z) (daysAhead : jsval) : Prop :=
  ToNumber daysAhead = S754_nan \/
  exists days,
    ToNumber daysAhead = of_int days /\ whole_days now days /\
    (days < 0 \/ 8640000000000000 < Z.abs (now + days * 86400000)).

(** The due date of an assignment reads as a time between [now] and
    [last], both included. *)
Definition due_between {rt : Runtime} (now last : Z) (a : Assignment.t) : Prop :=
  exists s due,
    Assignment.due_at a = Some s /\ s <> "" /\
    Date_parse s = Some due /\
    now <= due <= last.

(** The due date of an assignment lies in the window of
    get_upcoming_assignments: the cutoff is a date, and the due date reads
    as a time between [now] and the cutoff. *)
Definition in_window {rt : Runtime} (now : Z) (daysAhead : jsval) (a : Assignment.t) : Prop :=
  exists cutoff,
    cutoffDate now daysAhead = Some cutoff /\ due_between now cutoff a.

(** The entry of the upcoming list for an assignment of a course. *)
Definition upcoming_item {rt : Runtime} (now : Z) (c : Course.t) (a : Assignment.t)
    : UpcomingOut.t :=
  {| UpcomingOut.name := Assignment.name a;
     UpcomingOut.course := Some (Course.name c);
     UpcomingOut.due_date := Assignment.due_at a;
     UpcomingOut.days_until_due := days_until now a;
     UpcomingOut.points := Assignment.points_possible a;
     UpcomingOut.url := Assignment.html_url a |}.

(** The arguments [args] with [key] set to [v]. *)
Definition with_arg (key : string) (v : jsval) (args : option object) : option object :=
  Some ((key, v) :: match args with Some o => o | None => [] end).

Module MoreExamples.

(** A course that Canvas lists but whose assignments it refuses. *)
Definition archived : Course.t :=
  {| Course.id := of_int 3; Course.name := "Archived";
     Course.course_code := "OLD1"; Course.enrollment_term_id := of_int 5 |}.

(** The world of [Examples], with the archived course listed second. *)
Definition world : World :=
  {| clock := 1705000000000;
     fetch := fun e =>
       match e return exn + Response.t (body e) with
       | EP_courses | EP_courses_total_scores =>
           Examples.resolved [Examples.math; archived; Examples.history]
       | EP_course c =>
           if (c =? "1")%string then Examples.resolved Examples.math
           else Examples.not_found
       | EP_assignments c | EP_assignments_submission c => Examples.assignments_of c
       | EP_enrollments c =>
           if (c =? "1")%string then
             Examples.resolved
               [ {| Enrollment.grades :=
                      Some {| Grades.current_grade := Some "A-";
                              Grades.current_score := Some (of_int 91) |} |} ]
           else Examples.resolved []
       end;
     settles := Examples.arrival |}.

(** A world where the details of course 5 are not found and its
    enrollments cannot be fetched at all; the second failure is the first
    to happen. *)
Definition flaky : World :=
  {| clock := 1705000000000;
     fetch := fun e =>
       match e return exn + Response.t (body e) with
       | EP_courses | EP_courses_total_scores => Examples.resolved [Examples.math]
       | EP_course _ => Examples.not_found
       | EP_assignments _ | EP_assignments_submission _ =>
           Examples.resolved Examples.math_assignments
       | EP_enrollments _ => inl (Error "socket hang up")
       end;
     settles := Examples.arrival |}.

(** The assignments each course of [Examples.world] answers with. *)
Definition assignments (c : Course.t) : list Assignment.t :=
  if SFeqb (Course.id c) (of_int 1) then Examples.math_assignments
  else Examples.history_assignments.

(** The enrollments each course of [world] answers with. *)
Definition enrollments (c : Course.t) : list Enrollment.t :=
  if SFeqb (Course.id c) (of_int 1) then
    [ {| Enrollment.grades :=
           Some {| Grades.current_grade := Some "A-";
                   Grades.current_score := Some (of_int 91) |} |} ]
  else [].

(** The double 1e21, which a template literal prints with an
    exponent. *)
Definition sextillion : double := of_int (10 ^ 21).

(** The third entry of the registry. *)
Definition upcoming_tool : Tool.t :=
  nth 2 ListTools
      {| Tool.name := ""; Tool.description := "";
         Tool.inputSchema :=
           {| InputSchema.type := ""; InputSchema.properties := [];
              InputSchema.required := None |} |}.

Definition with_base_url : ProcessEnv.t :=
  {| ProcessEnv.CANVAS_BASE_URL := Some "https://canvas.example.edu";
     ProcessEnv.CANVAS_ACCESS_TOKEN := Some "secret" |}.

End MoreExamples.
(* ================================================================= *)
(** * Properties *)

(** ** The monad *)

Lemma bind_ret_inv {A B} (c : M A) (k : A -> M B) log y log'' :
  bind c k log = (inr y, log'') ->
  exists x log', c log = (inr x, log') /\ k x log' = (inr y, log'').
Proof.
  unfold bind. destruct (c log) as [[e | x] log'] eqn:E; intros H.
  - discriminate.
  - exists x, log'. split; [reflexivity | exact H].
Qed.

Lemma bind_throw_inv {A B} (c : M A) (k : A -> M B) log e log'' :
  bind c k log = (inl e, log'') ->
  c log = (inl e, log'') \/
  exists x log', c log = (inr x, log') /\ k x log' = (inl e, log'').
Proof.
  unfold bind. destruct (c log) as [[e' | x] log'] eqn:E; intros H.
  - left. inversion H. reflexivity.
  - right. exists x, log'. split; [reflexivity | exact H].
Qed.

Lemma raises_ret {A} P (x : A) : raises P (ret x).
Proof. intros log e log' H. discriminate H. Qed.

Lemma raises_throw {A} (P : exn -> Prop) e : P e -> raises P (@throw A e).
Proof. intros HP log e' log' H. inversion H. subst. exact HP. Qed.

Lemma raises_bind {A B} P (c : M A) (k : A -> M B) :
  raises P c -> (forall x, raises P (k x)) -> raises P (bind c k).
Proof.
  intros Hc Hk log e log' H.
  destruct (bind_throw_inv _ _ _ _ _ H) as [H1 | (x & l1 & _ & H2)].
  - exact (Hc _ _ _ H1).
  - exact (Hk _ _ _ _ H2).
Qed.

Lemma raises_for_of {A B} P (l : list A) (body : A -> M (list B)) :
  (forall x, raises P (body x)) -> raises P (for_of l body).
Proof.
  intros Hb. induction l as [| x l IH]; simpl.
  - apply raises_ret.
  - apply raises_bind; [apply Hb |]. intros ys.
    apply raises_bind; [exact IH |]. intros rest. apply raises_ret.
Qed.

Lemma raises_Promise_all3 {A B C} P (p : nat * M A) (q : nat * M B) (r : nat * M C) :
  raises P (snd p) -> raises P (snd q) -> raises P (snd r) ->
  raises P (Promise_all3 p q r).
Proof.
  intros Hp Hq Hr log e log'. unfold Promise_all3.
  destruct (snd p log) as [x l1] eqn:Ep.
  destruct (snd q l1) as [y l2] eqn:Eq.
  destruct (snd r l2) as [z l3] eqn:Er.
  assert (Hx : forall e1, x = inl e1 -> P e1) by (intros e1 ->; eapply Hp; eauto).
  assert (Hy : forall e2, y = inl e2 -> P e2) by (intros e2 ->; eapply Hq; eauto).
  assert (Hz : forall e3, z = inl e3 -> P e3) by (intros e3 ->; eapply Hr; eauto).
  destruct x as [e1 | a], y as [e2 | b], z as [e3 | c];
    intros H; inversion H; subst; clear H; unfold sooner; simpl;
    repeat match goal with
           | |- context [if ?c then _ else _] => destruct c; simpl
           end;
    eauto.
Qed.

(** Every element collected by a loop satisfies what each round
    guarantees. *)
Lemma for_of_Forall {A B} (P : B -> Prop) (body : A -> M (list B)) :
  (forall x log ys log', body x log = (inr ys, log') -> Forall P ys) ->
  forall l log ys log', for_of l body log = (inr ys, log') -> Forall P ys.
Proof.
  intros Hb. induction l as [| x l IH]; simpl; intros log ys log' H.
  - inversion H. constructor.
  - apply bind_ret_inv in H. destruct H as (ys1 & l1 & H1 & H).
    apply bind_ret_inv in H. destruct H as (rest & l2 & H2 & H).
    inversion H. subst. apply Forall_app. split; eauto.
Qed.

(** ** Errors raised by the handlers *)

Lemma is_McpError_is_Error e : is_McpError e -> is_Error e.
Proof. destruct e; simpl; tauto. Qed.

Lemma raises_weaken {A} (P Q : exn -> Prop) (c : M A) :
  (forall e, P e -> Q e) -> raises P c -> raises Q c.
Proof. intros HPQ Hc log e log' H. apply HPQ. exact (Hc _ _ _ H). Qed.

Section HandlerErrors.
Context {rt : Runtime}.
Variable this : CanvasMCPServer.
Variable w : World.

(** Whatever goes wrong in a request leaves [makeCanvasRequest] as an
    [McpError]. *)
Lemma makeCanvasRequest_raises e : raises is_McpError (makeCanvasRequest this w e).
Proof.
  intros log err log'. unfold makeCanvasRequest, bind, issue, try_catch, throw, ret.
  destruct (fetch w e) as [x | response]; simpl.
  - intros H. inversion H. exact I.
  - destruct (Response.ok response); simpl.
    + destruct (Response.json response); intros H; inversion H. exact I.
    + intros H. inversion H. exact I.
Qed.

Lemma allCourseAssignments_raises : raises is_McpError (allCourseAssignments this w).
Proof.
  unfold allCourseAssignments.
  apply raises_bind; [apply makeCanvasRequest_raises |]. intros courses.
  apply raises_for_of. intros course.
  apply raises_bind; [apply makeCanvasRequest_raises |]. intros. apply raises_ret.
Qed.

Lemma getCourses_raises : raises is_McpError (getCourses this w).
Proof.
  unfold getCourses.
  apply raises_bind; [apply makeCanvasRequest_raises |]. intros. apply raises_ret.
Qed.

Lemma getAssignments_raises courseId includeCompleted :
  raises is_McpError (getAssignments this w courseId includeCompleted).
Proof.
  unfold getAssignments, getAssignments_fetch.
  apply raises_bind; [| intros; apply raises_ret].
  destruct (truthy courseId).
  - apply raises_bind; [apply makeCanvasRequest_raises |]. intros. apply raises_ret.
  - apply allCourseAssignments_raises.
Qed.

Lemma getUpcomingAssignments_raises daysAhead :
  raises is_McpError (getUpcomingAssignments this w daysAhead).
Proof.
  unfold getUpcomingAssignments, getUpcomingAssignments_collect.
  apply raises_bind; [| intros; apply raises_ret].
  apply raises_bind; [apply makeCanvasRequest_raises |]. intros courses.
  apply raises_for_of. intros course.
  apply raises_bind; [apply makeCanvasRequest_raises |]. intros. apply raises_ret.
Qed.

Lemma getGrades_raises courseId : raises is_McpError (getGrades this w courseId).
Proof.
  unfold getGrades.
  apply raises_bind; [| intros; apply raises_ret].
  destruct (truthy courseId).
  - apply raises_bind; [apply makeCanvasRequest_raises |]. intros.
    apply raises_bind; [apply makeCanvasRequest_raises |]. intros. apply raises_ret.
  - apply raises_bind; [apply makeCanvasRequest_raises |]. intros courses.
    apply raises_for_of. intros course.
    apply raises_bind; [apply makeCanvasRequest_raises |]. intros. apply raises_ret.
Qed.

Lemma getCourseProgress_raises courseId :
  raises is_McpError (getCourseProgress this w courseId).
Proof.
  unfold getCourseProgress. cbv zeta.
  apply raises_bind.
  - apply raises_Promise_all3; apply makeCanvasRequest_raises.
  - intros [[course enrollments] assignments]. apply raises_ret.
Qed.

Lemma searchAssignments_raises query : raises is_Error (searchAssignments this w query).
Proof.
  unfold searchAssignments.
  apply raises_bind.
  - eapply raises_weaken; [apply is_McpError_is_Error | apply allCourseAssignments_raises].
  - intros all. apply raises_bind; [| intros; apply raises_ret].
    destruct query; try apply raises_ret;
      (destruct all; [apply raises_ret | apply raises_throw; simpl; try destruct b; exact I]).
Qed.

(** The [switch] throws [Error] objects only. *)
Lemma dispatch_raises name args : raises is_Error (dispatch this w name args).
Proof.
  unfold dispatch.
  repeat match goal with
         | |- raises _ (if ?c then _ else _) => destruct c
         end.
  - eapply raises_weaken; [apply is_McpError_is_Error | apply getCourses_raises].
  - eapply raises_weaken; [apply is_McpError_is_Error | apply getAssignments_raises].
  - eapply raises_weaken; [apply is_McpError_is_Error | apply getUpcomingAssignments_raises].
  - eapply raises_weaken; [apply is_McpError_is_Error | apply getGrades_raises].
  - eapply raises_weaken; [apply is_McpError_is_Error | apply getCourseProgress_raises].
  - apply searchAssignments_raises.
  - apply raises_throw. exact I.
Qed.

End HandlerErrors.

(* ================================================================= *)
(** ** The tool registry and the dispatcher *)

(** C8: the list-tools operation returns exactly six entries, named
    get_courses, get_assignments, get_upcoming_assignments, get_grades,
    get_course_progress and search_assignments, in this order and without
    repetition; the list depends on nothing. *)
Theorem ListTools_six_names :
  List.length ListTools = 6%nat /\
  map Tool.name ListTools =
    [ "get_courses"; "get_assignments"; "get_upcoming_assignments";
      "get_grades"; "get_course_progress"; "search_assignments" ] /\
  NoDup (map Tool.name ListTools).
Proof.
  split; [reflexivity |]. split; [reflexivity |].
  simpl. repeat constructor; simpl; intuition discriminate.
Qed.

Lemma unknown_name_eqb name known :
  ~ In name (map Tool.name ListTools) ->
  In known (map Tool.name ListTools) ->
  (name =? known)%string = false.
Proof.
  intros Hn Hk. apply String.eqb_neq. intros ->. exact (Hn Hk).
Qed.

(** C3: a call-tool request whose name is none of the six registered
    names fails with the method-not-found error [Unknown tool: <name>];
    the [catch] clause hands this error on as it is, and no request has
    been sent. *)
Theorem unknown_tool_method_not_found {rt : Runtime} this w name args log :
  ~ In name (map Tool.name ListTools) ->
  CallTool this w name args log =
    (inl (McpError MethodNotFound ("Unknown tool: " ++ name)%string), log).
Proof.
  intros Hn. unfold CallTool, dispatch.
  rewrite !(unknown_name_eqb name) by (assumption || (simpl; tauto)).
  reflexivity.
Qed.

Lemma unknown_tool_witness :
  ~ In "get_everything" (map Tool.name ListTools) /\
  CallTool (rt := Engine.runtime) Examples.server Examples.world "get_everything" None [] =
    (inl (McpError MethodNotFound "Unknown tool: get_everything"), []).
Proof.
  assert (H : ~ In "get_everything" (map Tool.name ListTools))
    by (simpl; intuition discriminate).
  split; [exact H |].
  exact (unknown_tool_method_not_found Examples.server Examples.world
           "get_everything" None [] H).
Defined.

(** C7: when the handler selected by the [switch] fails, the dispatcher
    fails too: an [McpError] leaves it unchanged, and any other error
    leaves it as an internal error whose message ends with the message of
    the original error.  The handlers throw nothing but [Error] objects. *)
Theorem handler_failure_surfaced {rt : Runtime} this w name args log e log' :
  dispatch this w name args log = (inl e, log') ->
  match e with
  | McpError code m =>
      CallTool this w name args log = (inl (McpError code m), log')
  | Error m =>
      CallTool this w name args log =
        (inl (McpError InternalError ("Error executing " ++ name ++ ": " ++ m)%string), log')
  | Thrown _ => False
  end.
Proof.
  intros H. pose proof (dispatch_raises this w name args _ _ _ H) as He.
  unfold CallTool, try_catch. rewrite H.
  destruct e; simpl in *; [reflexivity | reflexivity | exact He].
Qed.

Lemma handler_failure_witness :
  let run := dispatch (rt := Engine.runtime) Examples.server Examples.world
               "search_assignments" None [] in
  run = (inl (Error "Cannot read properties of undefined (reading 'toLowerCase')"), snd run) /\
  CallTool (rt := Engine.runtime) Examples.server Examples.world "search_assignments" None [] =
    (inl (McpError InternalError
            "Error executing search_assignments: Cannot read properties of undefined (reading 'toLowerCase')"),
     snd run).
Proof.
  intros run.
  assert (H : run = (inl (Error "Cannot read properties of undefined (reading 'toLowerCase')"),
                     snd run)) by (vm_compute; reflexivity).
  split; [exact H |].
  exact (handler_failure_surfaced Examples.server Examples.world
           "search_assignments" None [] _ _ H).
Defined.

(** A handler that succeeds hands its result to the caller. *)
Lemma handler_success_returned {rt : Runtime} this w name args log r log' :
  dispatch this w name args log = (inr r, log') ->
  CallTool this w name args log = (inr r, log').
Proof. intros H. unfold CallTool, try_catch. rewrite H. reflexivity. Qed.

(** An upstream failure reaches the caller as the internal error that
    [makeCanvasRequest] built, not wrapped a second time. *)
Example upstream_failure_not_rewrapped :
  fst (CallTool (rt := Engine.runtime) Examples.server Examples.offline "get_courses" None []) =
    inl (McpError InternalError "Failed to fetch from Canvas: fetch failed").
Proof. vm_compute. reflexivity. Qed.

(* ================================================================= *)
(** ** Construction *)

(** C6: when the access token is absent from the environment, or empty,
    the constructor throws the configuration error and the log of requests
    is what it was: nothing has been sent.  No call can be served by such
    a process. *)
Theorem constructor_requires_token env log :
  ProcessEnv.CANVAS_ACCESS_TOKEN env = None \/
  ProcessEnv.CANVAS_ACCESS_TOKEN env = Some "" ->
  constructor env log =
    (inl (Error "CANVAS_ACCESS_TOKEN environment variable is required"), log) /\
  forall (rt : Runtime) w name args,
    start_and_call env w name args log =
      (inl (Error "CANVAS_ACCESS_TOKEN environment variable is required"), log).
Proof.
  intros H.
  assert (Hc : constructor env log =
               (inl (Error "CANVAS_ACCESS_TOKEN environment variable is required"), log)).
  { unfold constructor. simpl. destruct H as [-> | ->]; reflexivity. }
  split; [exact Hc |].
  intros rt w name args. unfold start_and_call, bind. rewrite Hc. reflexivity.
Qed.

Lemma constructor_requires_token_witness :
  (ProcessEnv.CANVAS_ACCESS_TOKEN Examples.empty_token = None \/
   ProcessEnv.CANVAS_ACCESS_TOKEN Examples.empty_token = Some "") /\
  constructor Examples.empty_token [] =
    (inl (Error "CANVAS_ACCESS_TOKEN environment variable is required"), []).
Proof.
  split; [right; reflexivity |].
  exact (proj1 (constructor_requires_token Examples.empty_token []
                  (or_intror eq_refl))).
Defined.

Example constructor_without_token :
  constructor Examples.no_token [] =
    (inl (Error "CANVAS_ACCESS_TOKEN environment variable is required"), []).
Proof. reflexivity. Qed.

(** With a token the constructor succeeds, again without a request. *)
Lemma constructor_with_token env log token :
  ProcessEnv.CANVAS_ACCESS_TOKEN env = Some token ->
  token <> "" ->
  exists this, constructor env log = (inr this, log) /\
               accessToken (config this) = token.
Proof.
  intros H Hne. unfold constructor. simpl. rewrite H. simpl.
  apply String.eqb_neq in Hne. rewrite !Hne. simpl.
  eexists. split; reflexivity.
Qed.


(* ================================================================= *)
(** ** Requests that succeed *)


Section Fetching.
Context {rt : Runtime}.
Variable this : CanvasMCPServer.
Variable w : World.

(** A request returns data only when [fetch] resolved with an [ok]
    response whose body decoded to that data. *)
Lemma makeCanvasRequest_ok_inv e log data log' :
  makeCanvasRequest this w e log = (inr data, log') ->
  exists response,
    fetch w e = inr response /\
    Response.ok response = true /\
    Response.json response = inr data.
Proof.
  unfold makeCanvasRequest, bind, issue, try_catch, throw, ret.
  destruct (fetch w e) as [x | response]; simpl; [discriminate |].
  destruct (Response.ok response) eqn:Hok; simpl; [| discriminate].
  destruct (Response.json response) as [x | d] eqn:Hj; [discriminate |].
  intros H. inversion H. subst. exists response. auto.
Qed.


End Fetching.

(* ================================================================= *)
(** ** Requests that are answered *)

Lemma returns_ret {A} (x : A) : returns (ret x).
Proof. intros log. exists x, log. reflexivity. Qed.

Lemma returns_bind {A B} (c : M A) (k : A -> M B) :
  returns c -> (forall x, returns (k x)) -> returns (bind c k).
Proof.
  intros Hc Hk log. destruct (Hc log) as (x & l1 & E).
  destruct (Hk x l1) as (y & l2 & E'). exists y, l2.
  unfold bind. rewrite E. exact E'.
Qed.

Lemma returns_for_of {A B} (l : list A) (body : A -> M (list B)) :
  (forall x, returns (body x)) -> returns (for_of l body).
Proof.
  intros Hb. induction l as [| x l IH]; simpl.
  - apply returns_ret.
  - apply returns_bind; [apply Hb |]. intros ys.
    apply returns_bind; [exact IH |]. intros rest. apply returns_ret.
Qed.

Lemma returns_Promise_all3 {A B C} (p : nat * M A) (q : nat * M B) (r : nat * M C) :
  returns (snd p) -> returns (snd q) -> returns (snd r) ->
  returns (Promise_all3 p q r).
Proof.
  intros Hp Hq Hr log. unfold Promise_all3.
  destruct (Hp log) as (a & l1 & ->). destruct (Hq l1) as (b & l2 & ->).
  destruct (Hr l2) as (c & l3 & ->). exists (a, b, c), l3. reflexivity.
Qed.

Section Answered.
Context {rt : Runtime}.
Variable this : CanvasMCPServer.
Variable w : World.
Hypothesis upstream : healthy w.

Lemma makeCanvasRequest_returns e : returns (makeCanvasRequest this w e).
Proof.
  intros log. destruct (upstream e) as (response & data & Hf & Hok & Hj).
  exists data. eexists.
  unfold makeCanvasRequest, bind, issue, try_catch, throw, ret.
  rewrite Hf. simpl. rewrite Hok. simpl. rewrite Hj. reflexivity.
Qed.

Lemma allCourseAssignments_returns : returns (allCourseAssignments this w).
Proof.
  unfold allCourseAssignments.
  apply returns_bind; [apply makeCanvasRequest_returns |]. intros courses.
  apply returns_for_of. intros course.
  apply returns_bind; [apply makeCanvasRequest_returns |]. intros. apply returns_ret.
Qed.

Lemma getAssignments_fetch_returns courseId :
  returns (getAssignments_fetch this w courseId).
Proof.
  unfold getAssignments_fetch. destruct (truthy courseId).
  - apply returns_bind; [apply makeCanvasRequest_returns |]. intros. apply returns_ret.
  - apply allCourseAssignments_returns.
Qed.

(** With the upstream answering, get_upcoming_assignments returns a
    list, whatever the number of days. *)
Lemma getUpcomingAssignments_returns daysAhead log :
  exists items log',
    getUpcomingAssignments this w daysAhead log = (inr (UpcomingResult items), log').
Proof.
  assert (Hc : returns (getUpcomingAssignments_collect this w daysAhead)).
  { unfold getUpcomingAssignments_collect.
    apply returns_bind; [apply makeCanvasRequest_returns |]. intros courses.
    apply returns_for_of. intros course.
    apply returns_bind; [apply makeCanvasRequest_returns |]. intros. apply returns_ret. }
  destruct (Hc log) as (collected & log' & E).
  unfold getUpcomingAssignments, bind. rewrite E. eexists. eexists. reflexivity.
Qed.

(** With the upstream answering, get_course_progress returns a report. *)
Lemma getCourseProgress_returns courseId log :
  exists out log',
    getCourseProgress this w courseId log = (inr (ProgressResult out), log').
Proof.
  unfold getCourseProgress. cbv zeta.
  match goal with
  | |- context [bind ?c _] =>
      assert (Hp : returns c)
        by (apply returns_Promise_all3; apply makeCanvasRequest_returns);
      destruct (Hp log) as ([[course enrollments] assignments] & log' & E)
  end.
  unfold bind. rewrite E. eexists. eexists. reflexivity.
Qed.

End Answered.

(* ================================================================= *)
(** ** get_assignments *)

Section GetAssignments.
Context {rt : Runtime}.

(** The filter callback keeps an assignment unless its [due_at] is a
    non-empty text that is not a date at or after [now]. *)
Lemma still_due_spec now a :
  still_due now a = negb (due_date_passed_or_unreadable now a).
Proof.
  unfold still_due, no_due_at, dueDate, due_date_passed_or_unreadable.
  destruct (Assignment.due_at a) as [s |]; simpl; [| reflexivity].
  destruct (s =? "")%string; simpl; [reflexivity |].
  destruct (Date_parse s) as [t |]; simpl; [| reflexivity].
  destruct (Z.leb_spec now t), (Z.ltb_spec t now); simpl; (reflexivity || lia).
Qed.

(** Where every [due_at] that is present is a non-empty text that reads
    as a date, the excluded items are those whose due date has passed. *)
Lemma passed_or_unreadable_on_dates now a :
  (forall s, Assignment.due_at a = Some s -> s <> "" /\ Date_parse s <> None) ->
  due_date_passed_or_unreadable now a = due_date_passed now a.
Proof.
  unfold due_date_passed_or_unreadable, due_date_passed. intros H.
  destruct (Assignment.due_at a) as [s |]; [| reflexivity].
  destruct (H s eq_refl) as [Hne Hd].
  apply String.eqb_neq in Hne. rewrite Hne. simpl.
  destruct (Date_parse s); [reflexivity | congruence].
Qed.

(** C4 (as amended): with [include_completed] false, or left out,
    get_assignments returns the fetched assignments without those whose
    [due_at] is a non-empty text that is either a date strictly before now
    or not a date at all, and keeps every other item in order; with
    [include_completed] true it returns all of them. *)
Theorem getAssignments_filter this w courseId log fetched log' :
  getAssignments_fetch this w courseId log = (inr fetched, log') ->
  let kept :=
    filter (fun t => negb (due_date_passed_or_unreadable (clock w) (Tagged.a t))) fetched in
  getAssignments this w courseId (JBool false) log =
    (inr (AssignmentsResult (map assignment_out kept)), log') /\
  getAssignments this w courseId JUndefined log =
    (inr (AssignmentsResult (map assignment_out kept)), log') /\
  getAssignments this w courseId (JBool true) log =
    (inr (AssignmentsResult (map assignment_out fetched)), log').
Proof.
  intros H kept.
  assert (Hk : filter (fun t => still_due (clock w) (Tagged.a t)) fetched = kept).
  { apply filter_ext. intros t. apply still_due_spec. }
  unfold getAssignments, bind. rewrite H. simpl. rewrite Hk.
  repeat split; reflexivity.
Qed.

End GetAssignments.

Lemma getAssignments_filter_witness :
  let fetched := map (tag None) Examples.math_assignments in
  let run := getAssignments_fetch (rt := Engine.runtime) Examples.server Examples.world
               (JNumber (of_int 1)) [] in
  run = (inr fetched, snd run) /\
  getAssignments (rt := Engine.runtime) Examples.server Examples.world
    (JNumber (of_int 1)) (JBool false) [] =
    (inr (AssignmentsResult
            (map assignment_out
               (filter (fun t => negb (due_date_passed_or_unreadable (rt := Engine.runtime)
                                         (clock Examples.world) (Tagged.a t)))
                       fetched))),
     snd run).
Proof.
  intros fetched run.
  assert (H : run = (inr fetched, snd run)) by (vm_compute; reflexivity).
  split; [exact H |].
  exact (proj1 (@getAssignments_filter Engine.runtime Examples.server
                  Examples.world (JNumber (of_int 1)) [] fetched (snd run) H)).
Defined.

(** C4 (as stated) fails: an assignment whose [due_at] is not a date, here
    the quiz due ["TBD"], has no due date that has passed, and is excluded
    all the same. *)
Lemma getAssignments_excludes_unreadable_due_at :
  ~ (forall (rt : Runtime) this w courseId log fetched log',
        getAssignments_fetch this w courseId log = (inr fetched, log') ->
        getAssignments this w courseId (JBool false) log =
          (inr (AssignmentsResult
                  (map assignment_out
                     (filter (fun t => negb (due_date_passed (clock w) (Tagged.a t)))
                             fetched))),
           log')).
Proof.
  intros claim.
  specialize (claim Engine.runtime Examples.server Examples.world (JNumber (of_int 1)) []
                    (map (tag None) Examples.math_assignments) _ eq_refl).
  vm_compute in claim. discriminate claim.
Qed.

(* ================================================================= *)
(** ** search_assignments *)



(** *** Letter case *)







Section Search.
Context {rt : Runtime}.




End Search.


(** The search finds the five assignments of Math 101 by the name of their
    course, whatever the case of the query. *)
Example search_by_course_name :
  match fst (searchAssignments (rt := Engine.runtime) Examples.server Examples.world
               (JString "mAtH 1") []) with
  | inr (SearchResult _ results) =>
      map SearchOut.name results = ["Midterm"; "Homework"; "Quiz"; "Warm-up"; "Reading"]
  | _ => False
  end.
Proof. vm_compute. reflexivity. Qed.

(* ================================================================= *)
(** ** Sorting *)

Section ArraySortFacts.
Context {A : Type}.

Lemma sort_insert_perm (cmp : A -> A -> number) x l :
  Permutation (sort_insert cmp x l) (x :: l).
Proof.
  induction l as [| y l IH]; simpl.
  - apply Permutation_refl.
  - destruct (comes_after cmp x y).
    + eapply perm_trans; [apply perm_skip; exact IH | apply perm_swap].
    + apply Permutation_refl.
Qed.

(** Sorting rearranges; it neither drops nor invents an element. *)
Lemma Array_sort_perm (cmp : A -> A -> number) l :
  Permutation (Array_sort cmp l) l.
Proof.
  induction l as [| x l IH]; simpl.
  - apply perm_nil.
  - eapply perm_trans; [apply sort_insert_perm | apply perm_skip; exact IH].
Qed.

Variable key : A -> number.

Lemma key_le_trans x y z : key_le key x y -> key_le key y z -> key_le key x z.
Proof.
  intros (tx & ty & Hx & Hy & Hxy) (ty' & tz & Hy' & Hz & Hyz).
  rewrite Hy in Hy'. inversion Hy'. subst.
  exists tx, tz. repeat split; auto. lia.
Qed.

Lemma sort_insert_sorted x l :
  key x <> NaN ->
  Forall (fun y => key y <> NaN) l ->
  StronglySorted (key_le key) l ->
  StronglySorted (key_le key) (sort_insert (by_key key) x l).
Proof.
  unfold NaN. intros Hx Hl Hs. induction Hs as [| y l Hs IH Hy]; simpl.
  - constructor; constructor.
  - inversion Hl as [| ? ? Hky Hl']. subst.
    destruct (key x) as [tx |] eqn:Ex; [| congruence].
    destruct (key y) as [ty |] eqn:Ey; [| congruence].
    unfold comes_after, by_key. rewrite Ex, Ey. simpl.
    destruct (Z.ltb_spec 0 (tx - ty)).
    + constructor; [apply IH; assumption |].
      eapply Permutation_Forall;
        [apply Permutation_sym, (sort_insert_perm (by_key key)) |].
      constructor; [| exact Hy].
      exists ty, tx. repeat split; auto. lia.
    + assert (Hxy : key_le key x y) by (exists tx, ty; repeat split; auto; lia).
      constructor; [constructor; assumption |].
      constructor; [exact Hxy |].
      eapply Forall_impl; [| exact Hy].
      intros z Hz. eapply key_le_trans; eassumption.
Qed.

(** Where every key is a number, the sorted array is in ascending order
    of the keys. *)
Lemma Array_sort_sorted l :
  Forall (fun y => key y <> NaN) l ->
  StronglySorted (key_le key) (Array_sort (by_key key) l).
Proof.
  induction l as [| x l IH]; simpl; intros H.
  - constructor.
  - inversion H. subst. apply sort_insert_sorted; auto.
    eapply Permutation_Forall; [apply Permutation_sym, Array_sort_perm | assumption].
Qed.

End ArraySortFacts.

Lemma StronglySorted_map_in {A B} (R : A -> A -> Prop) (R' : B -> B -> Prop)
    (f : A -> B) l :
  (forall x y, In x l -> In y l -> R x y -> R' (f x) (f y)) ->
  StronglySorted R l -> StronglySorted R' (map f l).
Proof.
  intros H Hs. induction Hs as [| x l Hs IH Hx]; simpl.
  - constructor.
  - constructor.
    + apply IH. intros a b Ha Hb. apply H; right; assumption.
    + apply Forall_forall. intros b Hb.
      apply in_map_iff in Hb. destruct Hb as (a & <- & Ha).
      apply H; [left; reflexivity | right; exact Ha |].
      rewrite Forall_forall in Hx. exact (Hx a Ha).
Qed.

(* ================================================================= *)
(** ** Binary64 arithmetic *)

(** *** Digits and shifts *)

Lemma digits2_pos_bounds p :
  2 ^ (Zpos (digits2_pos p) - 1) <= Zpos p < 2 ^ Zpos (digits2_pos p).
Proof.
  induction p as [p IH | p IH |]; simpl digits2_pos.
  - rewrite Pos2Z.inj_succ.
    replace (Z.succ (Zpos (digits2_pos p)) - 1) with (Zpos (digits2_pos p)) by lia.
    rewrite Z.pow_succ_r by lia.
    replace (Zpos (digits2_pos p)) with (Z.succ (Zpos (digits2_pos p) - 1)) at 1 by lia.
    rewrite Z.pow_succ_r by lia. lia.
  - rewrite Pos2Z.inj_succ.
    replace (Z.succ (Zpos (digits2_pos p)) - 1) with (Zpos (digits2_pos p)) by lia.
    rewrite Z.pow_succ_r by lia.
    replace (Zpos (digits2_pos p)) with (Z.succ (Zpos (digits2_pos p) - 1)) at 1 by lia.
    rewrite Z.pow_succ_r by lia. lia.
  - simpl. lia.
Qed.

Lemma digits2_pos_unique p d :
  2 ^ (d - 1) <= Zpos p < 2 ^ d -> Zpos (digits2_pos p) = d.
Proof.
  intros [Hlo Hhi]. pose proof (digits2_pos_bounds p) as [Blo Bhi].
  assert (Hd : 0 < d).
  { destruct (Z.ltb_spec 0 d); [assumption |].
    assert (2 ^ d <= 1).
    { destruct (Z.eq_dec d 0) as [-> | Hn]; [simpl; lia |].
      rewrite Z.pow_neg_r by lia. lia. }
    lia. }
  set (d' := Zpos (digits2_pos p)) in *.
  assert (Hd' : 0 < d') by (unfold d'; lia).
  destruct (Z.lt_trichotomy d' d) as [Hlt | [Heq | Hgt]]; [| exact Heq |].
  - assert (2 ^ d' <= 2 ^ (d - 1)) by (apply Z.pow_le_mono_r; lia). lia.
  - assert (2 ^ d <= 2 ^ (d' - 1)) by (apply Z.pow_le_mono_r; lia). lia.
Qed.

Lemma iter_xO_pow p k : Zpos (Pos.iter xO p k) = Zpos p * 2 ^ Zpos k.
Proof.
  induction k as [| k IH] using Pos.peano_ind.
  - simpl. lia.
  - rewrite Pos.iter_succ, Pos2Z.inj_succ, Z.pow_succ_r by lia.
    rewrite Pos2Z.inj_xO, IH. lia.
Qed.

Lemma shr_1_m mrs : 0 <= shr_m mrs -> shr_m (shr_1 mrs) = shr_m mrs / 2.
Proof.
  destruct mrs as [m r s]. simpl. intros Hm.
  destruct m as [| p | p]; [reflexivity | | lia].
  destruct p as [p | p |]; simpl.
  - rewrite Pos2Z.inj_xI. apply Z.div_unique with 1; lia.
  - rewrite Pos2Z.inj_xO. apply Z.div_unique with 0; lia.
  - reflexivity.
Qed.

Lemma pow2_xO n : 2 ^ Zpos n~0 = 2 ^ Zpos n * 2 ^ Zpos n.
Proof.
  replace (Zpos n~0) with (Zpos n + Zpos n) by lia. apply Z.pow_add_r; lia.
Qed.

Lemma pow2_xI n : 2 ^ Zpos n~1 = 2 * (2 ^ Zpos n * 2 ^ Zpos n).
Proof.
  replace (Zpos n~1) with (Z.succ (Zpos n + Zpos n)) by lia.
  rewrite Z.pow_succ_r, Z.pow_add_r by lia. reflexivity.
Qed.

Lemma iter_shr_1_m n : forall mrs,
  0 <= shr_m mrs -> shr_m (iter_pos shr_1 n mrs) = shr_m mrs / 2 ^ Zpos n.
Proof.
  assert (Hnn : forall mrs, 0 <= shr_m mrs -> 0 <= shr_m (shr_1 mrs)).
  { intros mrs H. rewrite shr_1_m by assumption. apply Z.div_pos; lia. }
  assert (Hp : forall k, 0 < 2 ^ Zpos k) by (intros; apply Z.pow_pos_nonneg; lia).
  induction n as [n IH | n IH |]; intros mrs Hm; simpl iter_pos.
  - assert (H1 : 0 <= shr_m (iter_pos shr_1 n (shr_1 mrs))).
    { rewrite IH by auto. apply Z.div_pos; auto. }
    rewrite IH, IH, shr_1_m by auto.
    pose proof (Hp n).
    rewrite !Z.div_div by lia. rewrite pow2_xI. f_equal.
  - assert (H1 : 0 <= shr_m (iter_pos shr_1 n mrs)).
    { rewrite IH by auto. apply Z.div_pos; auto. }
    rewrite IH, IH by auto.
    pose proof (Hp n).
    rewrite !Z.div_div by lia. rewrite pow2_xO. reflexivity.
  - rewrite shr_1_m by auto. reflexivity.
Qed.

(** *** Rounding to 53 digits *)

Lemma fexp_normal x : -1021 <= x -> fexp prec emax x = x - 53.
Proof. unfold fexp, emin, prec, emax. lia. Qed.

Lemma shr_m_of_loc m l : shr_m (shr_record_of_loc m l) = m.
Proof. destruct l as [| []]; reflexivity. Qed.

(** The first step of rounding: the mantissa is cut down to 53 digits. *)
Lemma shr_fexp_spec p e l :
  let d := Zpos (digits2_pos p) in
  53 <= d -> -1074 <= e + (d - 53) ->
  exists mrs,
    shr_fexp prec emax (Zpos p) e l = (mrs, e + (d - 53)) /\
    shr_m mrs = Zpos p / 2 ^ (d - 53).
Proof.
  intros d Hd He. unfold shr_fexp. simpl Zdigits2. fold d.
  rewrite fexp_normal by lia.
  replace (d + e - 53 - e) with (d - 53) by lia.
  destruct (d - 53) as [| k | k] eqn:Ek; [| | lia].
  - exists (shr_record_of_loc (Zpos p) l). simpl. rewrite Z.add_0_r.
    split; [reflexivity |]. rewrite shr_m_of_loc, Z.div_1_r. reflexivity.
  - exists (iter_pos shr_1 k (shr_record_of_loc (Zpos p) l)). simpl shr.
    split; [reflexivity |].
    rewrite iter_shr_1_m; rewrite shr_m_of_loc; [reflexivity | lia].
Qed.

Lemma round_nearest_even_bounds m l :
  m <= round_nearest_even m l <= m + 1.
Proof.
  destruct l as [| []]; simpl; try lia. destruct (Z.even m); lia.
Qed.

Lemma top53 p n :
  0 <= n -> Zpos (digits2_pos p) = n + 53 ->
  2 ^ 52 <= Zpos p / 2 ^ n < 2 ^ 53.
Proof.
  intros Hn Hd. pose proof (digits2_pos_bounds p) as [Hlo Hhi]. rewrite Hd in *.
  assert (Hpn : 0 < 2 ^ n) by (apply Z.pow_pos_nonneg; lia).
  replace (n + 53 - 1) with (52 + n) in Hlo by lia.
  replace (n + 53) with (53 + n) in Hhi by lia.
  rewrite Z.pow_add_r in Hlo, Hhi by lia.
  split.
  - apply Z.div_le_lower_bound; lia.
  - apply Z.div_lt_upper_bound; lia.
Qed.

(** Rounding a mantissa of at least 53 digits: the result has exactly 53
    digits and lies within one unit of the cut. *)
Lemma binary_round_aux_bounds p e l :
  let d := Zpos (digits2_pos p) in
  let n := d - 53 in
  53 <= d -> -1074 <= e + n -> e + n + 1 <= 971 ->
  exists m2 e2,
    binary_round_aux prec emax false (Zpos p) e l = S754_finite false m2 e2 /\
    Zpos (digits2_pos m2) = 53 /\
    (e2 = e + n \/ e2 = e + n + 1) /\
    Zpos p / 2 ^ n * 2 ^ n <= Zpos m2 * 2 ^ (e2 - e) <= (Zpos p / 2 ^ n + 1) * 2 ^ n.
Proof.
  intros d n Hd Hlo Hhi.
  destruct (shr_fexp_spec p e l Hd Hlo) as (mrs & E1 & Hm1).
  fold d in E1, Hm1. fold n in E1, Hm1.
  pose proof (top53 p n ltac:(lia) ltac:(unfold n; lia)) as Htop.
  unfold binary_round_aux. rewrite E1.
  pose proof (round_nearest_even_bounds (shr_m mrs) (loc_of_shr_record mrs)) as Hr.
  set (mr := round_nearest_even (shr_m mrs) (loc_of_shr_record mrs)) in *.
  rewrite Hm1 in Hr.
  assert (Hpn : 0 < 2 ^ n) by (apply Z.pow_pos_nonneg; lia).
  destruct mr as [| pr | pr] eqn:Emr; [lia | | lia].
  destruct (Z.ltb_spec (Zpos pr) (2 ^ 53)) as [Hlt | Hge].
  - (* no overflow of the mantissa *)
    assert (Hdr : Zpos (digits2_pos pr) = 53) by (apply digits2_pos_unique; lia).
    destruct (shr_fexp_spec pr (e + n) loc_Exact) as (mrs2 & E2 & Hm2);
      [lia | lia |].
    rewrite Hdr in E2, Hm2. simpl in E2, Hm2. rewrite Z.add_0_r in E2.
    rewrite Z.div_1_r in Hm2. rewrite E2, Hm2.
    replace (e + n <=? emax - prec) with true
      by (symmetry; apply Z.leb_le; unfold emax, prec; lia).
    exists pr, (e + n). split; [reflexivity |]. split; [exact Hdr |].
    split; [left; reflexivity |].
    replace (e + n - e) with n by lia. nia.
  - (* the mantissa reached 2^53 *)
    assert (Hpr : Zpos pr = 2 ^ 53) by lia.
    assert (Hdr : Zpos (digits2_pos pr) = 54) by (apply digits2_pos_unique; lia).
    destruct (shr_fexp_spec pr (e + n) loc_Exact) as (mrs2 & E2 & Hm2);
      [lia | lia |].
    rewrite Hdr in E2, Hm2. simpl in E2, Hm2.
    rewrite E2, Hm2, Hpr.
    change (2 ^ 53 / 2) with (Zpos (2 ^ 52)%positive).
    replace (e + n + 1 <=? emax - prec) with true
      by (symmetry; apply Z.leb_le; unfold emax, prec; lia).
    exists (2 ^ 52)%positive, (e + n + 1). split; [reflexivity |].
    split; [reflexivity |]. split; [right; reflexivity |].
    replace (e + n + 1 - e) with (Z.succ n) by lia.
    rewrite Z.pow_succ_r by lia.
    change (Zpos (2 ^ 52)%positive) with (2 ^ 52).
    assert (Zpos p / 2 ^ n + 1 = 2 ^ 53) by lia.
    change (2 ^ 53) with (2 ^ 52 * 2) in *. nia.
Qed.

(** A mantissa of exactly 53 digits with nothing to round is kept. *)
Lemma binary_round_aux_exact s p e :
  Zpos (digits2_pos p) = 53 -> -1074 <= e <= 971 ->
  binary_round_aux prec emax s (Zpos p) e loc_Exact = S754_finite s p e.
Proof.
  intros Hd He.
  destruct (shr_fexp_spec p e loc_Exact) as (mrs & E1 & Hm1); [lia | lia |].
  rewrite Hd in E1, Hm1. simpl in E1, Hm1. rewrite Z.add_0_r in E1.
  rewrite Z.div_1_r in Hm1.
  unfold binary_round_aux. rewrite E1.
  assert (Hl : loc_of_shr_record mrs = loc_Exact).
  { unfold shr_fexp in E1. simpl Zdigits2 in E1. rewrite Hd in E1.
    rewrite fexp_normal in E1 by lia.
    replace (53 + e - 53 - e) with 0 in E1 by lia. simpl in E1.
    inversion E1. reflexivity. }
  rewrite Hl, Hm1. cbn [round_nearest_even]. rewrite E1, Hm1.
  replace (e <=? emax - prec) with true
    by (symmetry; apply Z.leb_le; unfold emax, prec; lia).
  reflexivity.
Qed.

(** *** The operations of the completion rate *)

(** The double of a positive integer below 2^53 is that integer, with its
    mantissa shifted up to 53 digits. *)
Lemma of_int_pos z :
  0 < z < 2 ^ 53 ->
  exists m e,
    of_int z = S754_finite false m e /\
    Zpos (digits2_pos m) = 53 /\
    -52 <= e <= 0 /\
    Zpos m = z * 2 ^ (- e).
Proof.
  intros [Hz0 Hz]. destruct z as [| p | p]; try lia.
  pose proof (digits2_pos_bounds p) as [Hlo Hhi].
  set (d := Zpos (digits2_pos p)) in *.
  assert (Hd : 1 <= d <= 53).
  { split; [unfold d; lia |].
    destruct (Z.leb_spec d 53); [assumption |].
    assert (2 ^ 53 <= 2 ^ (d - 1)) by (apply Z.pow_le_mono_r; lia). lia. }
  unfold of_int, binary_normalize, binary_round. fold d.
  rewrite Z.add_0_r, fexp_normal by lia. unfold shl_align.
  destruct (d - 53 - 0) as [| k | k] eqn:Ek; [| lia |].
  - assert (d = 53) by lia.
    rewrite binary_round_aux_exact by (fold d; lia).
    exists p, 0. repeat split; lia.
  - assert (Hk : Zpos k = 53 - d) by lia.
    assert (Hm : Zpos (Pos.iter xO p k) = Zpos p * 2 ^ (53 - d))
      by (rewrite iter_xO_pow, Hk; reflexivity).
    assert (Hdm : Zpos (digits2_pos (Pos.iter xO p k)) = 53).
    { apply digits2_pos_unique. rewrite Hm.
      assert (Hp : 0 < 2 ^ (53 - d)) by (apply Z.pow_pos_nonneg; lia).
      replace (2 ^ (53 - 1)) with (2 ^ (d - 1) * 2 ^ (53 - d))
        by (rewrite <- Z.pow_add_r by lia; f_equal; lia).
      replace (2 ^ 53) with (2 ^ d * 2 ^ (53 - d))
        by (rewrite <- Z.pow_add_r by lia; f_equal; lia).
      nia. }
    rewrite binary_round_aux_exact by (assumption || lia).
    exists (Pos.iter xO p k), (d - 53). repeat split; try lia; try assumption.
    rewrite Hm. f_equal. f_equal. lia.
Qed.

(** The quotient of two doubles with full mantissas: within two units of
    the last place of the exact quotient. *)
Lemma float_div_bounds mc ec mt et :
  Zpos (digits2_pos mc) = 53 -> Zpos (digits2_pos mt) = 53 ->
  -52 <= ec <= 0 -> -52 <= et <= 0 ->
  exists m2 e2,
    float_div (S754_finite false mc ec) (S754_finite false mt et) =
      S754_finite false m2 e2 /\
    Zpos (digits2_pos m2) = 53 /\
    ec - et - 53 <= e2 <= ec - et - 51 /\
    Zpos mc * 2 ^ 53 / Zpos mt - 1
      <= Zpos m2 * 2 ^ (e2 - (ec - et - 53))
      <= Zpos mc * 2 ^ 53 / Zpos mt + 2.
Proof.
  intros Hdc Hdt Hec Het.
  pose proof (digits2_pos_bounds mc) as Bc. pose proof (digits2_pos_bounds mt) as Bt.
  rewrite Hdc in Bc. rewrite Hdt in Bt.
  change (2 ^ (53 - 1)) with (2 ^ 52) in *.
  unfold float_div, SFdiv, SFdiv_core_binary. simpl Zdigits2. rewrite Hdc, Hdt.
  replace (53 + ec - (53 + et)) with (ec - et) by lia.
  rewrite fexp_normal by lia.
  replace (Z.min (ec - et - 53) (ec - et)) with (ec - et - 53) by lia.
  replace (ec - et - (ec - et - 53)) with 53 by lia.
  cbv iota. rewrite Z.shiftl_mul_pow2 by lia.
  set (a := Zpos mc * 2 ^ 53).
  assert (Hq : a / Zpos mt = fst (Z.div_eucl a (Zpos mt))) by reflexivity.
  destruct (Z.div_eucl a (Zpos mt)) as [q r] eqn:E. simpl in Hq. subst q.
  assert (Hqlo : 2 ^ 52 <= a / Zpos mt).
  { apply Z.div_le_lower_bound; [lia |]. unfold a.
    change (2 ^ 53) with (2 ^ 52 * 2) in *. nia. }
  assert (Hqhi : a / Zpos mt < 2 ^ 54).
  { apply Z.div_lt_upper_bound; [lia |]. unfold a.
    change (2 ^ 54) with (2 ^ 53 * 2). nia. }
  destruct (a / Zpos mt) as [| pq | pq] eqn:Eq; try lia.
  destruct (Z.ltb_spec (Zpos pq) (2 ^ 53)) as [Hlt | Hge].
  - assert (Hdq : Zpos (digits2_pos pq) = 53) by (apply digits2_pos_unique; lia).
    destruct (binary_round_aux_bounds pq (ec - et - 53) (new_location (Zpos mt) r))
      as (m2 & e2 & Er & Hd2 & He2 & Hb); try (rewrite Hdq; lia).
    rewrite Hdq in He2, Hb. change (53 - 53) with 0 in He2, Hb.
    change (2 ^ 0) with 1 in Hb. rewrite Z.div_1_r in Hb.
    exists m2, e2. split; [exact Er |]. split; [exact Hd2 |]. lia.
  - assert (Hdq : Zpos (digits2_pos pq) = 54) by (apply digits2_pos_unique; lia).
    destruct (binary_round_aux_bounds pq (ec - et - 53) (new_location (Zpos mt) r))
      as (m2 & e2 & Er & Hd2 & He2 & Hb); try (rewrite Hdq; lia).
    rewrite Hdq in He2, Hb. change (54 - 53) with 1 in He2, Hb.
    change (2 ^ 1) with 2 in Hb.
    pose proof (Z.div_mod (Zpos pq) 2 ltac:(lia)).
    pose proof (Z.mod_pos_bound (Zpos pq) 2 ltac:(lia)).
    exists m2, e2. split; [exact Er |]. split; [exact Hd2 |]. lia.
Qed.

(** The product of two doubles with full mantissas: within one unit of the
    last place of the exact product. *)
Lemma float_mul_bounds mx ex my ey :
  Zpos (digits2_pos mx) = 53 -> Zpos (digits2_pos my) = 53 ->
  -1000 <= ex + ey <= 800 ->
  exists m3 e3 n,
    float_mul (S754_finite false mx ex) (S754_finite false my ey) =
      S754_finite false m3 e3 /\
    Zpos (digits2_pos m3) = 53 /\
    52 <= n <= 53 /\
    ex + ey + n <= e3 <= ex + ey + n + 1 /\
    2 ^ n * 2 ^ 52 <= Zpos mx * Zpos my /\
    Zpos mx * Zpos my - 2 ^ n
      <= Zpos m3 * 2 ^ (e3 - (ex + ey))
      <= Zpos mx * Zpos my + 2 ^ n.
Proof.
  intros Hdx Hdy He.
  pose proof (digits2_pos_bounds mx) as Bx. pose proof (digits2_pos_bounds my) as By.
  rewrite Hdx in Bx. rewrite Hdy in By.
  change (2 ^ (53 - 1)) with (2 ^ 52) in *.
  unfold float_mul, SFmul. simpl xorb.
  pose proof (digits2_pos_bounds (mx * my)) as Bp.
  set (d := Zpos (digits2_pos (mx * my))) in *.
  rewrite Pos2Z.inj_mul in Bp.
  assert (Hplo : 2 ^ 104 <= Zpos mx * Zpos my)
    by (change (2 ^ 104) with (2 ^ 52 * 2 ^ 52); nia).
  assert (Hphi : Zpos mx * Zpos my < 2 ^ 106)
    by (change (2 ^ 106) with (2 ^ 53 * 2 ^ 53); nia).
  assert (Hd : 105 <= d <= 106).
  { split.
    - destruct (Z.leb_spec 105 d); [assumption |].
      assert (2 ^ d <= 2 ^ 104) by (apply Z.pow_le_mono_r; lia). lia.
    - destruct (Z.leb_spec d 106); [assumption |].
      assert (2 ^ 106 <= 2 ^ (d - 1)) by (apply Z.pow_le_mono_r; lia). lia. }
  destruct (binary_round_aux_bounds (mx * my) (ex + ey) loc_Exact)
    as (m3 & e3 & Er & Hd3 & He3 & Hb); fold d; try lia.
  fold d in He3, Hb. rewrite Pos2Z.inj_mul in Hb.
  exists m3, e3, (d - 53). split; [exact Er |]. split; [exact Hd3 |].
  split; [lia |]. split; [lia |].
  assert (Hpn : 0 < 2 ^ (d - 53)) by (apply Z.pow_pos_nonneg; lia).
  split.
  - rewrite <- Z.pow_add_r by lia. replace (d - 53 + 52) with (d - 1) by lia. lia.
  - pose proof (Z.div_mod (Zpos mx * Zpos my) (2 ^ (d - 53)) ltac:(lia)).
    pose proof (Z.mod_pos_bound (Zpos mx * Zpos my) (2 ^ (d - 53)) ltac:(lia)).
    nia.
Qed.

(** [Math.round] of a positive double with a fraction: the floor of the
    value plus one half. *)
Lemma Math_round_fraction m p :
  Math_round (S754_finite false m (Zneg p)) =
    of_int ((2 * Zpos m + 2 ^ Zpos p) / (2 * 2 ^ Zpos p)).
Proof.
  unfold Math_round. rewrite !Pos2Z.inj_pow.
  change (Zpos 2) with 2.
  destruct ((2 * Zpos m + 2 ^ Zpos p) / (2 * 2 ^ Zpos p)); reflexivity.
Qed.

(** *** From the double to the percentage *)

(** Rounding a value that is close enough to [100 * c / t]. *)
Lemma nearest_percent_of_close m X c t :
  0 < X -> 0 < t -> 0 <= c <= t ->
  2 * Z.abs (m * t - 100 * c * X) < X ->
  nearest_percent c t ((2 * m + X) / (2 * X)).
Proof.
  intros HX Ht Hc Hclose.
  set (n := (2 * m + X) / (2 * X)).
  assert (Hn : 2 * X * n <= 2 * m + X < 2 * X * (n + 1)).
  { pose proof (Z.div_mod (2 * m + X) (2 * X) ltac:(lia)).
    pose proof (Z.mod_pos_bound (2 * m + X) (2 * X) ltac:(lia)).
    fold n in H. lia. }
  assert (Hlo : 2 * n * t <= 200 * c + t).
  { assert (X * (2 * n * t) < X * (200 * c + t + 1)) by nia.
    assert (2 * n * t < 200 * c + t + 1) by (apply Z.mul_lt_mono_pos_l with X; lia).
    lia. }
  assert (Hhi : 200 * c + t <= 2 * (n + 1) * t).
  { assert (X * (200 * c + t - 1) < X * (2 * (n + 1) * t)) by nia.
    assert (200 * c + t - 1 < 2 * (n + 1) * t) by (apply Z.mul_lt_mono_pos_l with X; lia).
    lia. }
  unfold nearest_percent. split; [| split].
  - split; nia.
  - lia.
  - intros Hne. unfold round_percent.
    apply Z.div_unique with (200 * c + t - 2 * t * n).
    + left. split; [lia |].
      destruct (Z.eq_dec (200 * c + t) (2 * (n + 1) * t)) as [E | E]; [| lia].
      exfalso. apply Hne. rewrite E.
      replace (2 * (n + 1) * t) with ((n + 1) * (2 * t)) by ring.
      apply Z.mod_mul. lia.
    + ring.
Qed.

Lemma pow2_split a b : 0 <= a -> 0 <= b -> 2 ^ (a + b) = 2 ^ a * 2 ^ b.
Proof. intros. apply Z.pow_add_r; assumption. Qed.

Lemma pow2_pos a : 0 <= a -> 0 < 2 ^ a.
Proof. intros. apply Z.pow_pos_nonneg; lia. Qed.

Lemma pow2_gt a b : 0 <= a -> 2 ^ a < 2 ^ b -> a < b.
Proof.
  intros Ha H. destruct (Z.ltb_spec a b); [assumption |].
  destruct (Z.ltb_spec b 0).
  - rewrite (Z.pow_neg_r 2 b) in H by lia. pose proof (pow2_pos a Ha). lia.
  - assert (2 ^ b <= 2 ^ a) by (apply Z.pow_le_mono_r; lia). lia.
Qed.

Lemma quotient_within a b w :
  0 < b -> a / b - 1 <= w <= a / b + 2 -> Z.abs (w * b - a) <= 2 * b.
Proof.
  intros Hb Hw.
  pose proof (Z.div_mod a b ltac:(lia)) as Hdm.
  pose proof (Z.mod_pos_bound a b Hb) as Hmb.
  assert (H1 : (a / b - 1) * b <= w * b) by (apply Z.mul_le_mono_nonneg_r; lia).
  assert (H2 : w * b <= (a / b + 2) * b) by (apply Z.mul_le_mono_nonneg_r; lia).
  lia.
Qed.

Lemma cancel_scale v B T z :
  0 < B -> 0 < T -> Z.abs v * (B * T) <= 2 * (z * T) -> Z.abs v <= 2 * z.
Proof.
  intros HB HT H.
  assert (H1 : Z.abs v * (1 * T) <= Z.abs v * (B * T)).
  { apply Z.mul_le_mono_nonneg_l; [apply Z.abs_nonneg |].
    apply Z.mul_le_mono_nonneg_r; lia. }
  apply Z.mul_le_mono_pos_r with T; lia.
Qed.

Lemma scale_is_fine m z c E :
  2 ^ 52 <= m -> 0 < z -> 0 < c < 2 ^ 32 -> 0 < E ->
  Z.abs (m * z - c * E) <= 2 * z -> 656 * z < E.
Proof.
  intros Hm Hz Hc HE H.
  assert (H1 : 2 ^ 52 * z <= m * z) by (apply Z.mul_le_mono_nonneg_r; lia).
  assert (H2 : c * E <= (2 ^ 32 - 1) * E) by (apply Z.mul_le_mono_nonneg_r; lia).
  change (2 ^ 52) with 4503599627370496 in H1.
  change (2 ^ 32) with 4294967296 in H2. lia.
Qed.

(** The completion rate of [c] out of [t], for lists as long as an array
    can be. *)
Lemma completion_rate_general (c t : nat) :
  (c <= t)%nat -> (0 < t)%nat -> Z.of_nat t < 2 ^ 32 ->
  exists r, completion_rate c t = of_int r /\
            nearest_percent (Z.of_nat c) (Z.of_nat t) r.
Proof.
  intros Hct Ht0 Ht. unfold completion_rate.
  set (zc := Z.of_nat c). set (zt := Z.of_nat t) in *.
  assert (Hzt : 0 < zt) by (unfold zt; lia).
  assert (Hzc : 0 <= zc <= zt) by (unfold zc, zt; lia).
  destruct (of_int_pos zt) as (mt & et & Et & Hdt & Het & Hmt);
    [change (2 ^ 53) with (2 ^ 32 * 2 ^ 21); lia |].
  change (of_int 100) with (S754_finite false 7036874417766400 (-46)).
  destruct (Z.eq_dec zc 0) as [Hc0 | Hc0].
  - (* nothing completed *)
    rewrite Hc0, Et. exists 0. split; [reflexivity |].
    unfold nearest_percent, round_percent. split; [lia |]. split; [lia |].
    intros _. symmetry. apply Z.div_small. lia.
  - destruct (of_int_pos zc) as (mc & ec & Ec & Hdc & Hec & Hmc);
      [change (2 ^ 53) with (2 ^ 32 * 2 ^ 21); lia |].
    rewrite Ec, Et.
    (* the exponents of numbers below 2^32 *)
    pose proof (digits2_pos_bounds mc) as Bc. rewrite Hdc in Bc.
    pose proof (digits2_pos_bounds mt) as Bt. rewrite Hdt in Bt.
    change (2 ^ (53 - 1)) with (2 ^ 52) in *.
    assert (Hec' : ec <= -21).
    { assert (2 ^ 20 < 2 ^ (- ec)).
      { change (2 ^ 52) with (2 ^ 32 * 2 ^ 20) in Bc.
        pose proof (pow2_pos (- ec) ltac:(lia)). nia. }
      apply pow2_gt in H; lia. }
    destruct (float_div_bounds mc ec mt et Hdc Hdt Hec Het)
      as (m2 & e2 & E2 & Hd2 & He2 & Hw2).
    rewrite E2.
    destruct (float_mul_bounds m2 e2 7036874417766400 (-46) Hd2 eq_refl)
      as (m3 & e3 & n & E3 & Hd3 & Hn & He3 & _ & Hw3); [lia |].
    rewrite E3.
    destruct e3 as [| p3 | p3]; [lia | lia |].
    rewrite Math_round_fraction.
    eexists. split; [reflexivity |].
    apply nearest_percent_of_close; try lia; try (apply pow2_pos; lia).
    (* the quotient is close to c / t *)
    pose proof (digits2_pos_bounds m2) as B2. rewrite Hd2 in B2.
    change (2 ^ (53 - 1)) with (2 ^ 52) in B2.
    set (E := 2 ^ (- e2)).
    set (B := 2 ^ (e2 - (ec - et - 53))) in *.
    set (Tt := 2 ^ (- et)) in *.
    assert (HE : 0 < E) by (apply pow2_pos; lia).
    assert (HB : 0 < B) by (apply pow2_pos; lia).
    assert (HTt : 0 < Tt) by (apply pow2_pos; lia).
    assert (Hpow : 2 ^ (- ec) * 2 ^ 53 = E * B * Tt).
    { unfold E, B, Tt. rewrite <- !pow2_split by lia. f_equal. lia. }
    assert (F1 : Z.abs (Zpos m2 * zt - zc * E) <= 2 * zt).
    { set (a := Zpos mc * 2 ^ 53) in *.
      assert (Ha : a = zc * E * (B * Tt)).
      { unfold a. rewrite Hmc, <- Z.mul_assoc, Hpow. ring. }
      pose proof (quotient_within a (Zpos mt) (Zpos m2 * B) ltac:(lia) Hw2) as Hdiff.
      rewrite Ha, Hmt in Hdiff.
      replace (Zpos m2 * B * (zt * Tt) - zc * E * (B * Tt))
        with ((Zpos m2 * zt - zc * E) * (B * Tt)) in Hdiff by ring.
      rewrite Z.abs_mul in Hdiff.
      rewrite (Z.abs_eq (B * Tt)) in Hdiff by (apply Z.lt_le_incl, Z.mul_pos_pos; lia).
      exact (cancel_scale _ B Tt zt HB HTt Hdiff). }
    (* the product is close to 100 times the quotient *)
    set (D := 2 ^ (Zneg p3 - (e2 + -46))) in *.
    set (X := 2 ^ Zpos p3).
    assert (HD : 0 < D) by (apply pow2_pos; lia).
    assert (HX : 0 < X) by (apply pow2_pos; lia).
    assert (HXD : X * D = 2 ^ 46 * E).
    { unfold X, D, E. rewrite <- !pow2_split by lia. f_equal. lia. }
    assert (Hn53 : 2 ^ n <= 2 ^ 53) by (apply Z.pow_le_mono_r; lia).
    assert (F2 : Z.abs (Zpos m3 * D - Zpos m2 * 7036874417766400) <= 2 ^ 53) by lia.
    (* the scale is fine enough *)
    assert (HEbig : 656 * zt < E)
      by (apply (scale_is_fine (Zpos m2) zt zc E); lia).
    assert (Hgoal : D * (2 * Z.abs (Zpos m3 * zt - 100 * zc * X)) < D * X).
    { rewrite (Z.mul_comm D X), HXD.
      replace (D * (2 * Z.abs (Zpos m3 * zt - 100 * zc * X)))
        with (2 * Z.abs (D * (Zpos m3 * zt - 100 * zc * X)))
        by (rewrite Z.abs_mul, (Z.abs_eq D) by lia; ring).
      replace (D * (Zpos m3 * zt - 100 * zc * X))
        with ((Zpos m3 * D - Zpos m2 * 7036874417766400) * zt
              + 7036874417766400 * (Zpos m2 * zt - zc * E))
        by (replace (D * (Zpos m3 * zt - 100 * zc * X))
              with (Zpos m3 * D * zt - 100 * zc * (X * D)) by ring;
            rewrite HXD; change (2 ^ 46) with 70368744177664; ring).
      change (2 ^ 46) with 70368744177664. change (2 ^ 53) with 9007199254740992 in F2.
      set (u := Zpos m3 * D - Zpos m2 * 7036874417766400) in *.
      set (v := Zpos m2 * zt - zc * E) in *.
      assert (Hu : Z.abs (u * zt) <= 9007199254740992 * zt).
      { rewrite Z.abs_mul, (Z.abs_eq zt) by lia.
        apply Z.mul_le_mono_nonneg_r; lia. }
      assert (Hv : Z.abs (7036874417766400 * v) <= 7036874417766400 * (2 * zt)).
      { rewrite Z.abs_mul. change (Z.abs 7036874417766400) with 7036874417766400.
        apply Z.mul_le_mono_nonneg_l; lia. }
      pose proof (Z.abs_triangle (u * zt) (7036874417766400 * v)). lia. }
    apply Z.mul_lt_mono_pos_l in Hgoal; [exact Hgoal | exact HD].
Qed.

(** *** Shifts that lose nothing *)

Lemma divide_split a b m :
  0 < a -> 0 < b -> (a * b | m) -> (a | m) /\ (b | m / a).
Proof.
  intros Ha Hb (k & ->). split.
  - exists (k * b). ring.
  - exists k. replace (k * (a * b)) with (k * b * a) by ring.
    rewrite Z.div_mul by lia. reflexivity.
Qed.

Lemma shr_1_even m :
  0 <= m -> (2 | m) ->
  shr_1 {| shr_m := m; shr_r := false; shr_s := false |} =
    {| shr_m := m / 2; shr_r := false; shr_s := false |}.
Proof.
  intros Hm (k & Hk). destruct m as [| p | p]; [reflexivity | | lia].
  destruct p as [p | p |]; [lia | | lia].
  cbn [shr_1 orb]. f_equal. rewrite Pos2Z.inj_xO, Z.mul_comm, Z.div_mul by lia.
  reflexivity.
Qed.

Lemma iter_shr_1_even n : forall m,
  0 <= m -> (2 ^ Zpos n | m) ->
  iter_pos shr_1 n {| shr_m := m; shr_r := false; shr_s := false |} =
    {| shr_m := m / 2 ^ Zpos n; shr_r := false; shr_s := false |}.
Proof.
  assert (Hp : forall k, 0 < 2 ^ Zpos k) by (intros; apply Z.pow_pos_nonneg; lia).
  induction n as [n IH | n IH |]; intros m Hm Hd; cbn [iter_pos].
  - rewrite pow2_xI in Hd.
    replace (2 * (2 ^ Zpos n * 2 ^ Zpos n)) with (2 * (2 ^ Zpos n * 2 ^ Zpos n)) in Hd by ring.
    pose proof (Hp n) as Hn.
    destruct (divide_split 2 (2 ^ Zpos n * 2 ^ Zpos n) m ltac:(lia) ltac:(nia) Hd)
      as [H2 Hrest].
    destruct (divide_split (2 ^ Zpos n) (2 ^ Zpos n) (m / 2) Hn Hn Hrest) as [Ha Hb].
    rewrite shr_1_even by assumption.
    rewrite IH; [| apply Z.div_pos; lia | exact Ha].
    rewrite IH; [| apply Z.div_pos; [apply Z.div_pos; lia | lia] | exact Hb].
    rewrite pow2_xI, !Z.div_div by nia. reflexivity.
  - rewrite pow2_xO in Hd. pose proof (Hp n) as Hn.
    destruct (divide_split (2 ^ Zpos n) (2 ^ Zpos n) m Hn Hn Hd) as [Ha Hb].
    rewrite IH; [| lia | exact Ha].
    rewrite IH; [| apply Z.div_pos; lia | exact Hb].
    rewrite pow2_xO, !Z.div_div by nia. reflexivity.
  - apply shr_1_even; assumption.
Qed.

Lemma shr_fexp_53 m e l :
  Zpos (digits2_pos m) = 53 -> -1074 <= e ->
  shr_fexp prec emax (Zpos m) e l = (shr_record_of_loc (Zpos m) l, e).
Proof.
  intros Hd He. unfold shr_fexp. simpl Zdigits2. rewrite Hd.
  rewrite fexp_normal by lia. replace (53 + e - 53 - e) with 0 by lia. reflexivity.
Qed.

(** Rounding a mantissa whose digits beyond the 53rd are all zero: the
    mantissa is shifted, nothing is lost. *)
Lemma binary_round_aux_shifted s p e :
  let d := Zpos (digits2_pos p) in
  let n := d - 53 in
  53 <= d -> (2 ^ n | Zpos p) -> -1074 <= e + n <= 971 ->
  exists m,
    binary_round_aux prec emax s (Zpos p) e loc_Exact = S754_finite s m (e + n) /\
    Zpos (digits2_pos m) = 53 /\
    Zpos m * 2 ^ n = Zpos p.
Proof.
  intros d n Hd Hdiv He.
  pose proof (top53 p n ltac:(lia) ltac:(unfold n; lia)) as Htop.
  assert (Hpn : 0 < 2 ^ n) by (apply Z.pow_pos_nonneg; lia).
  assert (E1 : shr_fexp prec emax (Zpos p) e loc_Exact =
               ({| shr_m := Zpos p / 2 ^ n; shr_r := false; shr_s := false |}, e + n)).
  { unfold shr_fexp. simpl Zdigits2. fold d. rewrite fexp_normal by lia.
    replace (d + e - 53 - e) with n by (unfold n; lia).
    destruct n as [| k | k] eqn:En; [| | lia].
    - simpl. rewrite Z.div_1_r, Z.add_0_r. reflexivity.
    - simpl shr. rewrite iter_shr_1_even by (lia || assumption). reflexivity. }
  destruct (Zpos p / 2 ^ n) as [| m | m] eqn:Em; [lia | | lia].
  assert (Hdm : Zpos (digits2_pos m) = 53) by (apply digits2_pos_unique; lia).
  exists m. split; [| split; [exact Hdm |]].
  - unfold binary_round_aux. rewrite E1. cbn [shr_m loc_of_shr_record round_nearest_even].
    rewrite shr_fexp_53 by (assumption || lia). cbn [shr_record_of_loc shr_m].
    replace (e + n <=? emax - prec) with true
      by (symmetry; apply Z.leb_le; unfold emax, prec; lia).
    reflexivity.
  - destruct Hdiv as (k & Hk). rewrite Hk in Em. rewrite Z.div_mul in Em by lia.
    rewrite Hk, <- Em. reflexivity.
Qed.

(** *** Integers as doubles *)

Lemma digits2_pos_scaled q p k :
  Zpos q = Zpos p * 2 ^ k -> 0 <= k ->
  Zpos (digits2_pos q) = Zpos (digits2_pos p) + k.
Proof.
  intros Hq Hk. pose proof (digits2_pos_bounds p) as [Hlo Hhi].
  assert (Hpk : 0 < 2 ^ k) by (apply Z.pow_pos_nonneg; lia).
  apply digits2_pos_unique. rewrite Hq.
  replace (Zpos (digits2_pos p) + k - 1) with (Zpos (digits2_pos p) - 1 + k) by lia.
  rewrite !Z.pow_add_r by lia. split.
  - apply Z.mul_le_mono_nonneg_r; lia.
  - apply Z.mul_lt_mono_pos_r; lia.
Qed.

Lemma digits2_pos_le_53 p : Zpos p < 2 ^ 53 -> 1 <= Zpos (digits2_pos p) <= 53.
Proof.
  intros Hp. pose proof (digits2_pos_bounds p) as [Hlo Hhi]. split; [lia |].
  destruct (Z.leb_spec (Zpos (digits2_pos p)) 53); [assumption |].
  assert (2 ^ 53 <= 2 ^ (Zpos (digits2_pos p) - 1)) by (apply Z.pow_le_mono_r; lia). lia.
Qed.

(** Rounding [p * 2^k * 2^(-k)] where [p] fits in 53 digits and the
    mantissa handed over has at least 53: the double of [p]. *)
Lemma binary_round_aux_scaled s q p k :
  Zpos q = Zpos p * 2 ^ k -> Zpos p < 2 ^ 53 -> 2 ^ 52 <= Zpos q -> 0 <= k <= 1000 ->
  exists m e,
    binary_round_aux prec emax s (Zpos q) (- k) loc_Exact = S754_finite s m e /\
    Zpos (digits2_pos m) = 53 /\ -52 <= e <= 0 /\ Zpos m = Zpos p * 2 ^ (- e).
Proof.
  intros Hq Hp Hbig Hk.
  pose proof (digits2_pos_scaled q p k Hq ltac:(lia)) as Hd.
  pose proof (digits2_pos_le_53 p Hp) as Hdp.
  pose proof (digits2_pos_bounds q) as [_ Hqhi].
  set (dp := Zpos (digits2_pos p)) in *.
  assert (Hdq : 53 <= Zpos (digits2_pos q)).
  { destruct (Z.leb_spec 53 (Zpos (digits2_pos q))); [assumption |].
    assert (2 ^ Zpos (digits2_pos q) <= 2 ^ 52) by (apply Z.pow_le_mono_r; lia). lia. }
  set (n := Zpos (digits2_pos q) - 53).
  assert (Hn : 0 <= n <= k) by (unfold n; lia).
  assert (Hdiv : (2 ^ n | Zpos q)).
  { exists (Zpos p * 2 ^ (k - n)). rewrite Hq, <- Z.mul_assoc, <- Z.pow_add_r by lia.
    f_equal. f_equal. lia. }
  destruct (binary_round_aux_shifted s q (- k) Hdq Hdiv) as (m & E & Hdm & Hm);
    [fold n; lia |].
  fold n in E, Hm.
  exists m, (- k + n). split; [exact E |]. split; [exact Hdm |].
  split; [unfold n; lia |].
  assert (Hpn : 0 < 2 ^ n) by (apply Z.pow_pos_nonneg; lia).
  apply Z.mul_reg_r with (2 ^ n); [lia |].
  rewrite Hm, Hq, <- Z.mul_assoc, <- Z.pow_add_r by lia.
  f_equal. f_equal. lia.
Qed.

Lemma shl_align_fst m e e' :
  e' <= e -> Zpos (fst (shl_align m e e')) = Zpos m * 2 ^ (e - e') /\
             snd (shl_align m e e') = e'.
Proof.
  intros H. unfold shl_align. destruct (e' - e) as [| d | d] eqn:E.
  - replace (e - e') with 0 by lia. cbn [fst snd]. rewrite Z.pow_0_r. split; lia.
  - lia.
  - cbn [fst snd]. rewrite iter_xO_pow. replace (e - e') with (Zpos d) by lia.
    split; reflexivity.
Qed.

(** The same for a mantissa of any length. *)
Lemma binary_round_scaled s q p k :
  Zpos q = Zpos p * 2 ^ k -> Zpos p < 2 ^ 53 -> 0 <= k <= 1000 ->
  exists m e,
    binary_round prec emax s q (- k) = S754_finite s m e /\
    Zpos (digits2_pos m) = 53 /\ -52 <= e <= 0 /\ Zpos m = Zpos p * 2 ^ (- e).
Proof.
  intros Hq Hp Hk.
  pose proof (digits2_pos_scaled q p k Hq ltac:(lia)) as Hd.
  pose proof (digits2_pos_le_53 p Hp) as Hdp.
  set (dp := Zpos (digits2_pos p)) in *.
  unfold binary_round. rewrite Hd.
  replace (dp + k + - k) with dp by lia. rewrite fexp_normal by lia.
  destruct (Z.leb_spec 53 (dp + k)) as [Hlong | Hshort].
  - (* at least 53 digits: nothing to shift in *)
    assert (Hal : shl_align q (- k) (dp - 53) = (q, - k)).
    { unfold shl_align. destruct (dp - 53 - - k) eqn:E; try lia; reflexivity. }
    rewrite Hal. apply (binary_round_aux_scaled s q p k); try assumption.
    pose proof (digits2_pos_bounds q) as [Hqlo _]. rewrite Hd in Hqlo.
    assert (2 ^ 52 <= 2 ^ (dp + k - 1)) by (apply Z.pow_le_mono_r; lia). lia.
  - (* fewer: the mantissa is shifted up to 53 digits *)
    destruct (shl_align_fst q (- k) (dp - 53) ltac:(lia)) as [Hf Hs].
    destruct (shl_align q (- k) (dp - 53)) as [mz ez]. cbn [fst snd] in Hf, Hs. subst ez.
    assert (Hmz : Zpos mz = Zpos p * 2 ^ (53 - dp)).
    { rewrite Hf, Hq, <- Z.mul_assoc, <- Z.pow_add_r by lia. f_equal. f_equal. lia. }
    assert (Hdz : Zpos (digits2_pos mz) = 53).
    { rewrite (digits2_pos_scaled mz p (53 - dp) Hmz) by lia. fold dp. lia. }
    rewrite binary_round_aux_exact by (assumption || lia).
    exists mz, (dp - 53). split; [reflexivity |]. split; [exact Hdz |].
    split; [lia |]. rewrite Hmz. f_equal. f_equal. lia.
Qed.

(** A full mantissa determines its exponent. *)
Lemma full_mantissa_unique z m1 e1 m2 e2 :
  Zpos (digits2_pos m1) = 53 -> Zpos (digits2_pos m2) = 53 ->
  e1 <= 0 -> e2 <= 0 ->
  Zpos m1 = z * 2 ^ (- e1) -> Zpos m2 = z * 2 ^ (- e2) ->
  m1 = m2 /\ e1 = e2.
Proof.
  intros Hd1 Hd2 He1 He2 H1 H2.
  pose proof (digits2_pos_bounds m1) as B1. rewrite Hd1 in B1.
  pose proof (digits2_pos_bounds m2) as B2. rewrite Hd2 in B2.
  change (2 ^ (53 - 1)) with (2 ^ 52) in *.
  assert (Hz : 0 < z).
  { assert (0 < 2 ^ (- e1)) by (apply Z.pow_pos_nonneg; lia). nia. }
  assert (He : e1 = e2).
  { destruct (Z.lt_trichotomy e1 e2) as [Hlt | [Heq | Hgt]]; [| exact Heq |]; exfalso.
    - assert (E : 2 ^ (- e1) = 2 ^ (- e2) * 2 ^ (e2 - e1))
        by (rewrite <- Z.pow_add_r by lia; f_equal; lia).
      assert (2 <= 2 ^ (e2 - e1))
        by (change 2 with (2 ^ 1) at 1; apply Z.pow_le_mono_r; lia).
      rewrite E, Z.mul_assoc, <- H2 in H1.
      change (2 ^ 53) with (2 ^ 52 * 2) in *. nia.
    - assert (E : 2 ^ (- e2) = 2 ^ (- e1) * 2 ^ (e1 - e2))
        by (rewrite <- Z.pow_add_r by lia; f_equal; lia).
      assert (2 <= 2 ^ (e1 - e2))
        by (change 2 with (2 ^ 1) at 1; apply Z.pow_le_mono_r; lia).
      rewrite E, Z.mul_assoc, <- H1 in H2.
      change (2 ^ 53) with (2 ^ 52 * 2) in *. nia. }
  subst e2. split; [| reflexivity]. apply Pos2Z.inj. congruence.
Qed.

(** The double of a non-zero integer below 2^53 in absolute value: its
    sign, and its absolute value shifted up to 53 digits. *)
Lemma of_int_nonzero z :
  z <> 0 -> Z.abs z < 2 ^ 53 ->
  exists m e,
    of_int z = S754_finite (z <? 0) m e /\
    Zpos (digits2_pos m) = 53 /\ -52 <= e <= 0 /\ Zpos m = Z.abs z * 2 ^ (- e).
Proof.
  intros Hz Hlt. unfold of_int, binary_normalize. destruct z as [| p | p]; [lia | |].
  - apply (binary_round_scaled false p p 0); simpl; lia.
  - apply (binary_round_scaled true p p 0); simpl; lia.
Qed.

(** Any mantissa and exponent that stand for an integer below 2^53 round
    to the double of that integer. *)
Lemma binary_normalize_scaled z k :
  Z.abs z < 2 ^ 53 -> 0 <= k <= 1000 ->
  binary_normalize prec emax (z * 2 ^ k) (- k) false = of_int z.
Proof.
  intros Hz Hk.
  assert (Hpk : 0 < 2 ^ k) by (apply Z.pow_pos_nonneg; lia).
  destruct (Z.eq_dec z 0) as [-> | Hne]; [reflexivity |].
  destruct (of_int_nonzero z Hne Hz) as (m & e & E & Hdm & He & Hm). rewrite E.
  unfold binary_normalize.
  destruct z as [| p | p]; [lia | |].
  - destruct (Zpos p * 2 ^ k) as [| q | q] eqn:Eq; try lia.
    destruct (binary_round_scaled false q p k (eq_sym Eq) Hz Hk)
      as (m' & e' & E' & Hd' & He' & Hm').
    rewrite E'. simpl (_ <? _).
    destruct (full_mantissa_unique (Zpos p) m' e' m e) as [-> ->];
      try assumption; try lia. reflexivity.
  - destruct (Zneg p * 2 ^ k) as [| q | q] eqn:Eq; try lia.
    assert (Eq' : Zpos q = Zpos p * 2 ^ k) by lia.
    destruct (binary_round_scaled true q p k Eq' Hz Hk) as (m' & e' & E' & Hd' & He' & Hm').
    rewrite E'. simpl (_ <? _).
    destruct (full_mantissa_unique (Zpos p) m' e' m e) as [-> ->];
      try assumption; try lia. reflexivity.
Qed.

(** The product of two integers is exact as long as it stays below
    2^53. *)
Lemma float_mul_of_int a b :
  0 < b < 2 ^ 53 -> Z.abs (a * b) < 2 ^ 53 ->
  float_mul (of_int a) (of_int b) = of_int (a * b).
Proof.
  intros [Hb Hb53] Hab.
  assert (Hbb : Z.abs b < 2 ^ 53) by lia.
  destruct (of_int_nonzero b ltac:(lia) Hbb) as (mb & eb & Eb & Hdb & Heb & Hmb).
  replace (b <? 0) with false in Eb by (symmetry; apply Z.ltb_ge; lia).
  destruct (Z.eq_dec a 0) as [-> | Ha]; [rewrite Eb; reflexivity |].
  assert (Haa : Z.abs a < 2 ^ 53) by nia.
  destruct (of_int_nonzero a Ha Haa) as (ma & ea & Ea & Hda & Hea & Hma).
  destruct (of_int_nonzero (a * b) ltac:(nia) Hab) as (m & e & E & Hdm & He & Hm).
  rewrite Ea, Eb, E. unfold float_mul, SFmul. rewrite xorb_false_r.
  replace (a * b <? 0) with (a <? 0)
    by (destruct (Z.ltb_spec a 0), (Z.ltb_spec (a * b) 0); try reflexivity; nia).
  pose proof (digits2_pos_bounds ma) as Ba. rewrite Hda in Ba.
  pose proof (digits2_pos_bounds mb) as Bb. rewrite Hdb in Bb.
  change (2 ^ (53 - 1)) with (2 ^ 52) in *.
  destruct (Z.abs (a * b)) as [| p | p] eqn:Ep; try lia.
  assert (Hq : Zpos (ma * mb) = Zpos p * 2 ^ (- (ea + eb))).
  { rewrite Pos2Z.inj_mul, Hma, Hmb, <- Ep, Z.abs_mul, (Z.abs_eq b) by lia.
    replace (- (ea + eb)) with (- ea + - eb) by lia. rewrite Z.pow_add_r by lia. ring. }
  replace (ea + eb) with (- - (ea + eb)) by lia.
  destruct (binary_round_aux_scaled (a <? 0) (ma * mb) p (- (ea + eb)) Hq)
    as (m' & e' & E' & Hd' & He' & Hm'); [lia | | lia |].
  { rewrite Pos2Z.inj_mul.
    assert (1 * 2 ^ 52 <= Zpos ma * Zpos mb) by (apply Z.mul_le_mono_nonneg; lia). lia. }
  rewrite E'.
  destruct (full_mantissa_unique (Zpos p) m' e' m e) as [-> ->];
    try assumption; try lia. reflexivity.
Qed.

(** So is the sum. *)
Lemma float_add_of_int a b :
  Z.abs a < 2 ^ 53 -> Z.abs b < 2 ^ 53 -> Z.abs (a + b) < 2 ^ 53 ->
  float_add (of_int a) (of_int b) = of_int (a + b).
Proof.
  intros Ha Hb Hab.
  destruct (Z.eq_dec a 0) as [-> | Ha0].
  - simpl (0 + b). destruct (Z.eq_dec b 0) as [-> | Hb0]; [reflexivity |].
    destruct (of_int_nonzero b Hb0 Hb) as (mb & eb & Eb & _). rewrite Eb. reflexivity.
  - destruct (of_int_nonzero a Ha0 Ha) as (ma & ea & Ea & Hda & Hea & Hma).
    destruct (Z.eq_dec b 0) as [-> | Hb0].
    + rewrite Z.add_0_r, Ea. reflexivity.
    + destruct (of_int_nonzero b Hb0 Hb) as (mb & eb & Eb & Hdb & Heb & Hmb).
      rewrite Ea, Eb. unfold float_add, SFadd.
      set (ez := Z.min ea eb).
      destruct (shl_align_fst ma ea ez ltac:(unfold ez; lia)) as [Fa _].
      destruct (shl_align_fst mb eb ez ltac:(unfold ez; lia)) as [Fb _].
      rewrite Fa, Fb, Hma, Hmb.
      assert (Hsa : cond_Zopp (a <? 0) (Z.abs a * 2 ^ (- ea) * 2 ^ (ea - ez)) =
                    a * 2 ^ (- ez)).
      { rewrite <- Z.mul_assoc, <- Z.pow_add_r by (unfold ez; lia).
        replace (- ea + (ea - ez)) with (- ez) by lia.
        unfold cond_Zopp. destruct (Z.ltb_spec a 0); [rewrite Z.abs_neq | rewrite Z.abs_eq];
          lia. }
      assert (Hsb : cond_Zopp (b <? 0) (Z.abs b * 2 ^ (- eb) * 2 ^ (eb - ez)) =
                    b * 2 ^ (- ez)).
      { rewrite <- Z.mul_assoc, <- Z.pow_add_r by (unfold ez; lia).
        replace (- eb + (eb - ez)) with (- ez) by lia.
        unfold cond_Zopp. destruct (Z.ltb_spec b 0); [rewrite Z.abs_neq | rewrite Z.abs_eq];
          lia. }
      rewrite Hsa, Hsb, <- Z.mul_add_distr_r.
      replace ez with (- - ez) at 2 by lia.
      apply binary_normalize_scaled; [assumption | unfold ez; lia].
Qed.

(** The date of a whole number of milliseconds. *)
Lemma TimeClip_of_int z :
  Z.abs z < 2 ^ 53 ->
  TimeClip (of_int z) = if Z.abs z <=? 8640000000000000 then Some z else NaN.
Proof.
  intros Hz. destruct (Z.eq_dec z 0) as [-> | Hne]; [reflexivity |].
  destruct (of_int_nonzero z Hne Hz) as (m & e & E & _ & He & Hm). rewrite E.
  unfold TimeClip, exceeds, integral_part.
  assert (Hp : 0 < 2 ^ (- e)) by (apply Z.pow_pos_nonneg; lia).
  assert (Hint : match e with
                 | Zneg p => Zpos m / 2 ^ Zpos p
                 | _ => Zpos m * 2 ^ e
                 end = Z.abs z).
  { destruct e as [| p | p]; [| lia |].
    - rewrite Hm. simpl. lia.
    - rewrite Hm. change (- Zneg p) with (Zpos p). apply Z.div_mul. change (- Zneg p) with (Zpos p) in Hp. lia. }
  assert (Hex : match e with
                | Zneg p => 8640000000000000 * 2 ^ Zpos p <? Zpos m
                | _ => 8640000000000000 <? Zpos m * 2 ^ e
                end = negb (Z.abs z <=? 8640000000000000)).
  { destruct e as [| p | p]; [| lia |].
    - rewrite Hm. simpl (2 ^ 0). simpl (- 0). rewrite !Z.mul_1_r.
      destruct (Z.ltb_spec 8640000000000000 (Z.abs z)), (Z.leb_spec (Z.abs z) 8640000000000000);
        simpl; (reflexivity || lia).
    - rewrite Hm. change (- Zneg p) with (Zpos p) in *.
      destruct (Z.ltb_spec (8640000000000000 * 2 ^ Zpos p) (Z.abs z * 2 ^ Zpos p)),
               (Z.leb_spec (Z.abs z) 8640000000000000); simpl; try reflexivity; exfalso; nia. }
  rewrite Hex, Hint.
  destruct (Z.abs z <=? 8640000000000000); simpl; [| reflexivity].
  f_equal. destruct (Z.ltb_spec z 0); lia.
Qed.

(** A date lies within 8.64e15 ms of 1970. *)
Lemma TimeClip_range t z : TimeClip t = Some z -> Z.abs z <= 8640000000000000.
Proof.
  unfold TimeClip, NaN, exceeds, integral_part.
  destruct t as [s | s | | s m e]; try discriminate.
  - intros H. injection H as <-. simpl. lia.
  - destruct e as [| p | p].
    + remember (Zpos m * 2 ^ 0) as v eqn:Ev.
      destruct (Z.ltb_spec 8640000000000000 v); [discriminate |].
      intros E. injection E as <-. destruct s; lia.
    + remember (Zpos m * 2 ^ Zpos p) as v eqn:Ev.
      assert (0 <= v) by (subst v; apply Z.mul_nonneg_nonneg; [| apply Z.pow_nonneg]; lia).
      destruct (Z.ltb_spec 8640000000000000 v); [discriminate |].
      intros E. injection E as <-. destruct s; lia.
    + assert (Hp : 0 < 2 ^ Zpos p) by (apply Z.pow_pos_nonneg; lia).
      remember (Zpos m / 2 ^ Zpos p) as v eqn:Ev.
      destruct (Z.ltb_spec (8640000000000000 * 2 ^ Zpos p) (Zpos m)); [discriminate |].
      assert (0 <= v <= 8640000000000000).
      { subst v. split; [apply Z.div_pos; lia |]. apply Z.div_le_upper_bound; lia. }
      intros E. injection E as <-. destruct s; lia.
Qed.

(** *** The days until a due date *)

Lemma loc_of_shr_record_of_loc m l : loc_of_shr_record (shr_record_of_loc m l) = l.
Proof. destruct l as [| []]; reflexivity. Qed.

Lemma new_location_cases mt r :
  (r = 0 /\ new_location mt r = loc_Exact) \/
  (r <> 0 /\ exists c, new_location mt r = loc_Inexact c).
Proof.
  unfold new_location.
  destruct (Z.even mt); unfold new_location_even, new_location_odd;
    (destruct (Z.eqb_spec r 0) as [-> | Hr];
     [left; split; reflexivity | right; split; [exact Hr | eexists; reflexivity]]).
Qed.

(** Rounding to nearest after a division by an even number. *)
Lemma round_nearest_even_close mt r m :
  Z.even mt = true -> 0 <= r < mt ->
  2 * Z.abs (round_nearest_even m (new_location mt r) * mt - (m * mt + r)) <= mt.
Proof.
  intros He Hr. unfold new_location, new_location_even. rewrite He.
  destruct (Z.eqb_spec r 0) as [-> | Hr0]; cbn [round_nearest_even]; [lia |].
  destruct (Z.compare_spec (2 * r) mt) as [E | E | E]; cbn [round_nearest_even];
    try destruct (Z.even m); lia.
Qed.

(** The second step of rounding: a mantissa that reached 2^53 is halved. *)
Lemma binary_round_aux_finish m1 e :
  2 ^ 52 <= m1 <= 2 ^ 53 -> -1074 <= e -> e + 1 <= 971 ->
  exists m2 n,
    (let '(mrs, e2) := shr_fexp prec emax m1 e loc_Exact in
     match shr_m mrs with
     | Z0 => S754_zero false
     | Zpos m => if e2 <=? emax - prec then S754_finite false m e2 else S754_infinity false
     | Zneg _ => S754_nan
     end) = S754_finite false m2 (e + n) /\
    Zpos (digits2_pos m2) = 53 /\ 0 <= n <= 1 /\ Zpos m2 * 2 ^ n = m1.
Proof.
  intros Hm He1 He2. destruct m1 as [| pr | pr]; try lia.
  destruct (Z.ltb_spec (Zpos pr) (2 ^ 53)) as [Hlt | Hge].
  - assert (Hdr : Zpos (digits2_pos pr) = 53) by (apply digits2_pos_unique; lia).
    rewrite shr_fexp_53 by (assumption || lia). cbn [shr_record_of_loc shr_m].
    replace (e <=? emax - prec) with true
      by (symmetry; apply Z.leb_le; unfold emax, prec; lia).
    exists pr, 0. rewrite Z.add_0_r. split; [reflexivity |]. split; [exact Hdr |].
    split; [lia |]. simpl. lia.
  - assert (Hpr : Zpos pr = 2 ^ 53) by lia.
    assert (Hdr : Zpos (digits2_pos pr) = 54) by (apply digits2_pos_unique; lia).
    destruct (shr_fexp_spec pr e loc_Exact) as (mrs2 & E2 & Hm2); [lia | lia |].
    rewrite Hdr in E2, Hm2. simpl in E2, Hm2.
    rewrite E2, Hm2, Hpr.
    change (2 ^ 53 / 2) with (Zpos (2 ^ 52)%positive).
    replace (e + 1 <=? emax - prec) with true
      by (symmetry; apply Z.leb_le; unfold emax, prec; lia).
    exists (2 ^ 52)%positive, 1. split; [reflexivity |].
    split; [reflexivity |]. split; [lia |]. reflexivity.
Qed.

(** Rounding a quotient of 53 or 54 digits with its remainder: the result
    is within half a unit of its last place of the exact quotient. *)
Lemma binary_round_aux_nearest q e mt r :
  let n0 := Zpos (digits2_pos q) - 53 in
  0 <= n0 <= 1 -> -1074 <= e -> e + 2 <= 971 ->
  Z.even mt = true -> 0 <= r < mt ->
  exists m2 n,
    binary_round_aux prec emax false (Zpos q) e (new_location mt r) =
      S754_finite false m2 (e + n) /\
    Zpos (digits2_pos m2) = 53 /\ 0 <= n <= 2 /\
    2 * Z.abs (Zpos m2 * 2 ^ n * mt - (Zpos q * mt + r)) <= 2 ^ n * mt.
Proof.
  intros n0 Hn0 He1 He2 Hev Hr.
  pose proof (digits2_pos_bounds q) as Bq.
  unfold binary_round_aux.
  destruct (Z.eq_dec n0 0) as [H0 | H1].
  - (* 53 digits: nothing is cut *)
    assert (Hd : Zpos (digits2_pos q) = 53) by (unfold n0 in H0; lia).
    rewrite Hd in Bq. change (2 ^ (53 - 1)) with (2 ^ 52) in Bq.
    rewrite shr_fexp_53 by (assumption || lia).
    rewrite shr_m_of_loc, loc_of_shr_record_of_loc.
    pose proof (round_nearest_even_close mt r (Zpos q) Hev Hr) as Hc.
    pose proof (round_nearest_even_bounds (Zpos q) (new_location mt r)) as Hb.
    set (m1 := round_nearest_even (Zpos q) (new_location mt r)) in *.
    destruct (binary_round_aux_finish m1 e) as (m2 & n & E & Hd2 & Hn & Hm);
      [lia | lia | lia |].
    rewrite E. exists m2, n. split; [reflexivity |]. split; [exact Hd2 |].
    split; [lia |]. rewrite Hm.
    assert (1 <= 2 ^ n) by (assert (0 < 2 ^ n) by (apply Z.pow_pos_nonneg; lia); lia).
    assert (mt * 1 <= mt * 2 ^ n) by (apply Z.mul_le_mono_nonneg_l; lia). lia.
  - (* 54 digits: the last one is cut *)
    assert (Hd : Zpos (digits2_pos q) = 54) by (unfold n0 in *; lia).
    rewrite Hd in Bq. change (2 ^ (54 - 1)) with (2 ^ 53) in Bq.
    assert (E1 : shr_fexp prec emax (Zpos q) e (new_location mt r) =
                 (shr_1 (shr_record_of_loc (Zpos q) (new_location mt r)), e + 1)).
    { unfold shr_fexp. simpl Zdigits2. rewrite Hd. rewrite fexp_normal by lia.
      replace (54 + e - 53 - e) with 1 by lia. reflexivity. }
    rewrite E1.
    set (mrs := shr_1 (shr_record_of_loc (Zpos q) (new_location mt r))).
    assert (Hc : Zpos q / 2 <= round_nearest_even (shr_m mrs) (loc_of_shr_record mrs)
                             <= Zpos q / 2 + 1 /\
                 2 * Z.abs (round_nearest_even (shr_m mrs) (loc_of_shr_record mrs) * 2 * mt
                            - (Zpos q * mt + r)) <= 2 * mt).
    { unfold mrs.
      destruct (new_location_cases mt r) as [[-> ->] | [Hr0 [c ->]]].
      - destruct q as [p | p |]; [| | simpl in Hd; lia].
        + cbn [shr_record_of_loc shr_1 orb shr_m loc_of_shr_record round_nearest_even].
          rewrite Pos2Z.inj_xI.
          replace ((2 * Zpos p + 1) / 2) with (Zpos p)
            by (apply Z.div_unique with 1; lia).
          destruct (Z.even (Zpos p)); lia.
        + cbn [shr_record_of_loc shr_1 orb shr_m loc_of_shr_record round_nearest_even].
          rewrite Pos2Z.inj_xO.
          replace (2 * Zpos p / 2) with (Zpos p)
            by (apply Z.div_unique with 0; lia).
          lia.
      - destruct q as [p | p |]; [| | simpl in Hd; lia].
        + rewrite Pos2Z.inj_xI.
          replace ((2 * Zpos p + 1) / 2) with (Zpos p)
            by (apply Z.div_unique with 1; lia).
          rewrite <- Pos2Z.inj_xI.
          destruct c;
            cbn [shr_record_of_loc shr_1 orb shr_m loc_of_shr_record round_nearest_even];
            rewrite Pos2Z.inj_xI; lia.
        + rewrite Pos2Z.inj_xO.
          replace (2 * Zpos p / 2) with (Zpos p)
            by (apply Z.div_unique with 0; lia).
          rewrite <- Pos2Z.inj_xO.
          destruct c;
            cbn [shr_record_of_loc shr_1 orb shr_m loc_of_shr_record round_nearest_even];
            rewrite Pos2Z.inj_xO; lia. }
    destruct Hc as [Hb Hc].
    set (m1 := round_nearest_even (shr_m mrs) (loc_of_shr_record mrs)) in *.
    assert (Hhalf : 2 ^ 52 <= Zpos q / 2 < 2 ^ 53).
    { split.
      - apply Z.div_le_lower_bound; [lia |]. change (2 ^ 53) with (2 * 2 ^ 52) in Bq. lia.
      - apply Z.div_lt_upper_bound; [lia |]. change (2 ^ 54) with (2 * 2 ^ 53) in Bq. lia. }
    destruct (binary_round_aux_finish m1 (e + 1)) as (m2 & n & E & Hd2 & Hn & Hm);
      [lia | lia | lia |].
    rewrite E. exists m2, (1 + n). split; [f_equal; lia |]. split; [exact Hd2 |].
    split; [lia |].
    rewrite Z.pow_add_r by lia. change (2 ^ 1) with 2.
    assert (1 <= 2 ^ n) by (assert (0 < 2 ^ n) by (apply Z.pow_pos_nonneg; lia); lia).
    assert (2 * mt * 1 <= 2 * mt * 2 ^ n) by (apply Z.mul_le_mono_nonneg_l; lia).
    replace (Zpos m2 * (2 * 2 ^ n) * mt) with (Zpos m2 * 2 ^ n * 2 * mt) by ring.
    rewrite Hm. lia.
Qed.

(** The quotient of two doubles with full mantissas, the divisor's even:
    within half a unit of the last place of the exact quotient. *)
Lemma float_div_nearest mc ec mt et :
  Zpos (digits2_pos mc) = 53 -> Zpos (digits2_pos mt) = 53 ->
  -52 <= ec <= 0 -> -52 <= et <= 0 -> Z.even (Zpos mt) = true ->
  exists m2 n,
    float_div (S754_finite false mc ec) (S754_finite false mt et) =
      S754_finite false m2 (ec - et - 53 + n) /\
    Zpos (digits2_pos m2) = 53 /\ 0 <= n <= 2 /\
    2 * Z.abs (Zpos m2 * 2 ^ n * Zpos mt - Zpos mc * 2 ^ 53) <= 2 ^ n * Zpos mt.
Proof.
  intros Hdc Hdt Hec Het Hev.
  pose proof (digits2_pos_bounds mc) as Bc. pose proof (digits2_pos_bounds mt) as Bt.
  rewrite Hdc in Bc. rewrite Hdt in Bt.
  change (2 ^ (53 - 1)) with (2 ^ 52) in *.
  unfold float_div, SFdiv, SFdiv_core_binary. simpl Zdigits2. rewrite Hdc, Hdt.
  replace (53 + ec - (53 + et)) with (ec - et) by lia.
  rewrite fexp_normal by lia.
  replace (Z.min (ec - et - 53) (ec - et)) with (ec - et - 53) by lia.
  replace (ec - et - (ec - et - 53)) with 53 by lia.
  cbv iota. rewrite Z.shiftl_mul_pow2 by lia.
  set (a := Zpos mc * 2 ^ 53).
  pose proof (Z_div_mod a (Zpos mt) ltac:(lia)) as Hdm.
  destruct (Z.div_eucl a (Zpos mt)) as [q r] eqn:E. destruct Hdm as [Ha Hr].
  assert (Hqlo : 2 ^ 52 <= q).
  { destruct (Z.leb_spec (2 ^ 52) q); [assumption | exfalso].
    assert (Zpos mt * q <= Zpos mt * (2 ^ 52 - 1)) by (apply Z.mul_le_mono_nonneg_l; lia).
    unfold a in Ha. change (2 ^ 53) with (2 ^ 52 * 2) in *. nia. }
  assert (Hqhi : q < 2 ^ 54).
  { destruct (Z.ltb_spec q (2 ^ 54)); [assumption | exfalso].
    assert (Zpos mt * 2 ^ 54 <= Zpos mt * q) by (apply Z.mul_le_mono_nonneg_l; lia).
    unfold a in Ha. change (2 ^ 54) with (2 ^ 53 * 2) in *. nia. }
  destruct q as [| pq | pq]; try lia.
  assert (Hdq : 53 <= Zpos (digits2_pos pq) <= 54).
  { destruct (Z.ltb_spec (Zpos pq) (2 ^ 53)).
    - rewrite (digits2_pos_unique pq 53); lia.
    - rewrite (digits2_pos_unique pq 54); lia. }
  destruct (binary_round_aux_nearest pq (ec - et - 53) (Zpos mt) r)
    as (m2 & n & Er & Hd2 & Hn & Hb); try lia; try assumption.
  exists m2, n. split; [exact Er |]. split; [exact Hd2 |]. split; [exact Hn |].
  rewrite Ha. replace (Zpos mt * Zpos pq + r) with (Zpos pq * Zpos mt + r) by ring.
  exact Hb.
Qed.

(** The difference of two integers is exact as long as it stays below
    2^53. *)
Lemma float_sub_of_int a b :
  Z.abs a < 2 ^ 53 -> Z.abs b < 2 ^ 53 -> Z.abs (a - b) < 2 ^ 53 ->
  float_sub (of_int a) (of_int b) = of_int (a - b).
Proof.
  intros Ha Hb Hab.
  destruct (Z.eq_dec b 0) as [-> | Hb0].
  - rewrite Z.sub_0_r. destruct (Z.eq_dec a 0) as [-> | Ha0]; [reflexivity |].
    destruct (of_int_nonzero a Ha0 Ha) as (ma & ea & Ea & _). rewrite Ea. reflexivity.
  - destruct (of_int_nonzero b Hb0 Hb) as (mb & eb & Eb & Hdb & Heb & Hmb).
    destruct (Z.eq_dec a 0) as [-> | Ha0].
    + simpl (0 - b).
      destruct (of_int_nonzero (- b) ltac:(lia) ltac:(lia)) as (m & e & E & Hdm & He & Hm).
      rewrite Eb, E. unfold float_sub. cbn [of_int binary_normalize SFsub].
      change (of_int 0) with (S754_zero false). cbn [SFsub].
      rewrite Z.abs_opp in Hm.
      destruct (full_mantissa_unique (Z.abs b) mb eb m e) as [-> ->];
        try assumption; try lia.
      f_equal. destruct (Z.ltb_spec b 0), (Z.ltb_spec (- b) 0); try reflexivity; lia.
    + destruct (of_int_nonzero a Ha0 Ha) as (ma & ea & Ea & Hda & Hea & Hma).
      rewrite Ea, Eb. unfold float_sub, SFsub.
      set (ez := Z.min ea eb).
      destruct (shl_align_fst ma ea ez ltac:(unfold ez; lia)) as [Fa _].
      destruct (shl_align_fst mb eb ez ltac:(unfold ez; lia)) as [Fb _].
      rewrite Fa, Fb, Hma, Hmb.
      assert (Hsa : cond_Zopp (a <? 0) (Z.abs a * 2 ^ (- ea) * 2 ^ (ea - ez)) =
                    a * 2 ^ (- ez)).
      { rewrite <- Z.mul_assoc, <- Z.pow_add_r by (unfold ez; lia).
        replace (- ea + (ea - ez)) with (- ez) by lia.
        unfold cond_Zopp. destruct (Z.ltb_spec a 0); [rewrite Z.abs_neq | rewrite Z.abs_eq];
          lia. }
      assert (Hsb : cond_Zopp (b <? 0) (Z.abs b * 2 ^ (- eb) * 2 ^ (eb - ez)) =
                    b * 2 ^ (- ez)).
      { rewrite <- Z.mul_assoc, <- Z.pow_add_r by (unfold ez; lia).
        replace (- eb + (eb - ez)) with (- ez) by lia.
        unfold cond_Zopp. destruct (Z.ltb_spec b 0); [rewrite Z.abs_neq | rewrite Z.abs_eq];
          lia. }
      rewrite Hsa, Hsb, <- Z.mul_sub_distr_r.
      replace ez with (- - ez) at 2 by lia.
      apply binary_normalize_scaled; [assumption | unfold ez; lia].
Qed.

Lemma ceil_div_between x d :
  0 < d -> (ceil_div x d - 1) * d < x <= ceil_div x d * d.
Proof.
  intros Hd. unfold ceil_div.
  pose proof (Z.div_mod (- x) d ltac:(lia)).
  pose proof (Z.mod_pos_bound (- x) d Hd). lia.
Qed.

Lemma ceil_div_unique x d k :
  0 < d -> (k - 1) * d < x <= k * d -> ceil_div x d = k.
Proof.
  intros Hd H. unfold ceil_div.
  assert (E : - k = - x / d) by (apply Z.div_unique with (k * d - x); lia).
  lia.
Qed.

(** [Math.ceil] of a positive double with a fraction. *)
Lemma Math_ceil_fraction m e k :
  e < 0 -> (k - 1) * 2 ^ (- e) < Zpos m <= k * 2 ^ (- e) ->
  Math_ceil (S754_finite false m e) = of_int k.
Proof.
  intros He H. destruct e as [| p | p]; try lia.
  change (- Zneg p) with (Zpos p) in H.
  assert (Hp : 0 < 2 ^ Zpos p) by (apply Z.pow_pos_nonneg; lia).
  unfold Math_ceil. cbv zeta.
  change (- (- Zpos m / 2 ^ Zpos p)) with (ceil_div (Zpos m) (2 ^ Zpos p)).
  rewrite (ceil_div_unique (Zpos m) (2 ^ Zpos p) k Hp H).
  destruct k as [| k | k]; [| reflexivity | reflexivity].
  exfalso. lia.
Qed.

(** The days until a due date, as the code computes them in doubles,
    are the whole number that [days_until] gives: the quotient is rounded
    by less than the 1/86400000 that separates a quotient that is not
    whole from the next whole number. *)
Lemma days_between_exact due now :
  Z.abs due < 2 ^ 53 -> Z.abs now < 2 ^ 53 -> 0 <= due - now < 2 ^ 53 ->
  days_between due now = of_int (ceil_div (due - now) (24 * 60 * 60 * 1000)).
Proof.
  intros Hdue Hnow Hx. unfold days_between.
  rewrite float_sub_of_int by lia.
  change (float_mul (float_mul (float_mul (of_int 24) (of_int 60)) (of_int 60))
                    (of_int 1000))
    with (S754_finite false 5798205849600000 (-26)).
  change (24 * 60 * 60 * 1000) with 86400000.
  set (x := due - now) in *.
  destruct (Z.eq_dec x 0) as [-> | Hx0]; [reflexivity |].
  destruct (of_int_pos x ltac:(lia)) as (mx & ex & Ex & Hdx & Hex & Hmx).
  rewrite Ex.
  destruct (float_div_nearest mx ex 5798205849600000 (-26) Hdx)
    as (m2 & n & E & Hd2 & Hn & Hb); [reflexivity | lia | lia | reflexivity |].
  rewrite E.
  pose proof (digits2_pos_bounds m2) as B2. rewrite Hd2 in B2.
  change (2 ^ (53 - 1)) with (2 ^ 52) in B2.
  pose proof (ceil_div_between x 86400000 ltac:(lia)) as Hk.
  set (k := ceil_div x 86400000) in *.
  set (P := 27 - ex - n).
  assert (HP : 25 <= P) by (unfold P; lia).
  set (T := 2 ^ P).
  set (S := 2 ^ (n + 26)).
  assert (HS : 0 < S) by (apply Z.pow_pos_nonneg; lia).
  assert (HT : 0 < T) by (apply Z.pow_pos_nonneg; lia).
  assert (E1 : 2 ^ n * 5798205849600000 = 86400000 * S).
  { unfold S. rewrite Z.pow_add_r by lia. change (2 ^ 26) with 67108864. lia. }
  assert (E2 : Zpos mx * 2 ^ 53 = x * T * S).
  { rewrite Hmx. unfold T, S. rewrite <- !Z.mul_assoc, <- !Z.pow_add_r by lia.
    f_equal. f_equal. unfold P. lia. }
  assert (Hclose : 2 * Z.abs (Zpos m2 * 86400000 - x * T) <= 86400000).
  { replace (Zpos m2 * 2 ^ n * 5798205849600000)
      with (Zpos m2 * 86400000 * S) in Hb
      by (rewrite <- (Z.mul_assoc (Zpos m2)), <- E1; ring).
    rewrite E1, E2, <- Z.mul_sub_distr_r, Z.abs_mul, (Z.abs_eq S) in Hb by lia.
    apply (Z.mul_le_mono_pos_r _ _ S HS). lia. }
  assert (HT26 : 2 ^ 26 <= T).
  { destruct (Z.eq_dec P 25) as [E25 | N25].
    - exfalso. unfold T in Hclose. rewrite E25 in Hclose.
      change (2 ^ 25) with 33554432 in Hclose.
      change (2 ^ 52) with 4503599627370496 in B2.
      change (2 ^ 53) with 9007199254740992 in Hx. lia.
    - unfold T. apply Z.pow_le_mono_r; lia. }
  change (2 ^ 26) with 67108864 in HT26.
  assert (Hx1 : x * T <= k * 86400000 * T) by (apply Z.mul_le_mono_nonneg_r; lia).
  assert (Hx2 : ((k - 1) * 86400000 + 1) * T <= x * T)
    by (apply Z.mul_le_mono_nonneg_r; lia).
  apply Math_ceil_fraction; [lia |].
  replace (- (ex - -26 - 53 + n)) with P by (unfold P; lia). fold T.
  lia.
Qed.

(* ================================================================= *)
(** ** get_upcoming_assignments *)

Section Upcoming.
Context {rt : Runtime}.

(** What passes the window filter has a [due_at] that is a non-empty
    text, reads as a date, and lies between [now] and the cutoff. *)
Lemma is_upcoming_inv now cutoff a :
  is_upcoming now cutoff a = true ->
  exists s due,
    Assignment.due_at a = Some s /\ s <> "" /\ Date_parse s = Some due /\
    dueDate a = Some due /\ now <= due /\ num_le (Some due) cutoff = true.
Proof.
  unfold is_upcoming, no_due_at, dueDate.
  destruct (Assignment.due_at a) as [s |]; simpl; [| discriminate].
  destruct (s =? "")%string eqn:Es; simpl; [discriminate |].
  destruct (Date_parse s) as [due |] eqn:Ed; simpl; [| discriminate].
  intros H. apply andb_true_iff in H. destruct H as [Hge Hle].
  exists s, due. apply String.eqb_neq in Es. apply Z.leb_le in Hge.
  repeat (split; [solve [auto] |]). exact Hle.
Qed.

(** A date is at or before the cutoff only if the cutoff is a date too. *)
Lemma num_le_inv due cutoff :
  num_le (Some due) cutoff = true -> exists c, cutoff = Some c /\ due <= c.
Proof.
  destruct cutoff as [c |]; simpl; [| discriminate].
  intros H. apply Z.leb_le in H. exists c. auto.
Qed.

(** The scale of a day, factor by factor. *)
Lemma days_in_milliseconds days :
  Z.abs (days * 86400000) < 2 ^ 53 ->
  float_mul (float_mul (float_mul (float_mul (of_int days) (of_int 24)) (of_int 60))
                       (of_int 60)) (of_int 1000) =
    of_int (days * 86400000).
Proof.
  intros H. change (2 ^ 53) with 9007199254740992 in H.
  rewrite float_mul_of_int by (change (2 ^ 53) with 9007199254740992; lia).
  rewrite float_mul_of_int by (change (2 ^ 53) with 9007199254740992; lia).
  rewrite float_mul_of_int by (change (2 ^ 53) with 9007199254740992; lia).
  rewrite float_mul_of_int by (change (2 ^ 53) with 9007199254740992; lia).
  f_equal. lia.
Qed.

(** The end of the window for a whole number of days: that many days
    after [now], if that is a date. *)
Lemma cutoffDate_whole_days now daysAhead days :
  ToNumber daysAhead = of_int days -> whole_days now days ->
  cutoffDate now daysAhead =
    if Z.abs (now + days * 86400000) <=? 8640000000000000
    then Some (now + days * 86400000) else NaN.
Proof.
  intros Hn (Hnow & Hprod & Hsum). unfold cutoffDate.
  rewrite Hn, days_in_milliseconds, float_add_of_int by assumption.
  apply TimeClip_of_int. exact Hsum.
Qed.

(** Adding a zero to a whole number changes nothing. *)
Lemma float_add_zero now s :
  Z.abs now < 2 ^ 53 -> float_add (of_int now) (S754_zero s) = of_int now.
Proof.
  intros H. destruct (Z.eq_dec now 0) as [-> | Hne].
  - destruct s; reflexivity.
  - destruct (of_int_nonzero now Hne H) as (m & e & E & _). rewrite E. reflexivity.
Qed.

(** A number of days that is a zero gives a window that ends as it
    begins. *)
Lemma cutoffDate_zero now daysAhead s :
  ToNumber daysAhead = S754_zero s -> Z.abs now <= 8640000000000000 ->
  cutoffDate now daysAhead = Some now.
Proof.
  intros Hn Hnow. unfold cutoffDate. rewrite Hn.
  replace (float_mul (float_mul (float_mul (float_mul (S754_zero s) (of_int 24))
                                           (of_int 60)) (of_int 60)) (of_int 1000))
    with (S754_zero s) by (destruct s; reflexivity).
  assert (H53 : Z.abs now < 2 ^ 53) by (change (2 ^ 53) with 9007199254740992; lia).
  rewrite float_add_zero, TimeClip_of_int by exact H53.
  apply Z.leb_le in Hnow. rewrite Hnow. reflexivity.
Qed.

(** A number of days that is no number gives no window. *)
Lemma cutoffDate_NaN now daysAhead :
  ToNumber daysAhead = S754_nan -> cutoffDate now daysAhead = NaN.
Proof.
  intros Hn. unfold cutoffDate. rewrite Hn.
  replace (float_mul (float_mul (float_mul (float_mul S754_nan (of_int 24))
                                           (of_int 60)) (of_int 60)) (of_int 1000))
    with S754_nan by reflexivity.
  unfold float_add, SFadd. destruct (of_int now); reflexivity.
Qed.

(** What the loop collects: items that passed the filter, with the number
    of days computed from their date. *)
Lemma getUpcomingAssignments_collect_spec this w daysAhead log collected log' :
  getUpcomingAssignments_collect this w daysAhead log = (inr collected, log') ->
  Forall (fun t =>
            is_upcoming (clock w) (cutoffDate (clock w) daysAhead) (Tagged.a t) = true /\
            Tagged.days_until_due t = days_until (clock w) (Tagged.a t))
         collected.
Proof.
  unfold getUpcomingAssignments_collect. intros H.
  apply bind_ret_inv in H. destruct H as (courses & l1 & _ & H).
  revert H. apply for_of_Forall. intros course lg ys lg' Hb.
  apply bind_ret_inv in Hb. destruct Hb as (assignments & l2 & _ & Hb).
  inversion Hb. subst. apply Forall_forall. intros t Ht.
  apply in_map_iff in Ht. destruct Ht as (a & <- & Hin).
  apply filter_In in Hin. simpl. split; [apply Hin | reflexivity].
Qed.

Lemma getUpcomingAssignments_inv this w daysAhead log items log' :
  getUpcomingAssignments this w daysAhead log = (inr (UpcomingResult items), log') ->
  exists collected,
    getUpcomingAssignments_collect this w daysAhead log = (inr collected, log') /\
    items = map upcoming_out (Array_sort (by_key (fun t => dueDate (Tagged.a t))) collected).
Proof.
  unfold getUpcomingAssignments. intros H.
  apply bind_ret_inv in H. destruct H as (collected & l1 & Hc & H).
  inversion H. subst. exists collected. split; [exact Hc | reflexivity].
Qed.

Lemma due_time_upcoming_out t s :
  Assignment.due_at (Tagged.a t) = Some s ->
  due_time (upcoming_out t) = dueDate (Tagged.a t).
Proof. unfold due_time, dueDate. simpl. intros ->. reflexivity. Qed.

(** Every item of an answer passed the filter of the window. *)
Lemma getUpcomingAssignments_items this w daysAhead log items log' :
  getUpcomingAssignments this w daysAhead log = (inr (UpcomingResult items), log') ->
  Forall (fun item =>
            exists due cutoff,
              due_time item = Some due /\
              cutoffDate (clock w) daysAhead = Some cutoff /\
              clock w <= due <= cutoff)
         items.
Proof.
  intros H. apply getUpcomingAssignments_inv in H.
  destruct H as (collected & Hc & ->).
  apply getUpcomingAssignments_collect_spec in Hc.
  apply Forall_forall. intros item Hitem.
  apply in_map_iff in Hitem. destruct Hitem as (t & <- & Ht).
  assert (Hin : In t collected)
    by (eapply Permutation_in; [apply Array_sort_perm | exact Ht]).
  rewrite Forall_forall in Hc. destruct (Hc t Hin) as [Hup _].
  apply is_upcoming_inv in Hup.
  destruct Hup as (s & due & Hs & _ & _ & Hd & Hnow & Hcut).
  apply num_le_inv in Hcut. destruct Hcut as (cutoff & Hc' & Hle).
  exists due, cutoff. rewrite (due_time_upcoming_out t s Hs). auto.
Qed.

(** C2 (as amended): every item that get_upcoming_assignments returns
    has a due date that reads as a time between now and the cutoff date,
    both ends included, and the items come in ascending order of that
    time.  The cutoff date is [new Date(now + days_ahead * 24 * 60 * 60 *
    1000)] as JavaScript computes it, in binary64 and cut to a whole
    millisecond.  For a whole number of days, as long as the product and
    the sum stay below 2^53, it is now plus [days_ahead] days exactly. *)
Theorem upcoming_in_window_sorted this w daysAhead log items log' :
  getUpcomingAssignments this w daysAhead log = (inr (UpcomingResult items), log') ->
  Forall (fun item =>
            exists due cutoff,
              due_time item = Some due /\
              cutoffDate (clock w) daysAhead = Some cutoff /\
              clock w <= due <= cutoff)
         items /\
  StronglySorted due_before items /\
  (forall days,
      ToNumber daysAhead = of_int days -> whole_days (clock w) days ->
      Forall (fun item =>
                exists due,
                  due_time item = Some due /\
                  clock w <= due <= clock w + days * 86400000)
             items).
Proof.
  intros H. pose proof (getUpcomingAssignments_items _ _ _ _ _ _ H) as Hitems.
  split; [exact Hitems |]. split.
  - apply getUpcomingAssignments_inv in H.
    destruct H as (collected & Hc & ->).
    apply getUpcomingAssignments_collect_spec in Hc.
    set (key := fun t : Tagged.t => dueDate (Tagged.a t)).
    assert (Hsorted_all : Forall (fun t =>
              is_upcoming (clock w) (cutoffDate (clock w) daysAhead) (Tagged.a t) = true /\
              Tagged.days_until_due t = days_until (clock w) (Tagged.a t))
              (Array_sort (by_key key) collected)).
    { eapply Permutation_Forall; [apply Permutation_sym, Array_sort_perm | exact Hc]. }
    apply StronglySorted_map_in with (R := key_le key).
    + intros x y Hx Hy (tx & ty & Ex & Ey & Hxy).
      rewrite Forall_forall in Hsorted_all.
      destruct (Hsorted_all x Hx) as [Hux _]. destruct (Hsorted_all y Hy) as [Huy _].
      apply is_upcoming_inv in Hux. destruct Hux as (sx & _ & Hsx & _).
      apply is_upcoming_inv in Huy. destruct Huy as (sy & _ & Hsy & _).
      exists tx, ty.
      rewrite (due_time_upcoming_out x sx Hsx), (due_time_upcoming_out y sy Hsy). auto.
    + apply Array_sort_sorted. eapply Forall_impl; [| exact Hc].
      intros t [Hup _]. apply is_upcoming_inv in Hup.
      destruct Hup as (s & due & _ & _ & _ & Hd & _). unfold key, NaN. congruence.
  - intros days Hn Hwhole. eapply Forall_impl; [| exact Hitems].
    intros item (due & cutoff & Hd & Hc & Hw).
    rewrite (cutoffDate_whole_days _ _ _ Hn Hwhole) in Hc.
    destruct (Z.abs (clock w + days * 86400000) <=? 8640000000000000);
      [| discriminate Hc].
    inversion Hc. subst cutoff. exists due. auto.
Qed.

(** C10: no item that get_upcoming_assignments returns has an absent due
    date: each has a [due_at] text that reads as a date, its number of days
    was computed from that date, and nothing with an absent [due_at]
    passes the window filter that runs before that computation. *)
Theorem upcoming_due_date_present this w daysAhead log items log' :
  getUpcomingAssignments this w daysAhead log = (inr (UpcomingResult items), log') ->
  Forall (fun item =>
            exists s due,
              UpcomingOut.due_date item = Some s /\ s <> "" /\
              Date_parse s = Some due /\
              UpcomingOut.days_until_due item = Some (ceil_div (due - clock w) 86400000))
         items /\
  (forall now cutoff a,
      Assignment.due_at a = None -> is_upcoming now cutoff a = false).
Proof.
  intros H. split.
  - apply getUpcomingAssignments_inv in H. destruct H as (collected & Hc & ->).
    apply getUpcomingAssignments_collect_spec in Hc.
    apply Forall_forall. intros item Hitem.
    apply in_map_iff in Hitem. destruct Hitem as (t & <- & Ht).
    assert (Hin : In t collected).
    { eapply Permutation_in; [apply Array_sort_perm | exact Ht]. }
    rewrite Forall_forall in Hc. destruct (Hc t Hin) as [Hup Hdays].
    apply is_upcoming_inv in Hup.
    destruct Hup as (s & due & Hs & Hne & Hp & Hd & _).
    exists s, due. simpl. repeat split; auto.
    rewrite Hdays. unfold days_until. rewrite Hd. reflexivity.
  - intros now cutoff a Ha. unfold is_upcoming, no_due_at. rewrite Ha. reflexivity.
Qed.

(** The number of days of every item is the double that the code computes
    from its date, for a clock that is not before 1970. *)
Lemma upcoming_days_as_computed this w daysAhead log items log' :
  getUpcomingAssignments this w daysAhead log = (inr (UpcomingResult items), log') ->
  0 <= clock w ->
  Forall (fun item =>
            exists due n,
              due_time item = Some due /\
              UpcomingOut.days_until_due item = Some n /\
              days_between due (clock w) = of_int n)
         items.
Proof.
  intros H Hclock. apply getUpcomingAssignments_inv in H.
  destruct H as (collected & Hc & ->).
  apply getUpcomingAssignments_collect_spec in Hc.
  apply Forall_forall. intros item Hitem.
  apply in_map_iff in Hitem. destruct Hitem as (t & <- & Ht).
  assert (Hin : In t collected)
    by (eapply Permutation_in; [apply Array_sort_perm | exact Ht]).
  rewrite Forall_forall in Hc. destruct (Hc t Hin) as [Hup Hdays].
  apply is_upcoming_inv in Hup.
  destruct Hup as (s & due & Hs & _ & _ & Hd & Hnow & Hcut).
  apply num_le_inv in Hcut. destruct Hcut as (cutoff & Hc' & Hle).
  apply TimeClip_range in Hc'.
  exists due, (ceil_div (due - clock w) (24 * 60 * 60 * 1000)).
  rewrite (due_time_upcoming_out t s Hs).
  split; [exact Hd |]. split.
  - simpl. rewrite Hdays. unfold days_until. rewrite Hd. reflexivity.
  - apply days_between_exact; change (2 ^ 53) with 9007199254740992; lia.
Qed.

(** An answer of the dispatcher is the answer of the handler it chose. *)
Lemma CallTool_ret_inv this w name args log r log' :
  CallTool this w name args log = (inr r, log') ->
  dispatch this w name args log = (inr r, log').
Proof.
  unfold CallTool, try_catch.
  destruct (dispatch this w name args log) as [[e | x] l1]; [| auto].
  unfold rethrow. destruct e; discriminate.
Qed.

(** C9 (as amended): a call of get_upcoming_assignments whose
    [days_ahead] argument is falsy (absent, [null], [false], a zero, [NaN]
    or the empty string) is the same computation as a call with
    [days_ahead] equal to 7.  A truthy argument reaches the handler as it
    is.  So a window of no length can be asked for after all, with a truthy
    value that converts to zero, such as the string ["0"]: the window then
    ends at the moment it begins, and an answer holds nothing but
    assignments due at that very moment. *)
Theorem falsy_days_ahead_is_seven this w args log :
  let days_ahead := arg args "days_ahead" in
  (truthy days_ahead = false ->
   CallTool this w "get_upcoming_assignments" args log =
   CallTool this w "get_upcoming_assignments"
     (Some [("days_ahead", JNumber (of_int 7))]) log) /\
  (truthy days_ahead = true ->
   CallTool this w "get_upcoming_assignments" args log =
   try_catch (getUpcomingAssignments this w days_ahead)
             (rethrow "get_upcoming_assignments") log) /\
  (truthy days_ahead = true ->
   (exists s, ToNumber days_ahead = S754_zero s) ->
   Z.abs (clock w) <= 8640000000000000 ->
   cutoffDate (clock w) days_ahead = Some (clock w) /\
   forall items log',
     CallTool this w "get_upcoming_assignments" args log =
       (inr (UpcomingResult items), log') ->
     Forall (fun item => due_time item = Some (clock w)) items).
Proof.
  intros days_ahead.
  assert (Htruthy : truthy days_ahead = true ->
                    dispatch this w "get_upcoming_assignments" args =
                    getUpcomingAssignments this w days_ahead).
  { intros H. unfold dispatch. simpl. unfold js_or. fold days_ahead. rewrite H.
    reflexivity. }
  split; [| split].
  - intros H. unfold CallTool, dispatch. simpl. unfold js_or. fold days_ahead.
    rewrite H. reflexivity.
  - intros H. unfold CallTool. rewrite (Htruthy H). reflexivity.
  - intros H (s & Hzero) Hclock.
    pose proof (cutoffDate_zero (clock w) days_ahead s Hzero Hclock) as Hcut.
    split; [exact Hcut |]. intros items log' Hrun.
    apply CallTool_ret_inv in Hrun. rewrite (Htruthy H) in Hrun.
    eapply Forall_impl; [| exact (getUpcomingAssignments_items _ _ _ _ _ _ Hrun)].
    intros item (due & cutoff & Hd & Hc & Hw).
    rewrite Hcut in Hc. inversion Hc. subst cutoff. rewrite Hd. f_equal. lia.
Qed.

End Upcoming.

Lemma upcoming_in_window_sorted_witness :
  let run := getUpcomingAssignments (rt := Engine.runtime) Examples.server Examples.world
               (JNumber (of_int 7)) [] in
  run = (inr (UpcomingResult Examples.upcoming_items), snd run) /\
  StronglySorted (due_before (rt := Engine.runtime)) Examples.upcoming_items /\
  Forall (fun item =>
            exists due,
              due_time (rt := Engine.runtime) item = Some due /\
              1705000000000 <= due <= 1705000000000 + 7 * 86400000)
         Examples.upcoming_items.
Proof.
  intros run.
  assert (H : run = (inr (UpcomingResult Examples.upcoming_items), snd run))
    by (vm_compute; reflexivity).
  split; [exact H |].
  destruct (@upcoming_in_window_sorted Engine.runtime Examples.server
              Examples.world (JNumber (of_int 7)) [] Examples.upcoming_items (snd run) H)
    as (_ & Hsorted & Hwhole).
  split; [exact Hsorted |].
  apply (Hwhole 7); [reflexivity |].
  unfold whole_days. simpl clock. change (2 ^ 53) with 9007199254740992. lia.
Defined.

(** C2 (as stated) fails: with [days_ahead] equal to
    1.1573958333333334e-08 the window is 0.99999 ms long, but the sum
    [now + 0.99999] rounds to [now + 1] in binary64, so that the survey
    due one millisecond from now is returned although it lies outside
    [now, now + days_ahead days]. *)
Lemma upcoming_beyond_days_ahead :
  ~ (forall (rt : Runtime) this w daysAhead log items log',
        getUpcomingAssignments this w daysAhead log = (inr (UpcomingResult items), log') ->
        Forall (fun item =>
                  exists due,
                    due_time item = Some due /\
                    clock w <= due /\
                    within_days (due - clock w) (ToNumber daysAhead) = true)
               items).
Proof.
  intros claim.
  assert (H : getUpcomingAssignments (rt := Engine.runtime) Examples.server
                Examples.world_closing (JNumber Examples.almost_a_millisecond) [] =
              (inr (UpcomingResult Examples.closing_items),
               snd (getUpcomingAssignments (rt := Engine.runtime) Examples.server
                      Examples.world_closing (JNumber Examples.almost_a_millisecond) [])))
    by (vm_compute; reflexivity).
  apply claim in H. inversion H as [| poll rest _ Hrest]. subst.
  inversion Hrest as [| survey rest' (due & Hdue & _ & Hwithin) _]. subst.
  vm_compute in Hdue. inversion Hdue. subst due.
  vm_compute in Hwithin. discriminate Hwithin.
Qed.

(** The same call, spelled out: the window is cut at [now + 1], one
    millisecond is more than the days asked for, and the survey is in the
    answer. *)
Example survey_returned :
  cutoffDate (rt := Engine.runtime) 1705000000000 (JNumber Examples.almost_a_millisecond) =
    Some 1705000000001 /\
  within_days 1 Examples.almost_a_millisecond = false /\
  fst (getUpcomingAssignments (rt := Engine.runtime) Examples.server Examples.world_closing
         (JNumber Examples.almost_a_millisecond) []) =
    inr (UpcomingResult Examples.closing_items).
Proof. vm_compute. auto. Qed.

(** The days of the three assignments of the closing world, in the
    doubles of the code: due now, in a millisecond, in two days. *)
Example days_between_closing :
  days_between 1705000000000 1705000000000 = of_int 0 /\
  days_between 1705000000001 1705000000000 = of_int 1 /\
  days_between 1705172800000 1705000000000 = of_int 2.
Proof. vm_compute. auto. Qed.

Lemma upcoming_due_date_present_witness :
  let run := getUpcomingAssignments (rt := Engine.runtime) Examples.server Examples.world
               (JNumber (of_int 7)) [] in
  run = (inr (UpcomingResult Examples.upcoming_items), snd run) /\
  Forall (fun item => UpcomingOut.due_date item <> None) Examples.upcoming_items.
Proof.
  intros run.
  assert (H : run = (inr (UpcomingResult Examples.upcoming_items), snd run))
    by (vm_compute; reflexivity).
  split; [exact H |].
  eapply Forall_impl;
    [| exact (proj1 (@upcoming_due_date_present Engine.runtime Examples.server
                       Examples.world (JNumber (of_int 7)) [] Examples.upcoming_items
                       (snd run) H))].
  intros item (s & _ & Hs & _). rewrite Hs. discriminate.
Defined.

Lemma falsy_days_ahead_witness :
  truthy (arg (Some [("days_ahead", JNumber (S754_zero false))]) "days_ahead") = false /\
  CallTool (rt := Engine.runtime) Examples.server Examples.world
    "get_upcoming_assignments" (Some [("days_ahead", JNumber (S754_zero false))]) [] =
  CallTool (rt := Engine.runtime) Examples.server Examples.world
    "get_upcoming_assignments" (Some [("days_ahead", JNumber (of_int 7))]) [] /\
  truthy (arg (Some [("days_ahead", JString "0")]) "days_ahead") = true /\
  cutoffDate (rt := Engine.runtime) (clock Examples.world_closing)
    (arg (Some [("days_ahead", JString "0")]) "days_ahead") =
    Some (clock Examples.world_closing).
Proof.
  split; [reflexivity |]. split.
  - exact (proj1 (falsy_days_ahead_is_seven (rt := Engine.runtime) Examples.server
                    Examples.world (Some [("days_ahead", JNumber (S754_zero false))]) [])
                 eq_refl).
  - split; [reflexivity |].
    refine (proj1 (proj2 (proj2 (falsy_days_ahead_is_seven (rt := Engine.runtime)
                                   Examples.server Examples.world_closing
                                   (Some [("days_ahead", JString "0")]) []))
                         eq_refl (ex_intro _ false eq_refl) _)).
    simpl clock. lia.
Defined.

(** C9 (as stated) fails: a request for zero days is not always served
    as a request for seven.  The string ["0"] converts to the number 0 and
    is truthy: the call looks at the window that ends now and returns the
    poll alone, where a call with 7 returns the survey and the essay as
    well. *)
Lemma zero_days_not_replaced :
  ~ (forall (rt : Runtime) this w args log,
        (exists s, ToNumber (arg args "days_ahead") = S754_zero s) ->
        CallTool this w "get_upcoming_assignments" args log =
        CallTool this w "get_upcoming_assignments"
          (Some [("days_ahead", JNumber (of_int 7))]) log).
Proof.
  intros claim.
  specialize (claim Engine.runtime Examples.server Examples.world_closing
                    (Some [("days_ahead", JString "0")]) []
                    (ex_intro _ false eq_refl)).
  vm_compute in claim. discriminate claim.
Qed.

(** The two answers, by the names of their items. *)
Example zero_day_window :
  let names run :=
    match fst run with
    | inr (UpcomingResult items) => map UpcomingOut.name items
    | _ => []
    end in
  names (CallTool (rt := Engine.runtime) Examples.server Examples.world_closing
           "get_upcoming_assignments" (Some [("days_ahead", JString "0")]) []) = ["Poll"] /\
  names (CallTool (rt := Engine.runtime) Examples.server Examples.world_closing
           "get_upcoming_assignments" (Some [("days_ahead", JNumber (S754_zero false))]) []) =
    ["Poll"; "Survey"; "Essay"].
Proof. vm_compute. auto. Qed.

(** The falsy values are exactly these. *)
Lemma falsy_values v :
  truthy v = false <->
  v = JUndefined \/ v = JNull \/ v = JBool false \/
  (exists s, v = JNumber (S754_zero s)) \/ v = JNumber S754_nan \/ v = JString "".
Proof.
  split.
  - destruct v as [| | b | x | s]; simpl; intros H; auto.
    + destruct b; [discriminate | auto].
    + destruct x as [s | s | | s m e]; try discriminate; eauto 6.
    + apply negb_false_iff, String.eqb_eq in H. subst. auto 7.
  - intros [-> | [-> | [-> | [(s & ->) | [-> | ->]]]]]; reflexivity.
Qed.

(* ================================================================= *)
(** ** get_course_progress *)

Section Progress.
Context {rt : Runtime}.

Lemma Promise_all3_ret_inv {A B C} (p : nat * M A) (q : nat * M B) (r : nat * M C)
    log x log' :
  Promise_all3 p q r log = (inr x, log') ->
  exists a b c l1 l2,
    snd p log = (inr a, l1) /\ snd q l1 = (inr b, l2) /\ snd r l2 = (inr c, log') /\
    x = (a, b, c).
Proof.
  unfold Promise_all3.
  destruct (snd p log) as [[e | a] l1] eqn:Ep;
    destruct (snd q l1) as [[e' | b] l2] eqn:Eq;
    destruct (snd r l2) as [[e'' | c] l3] eqn:Er; intros H; inversion H.
  subst. exists a, b, c, l1, l2. auto.
Qed.

Lemma getCourseProgress_inv this w courseId log out log' :
  getCourseProgress this w courseId log = (inr (ProgressResult out), log') ->
  exists course enrollments response assignments,
    fetch w (EP_assignments_submission (ToString courseId)) = inr response /\
    Response.json response = inr assignments /\
    out = courseProgress course enrollments assignments.
Proof.
  unfold getCourseProgress. cbv zeta. intros H.
  apply bind_ret_inv in H. destruct H as (x & l1 & Hall & H).
  apply Promise_all3_ret_inv in Hall. cbn [snd] in Hall.
  destruct Hall as (course & enrollments & assignments & la & lb & _ & _ & Ha & ->).
  apply makeCanvasRequest_ok_inv in Ha. destruct Ha as (response & Hf & _ & Hj).
  inversion H. subst.
  exists course, enrollments, response, assignments. auto.
Qed.

(** C1 (as amended): get_course_progress reports the number of fetched
    assignments, the number of those with a submission that has a
    [submitted_at] text, and the rest as pending.  For an empty list the
    completion rate is [NaN]: the division is 0/0.  For a non-empty list,
    of any length an array can have, the completion rate is an integer
    between 0 and 100 nearest to [100 * completed / total]; it is
    [round_percent] whenever that quotient is not half way between two
    integers. *)
Theorem getCourseProgress_completion_rate this w courseId log out log' :
  getCourseProgress this w courseId log = (inr (ProgressResult out), log') ->
  exists response assignments,
    fetch w (EP_assignments_submission (ToString courseId)) = inr response /\
    Response.json response = inr assignments /\
    let total := List.length assignments in
    let completed := List.length (filter is_submitted assignments) in
    let p := ProgressOut.progress out in
    Progress.total_assignments p = total /\
    Progress.completed_assignments p = completed /\
    Progress.pending_assignments p = (total - completed)%nat /\
    (total = 0%nat -> Progress.completion_rate p = S754_nan) /\
    ((0 < total)%nat -> Z.of_nat total <= max_array_length ->
     exists r, Progress.completion_rate p = of_int r /\
               nearest_percent (Z.of_nat completed) (Z.of_nat total) r).
Proof.
  intros H. apply getCourseProgress_inv in H.
  destruct H as (course & enrollments & response & assignments & Hf & Hj & ->).
  exists response, assignments. split; [exact Hf |]. split; [exact Hj |].
  simpl. split; [reflexivity |]. split; [reflexivity |].
  pose proof (filter_length is_submitted assignments) as Hlen.
  pose proof (filter_length_le is_submitted assignments) as Hle.
  split; [lia |]. split.
  - intros H0. apply length_zero_iff_nil in H0. subst. reflexivity.
  - intros Ht Hmax. apply completion_rate_general; [lia | lia |].
    unfold max_array_length in Hmax. lia.
Qed.

End Progress.

Lemma getCourseProgress_completion_rate_witness :
  let out := courseProgress Examples.math [] (Examples.forty 23) in
  let run := getCourseProgress (rt := Engine.runtime) Examples.server
               (Examples.world_forty 23) (JNumber (of_int 1)) [] in
  run = (inr (ProgressResult out), snd run) /\
  exists r,
    Progress.completion_rate (ProgressOut.progress out) = of_int r /\
    nearest_percent 23 40 r.
Proof.
  intros out run.
  assert (H : run = (inr (ProgressResult out), snd run)) by (vm_compute; reflexivity).
  split; [exact H |].
  destruct (getCourseProgress_completion_rate (rt := Engine.runtime) Examples.server
              (Examples.world_forty 23) (JNumber (of_int 1)) [] out (snd run) H)
    as (response & assignments & Hf & Hj & _ & _ & _ & _ & Hrate).
  assert (Ha : assignments = Examples.forty 23).
  { vm_compute in Hf. inversion Hf. subst response. simpl in Hj.
    inversion Hj. reflexivity. }
  subst assignments. apply Hrate; vm_compute; [lia | discriminate].
Defined.

(** C1 (as stated) fails: with 23 of 40 assignments submitted the exact
    percentage is 57.5, which rounds to 58, while the double
    [(23 / 40) * 100] is 57.49999999999999 and the reported rate is 57. *)
Lemma completion_rate_is_not_round_percent :
  ~ (forall (rt : Runtime) this w courseId log out log',
        getCourseProgress this w courseId log = (inr (ProgressResult out), log') ->
        let p := ProgressOut.progress out in
        (0 < Progress.total_assignments p)%nat ->
        Progress.completion_rate p =
          of_int (round_percent (Z.of_nat (Progress.completed_assignments p))
                                (Z.of_nat (Progress.total_assignments p)))).
Proof.
  intros claim.
  specialize (claim Engine.runtime Examples.server (Examples.world_forty 23)
                    (JNumber (of_int 1)) []
                    (courseProgress Examples.math [] (Examples.forty 23)) _ eq_refl).
  vm_compute in claim.
  assert (H : (1 <= 40)%nat) by lia.
  specialize (claim H). discriminate claim.
Qed.

Example rate_23_of_40 :
  float_mul (float_div (of_int 23) (of_int 40)) (of_int 100) =
    S754_finite false 8092405580431359 (-47) /\
  completion_rate 23 40 = of_int 57 /\
  round_percent 23 40 = 58.
Proof. vm_compute. auto. Qed.


(* ================================================================= *)
(** * Further properties *)

(** ** The upstream client *)

Section Client.
Context {rt : Runtime}.
Variable this : CanvasMCPServer.
Variable w : World.

(** A request, in one equation: it is logged, and it ends with the data
    answered or with the failure. *)
Lemma makeCanvasRequest_run e log :
  makeCanvasRequest this w e log =
    (match answered w e with
     | Some data => inr data
     | None => inl (failure_of w e)
     end,
     (log ++ [request_of this e])%list).
Proof.
  unfold makeCanvasRequest, answered, failure_of, failure_text,
    bind, issue, try_catch, throw, ret.
  destruct (fetch w e) as [error | response]; simpl; [reflexivity |].
  destruct (Response.ok response); simpl; [| reflexivity].
  destruct (Response.json response); reflexivity.
Qed.

(** X1: [makeCanvasRequest] sends exactly one request, with the token in
    the [Authorization] header, whatever comes of it.  It returns data
    exactly when [fetch] resolves with an [ok] response whose body
    decodes.  Otherwise it throws an internal error whose message starts
    with [Failed to fetch from Canvas: ]: for a response that is not [ok]
    the message goes on with the status code and text and the body is left
    alone; for a rejected [fetch] or a body that does not decode it goes on
    with the message of that error. *)
Theorem makeCanvasRequest_outcome e log :
  let run := makeCanvasRequest this w e log in
  snd run =
    app log
      [ {| Request.url := baseUrl (config this) ++ "/api/v1" ++ endpoint_path e;
           Request.headers :=
             [ ("Authorization", "Bearer " ++ accessToken (config this));
               ("Content-Type", "application/json") ] |} ] /\
  match fetch w e with
  | inl error =>
      fst run = inl (McpError InternalError
                       ("Failed to fetch from Canvas: " ++ message_or_unknown error))
  | inr response =>
      if Response.ok response then
        match Response.json response with
        | inr data => fst run = inr data
        | inl error =>
            fst run = inl (McpError InternalError
                             ("Failed to fetch from Canvas: " ++ message_or_unknown error))
        end
      else
        fst run = inl (McpError InternalError
                         ("Failed to fetch from Canvas: Canvas API error: "
                          ++ string_of_Z (Response.status response) ++ " "
                          ++ Response.statusText response))
  end.
Proof.
  intros run. unfold run. rewrite makeCanvasRequest_run. simpl.
  split; [reflexivity |].
  unfold answered, failure_of, failure_text.
  destruct (fetch w e) as [error | response]; [reflexivity |].
  destruct (Response.ok response); [| reflexivity].
  destruct (Response.json response); reflexivity.
Qed.

Lemma answered_iff e data :
  answered w e = Some data <->
  exists response,
    fetch w e = inr response /\ Response.ok response = true /\
    Response.json response = inr data.
Proof.
  unfold answered. split.
  - destruct (fetch w e) as [error | response]; [discriminate |].
    destruct (Response.ok response) eqn:Hok; [| discriminate].
    destruct (Response.json response) eqn:Hj; [discriminate |].
    intros H. inversion H. subst. exists response. auto.
  - intros (response & -> & -> & ->). reflexivity.
Qed.

(** *** Loops over the courses *)

Section Loop.
Context {A B : Type}.
Variable ep : A -> endpoint.
Variable g : forall x : A, body (ep x) -> list B.

(** A loop that sends one request per element, in one equation. *)
Lemma for_of_run l : forall log,
  for_of l (fun x => data <- makeCanvasRequest this w (ep x) ;; ret (g x data)) log =
    (match first_unanswered w ep l with
     | None =>
         inr (flat_map (fun x => match answered w (ep x) with
                                 | Some data => g x data
                                 | None => []
                                 end) l)
     | Some x => inl (failure_of w (ep x))
     end,
     (log ++ map (fun x => request_of this (ep x)) (until_unanswered w ep l))%list).
Proof.
  induction l as [| x l IH]; intros log; simpl.
  - rewrite app_nil_r. reflexivity.
  - unfold bind at 1. unfold bind at 1. rewrite makeCanvasRequest_run.
    destruct (answered w (ep x)) as [data |]; simpl; [| reflexivity].
    unfold bind. rewrite IH.
    destruct (first_unanswered w ep l); simpl; rewrite <- app_assoc; reflexivity.
Qed.

End Loop.

Lemma first_unanswered_none {A} (ep : A -> endpoint) l :
  first_unanswered w ep l = None ->
  until_unanswered w ep l = l /\ Forall (fun x => answered w (ep x) <> None) l.
Proof.
  induction l as [| x l IH]; simpl; [auto |].
  destruct (answered w (ep x)) eqn:E; [| discriminate].
  intros H. destruct (IH H) as [-> Hall]. split; [reflexivity |].
  constructor; [congruence | exact Hall].
Qed.

Lemma first_unanswered_split {A} (ep : A -> endpoint) pre x post :
  Forall (fun y => answered w (ep y) <> None) pre ->
  answered w (ep x) = None ->
  first_unanswered w ep (pre ++ x :: post) = Some x /\
  until_unanswered w ep (pre ++ x :: post) = (pre ++ [x])%list.
Proof.
  intros Hpre Hx. induction Hpre as [| y pre Hy Hpre IH]; simpl.
  - rewrite Hx. auto.
  - destruct (answered w (ep y)); [| congruence].
    destruct IH as [-> ->]. auto.
Qed.

End Client.

(* ================================================================= *)
(** ** What a call sends, and how it can fail *)

Lemma sends_ret {A} P (x : A) : sends P (ret x).
Proof.
  intros log r log' H. inversion H. exists []. rewrite app_nil_r. auto.
Qed.

Lemma sends_throw {A} P e : sends P (@throw A e).
Proof.
  intros log r log' H. inversion H. exists []. rewrite app_nil_r. auto.
Qed.

Lemma sends_bind {A B} P (c : M A) (k : A -> M B) :
  sends P c -> (forall x, sends P (k x)) -> sends P (bind c k).
Proof.
  intros Hc Hk log r log'. unfold bind.
  destruct (c log) as [[e | x] l1] eqn:E; intros H.
  - inversion H. subst. destruct (Hc _ _ _ E) as (sent & -> & Hs).
    exists sent. auto.
  - destruct (Hc _ _ _ E) as (s1 & -> & H1).
    destruct (Hk x _ _ _ H) as (s2 & -> & H2).
    exists (s1 ++ s2)%list. rewrite app_assoc. split; [reflexivity |].
    apply Forall_app. auto.
Qed.

Lemma sends_try_catch {A} P (c : M A) (handler : exn -> M A) :
  sends P c -> (forall e, sends P (handler e)) -> sends P (try_catch c handler).
Proof.
  intros Hc Hh log r log'. unfold try_catch.
  destruct (c log) as [[e | x] l1] eqn:E; intros H.
  - destruct (Hc _ _ _ E) as (s1 & -> & H1).
    destruct (Hh e _ _ _ H) as (s2 & -> & H2).
    exists (s1 ++ s2)%list. rewrite app_assoc. split; [reflexivity |].
    apply Forall_app. auto.
  - inversion H. subst. destruct (Hc _ _ _ E) as (sent & -> & Hs).
    exists sent. auto.
Qed.

Lemma sends_for_of {A B} P (l : list A) (body : A -> M (list B)) :
  (forall x, sends P (body x)) -> sends P (for_of l body).
Proof.
  intros Hb. induction l as [| x l IH]; simpl.
  - apply sends_ret.
  - apply sends_bind; [apply Hb |]. intros ys.
    apply sends_bind; [exact IH |]. intros rest. apply sends_ret.
Qed.

Lemma sends_Promise_all3 {A B C} P (p : nat * M A) (q : nat * M B) (r : nat * M C) :
  sends P (snd p) -> sends P (snd q) -> sends P (snd r) ->
  sends P (Promise_all3 p q r).
Proof.
  intros Hp Hq Hr log res log'. unfold Promise_all3.
  destruct (snd p log) as [x l1] eqn:Ep.
  destruct (snd q l1) as [y l2] eqn:Eq.
  destruct (snd r l2) as [z l3] eqn:Er.
  destruct (Hp _ _ _ Ep) as (s1 & -> & H1).
  destruct (Hq _ _ _ Eq) as (s2 & -> & H2).
  destruct (Hr _ _ _ Er) as (s3 & -> & H3).
  intros H.
  assert (log' = ((log ++ s1) ++ s2) ++ s3)%list
    by (destruct x, y, z; inversion H; reflexivity).
  subst. exists (s1 ++ s2 ++ s3)%list. rewrite !app_assoc. split; [reflexivity |].
  rewrite <- app_assoc. repeat (apply Forall_app; split); assumption.
Qed.

Section Calls.
Context {rt : Runtime}.
Variable this : CanvasMCPServer.
Variable w : World.

Lemma makeCanvasRequest_sends e :
  sends (authenticated this) (makeCanvasRequest this w e).
Proof.
  intros log r log' H. rewrite makeCanvasRequest_run in H. inversion H.
  exists [request_of this e]. split; [reflexivity |].
  constructor; [exists e; reflexivity | constructor].
Qed.

Lemma makeCanvasRequest_raises_internal e :
  raises is_InternalError (makeCanvasRequest this w e).
Proof.
  intros log err log' H. rewrite makeCanvasRequest_run in H.
  destruct (answered w e); inversion H. eexists. reflexivity.
Qed.

(** The shape shared by the handlers: binds, loops and requests. *)
Ltac handler_sends :=
  repeat first
    [ apply sends_ret
    | apply sends_throw
    | apply makeCanvasRequest_sends
    | apply sends_for_of; intros ?
    | apply sends_Promise_all3
    | apply sends_bind; [| intros ?]
    | match goal with
      | |- sends _ (if ?c then _ else _) => destruct c
      | |- sends _ (match ?q with _ => _ end) => destruct q
      end ].

Ltac handler_raises :=
  repeat first
    [ apply raises_ret
    | apply makeCanvasRequest_raises_internal
    | apply raises_for_of; intros ?
    | apply raises_Promise_all3
    | apply raises_bind; [| intros ?]
    | match goal with
      | |- raises _ (if ?c then _ else _) => destruct c
      | |- raises _ (match ?q with _ => _ end) => destruct q
      end ].

Lemma dispatch_sends name args :
  sends (authenticated this) (dispatch this w name args).
Proof.
  unfold dispatch, getCourses, getAssignments, getAssignments_fetch,
    allCourseAssignments, getUpcomingAssignments, getUpcomingAssignments_collect,
    getGrades, getCourseProgress, searchAssignments, allCourseAssignments.
  cbv zeta. handler_sends.
Qed.

(** X2: whatever the tool and its arguments, and whether the call
    succeeds or fails, a call only adds to the log of requests, and every
    request it adds goes to an endpoint of the configured Canvas instance
    with the configured token in its [Authorization] header. *)
Theorem CallTool_requests_authenticated name args log r log' :
  CallTool this w name args log = (r, log') ->
  exists sent,
    log' = (log ++ sent)%list /\
    Forall (fun request =>
              exists e,
                Request.url request =
                  (baseUrl (config this) ++ "/api/v1" ++ endpoint_path e)%string /\
                Request.headers request =
                  [ ("Authorization", ("Bearer " ++ accessToken (config this))%string);
                    ("Content-Type", "application/json") ])
           sent.
Proof.
  intros H.
  assert (Hs : sends (authenticated this) (CallTool this w name args)).
  { unfold CallTool. apply sends_try_catch; [apply dispatch_sends |].
    intros e. unfold rethrow. destruct e; apply sends_throw. }
  destruct (Hs _ _ _ H) as (sent & -> & Hall).
  exists sent. split; [reflexivity |].
  eapply Forall_impl; [| exact Hall].
  intros request (e & ->). exists e. split; reflexivity.
Qed.

(** The handlers other than the search throw internal errors only. *)
Lemma dispatch_raises_internal name args :
  (name =? "search_assignments")%string = false ->
  ~ In name (map Tool.name ListTools) \/
  raises is_InternalError (dispatch this w name args).
Proof.
  intros Hs. unfold dispatch.
  repeat match goal with
         | |- _ \/ raises _ (if ?c then _ else _) => destruct c eqn:?
         end;
    try (right;
         unfold getCourses, getAssignments, getAssignments_fetch,
           allCourseAssignments, getUpcomingAssignments,
           getUpcomingAssignments_collect, getGrades, getCourseProgress;
         cbv zeta; solve [handler_raises]).
  - discriminate.
  - left. simpl. intros [E | [E | [E | [E | [E | [E | []]]]]]]; subst name;
      simpl in *; discriminate.
Qed.

(** X3: a call never fails with anything but an [McpError], and the code
    of the error tells the two kinds of failure apart: it is
    method-not-found when the name is none of the six listed by
    [ListTools], and internal-error when it is one of them. *)
Theorem CallTool_error_code name args log e log' :
  CallTool this w name args log = (inl e, log') ->
  exists message,
    e = McpError
          (if existsb (String.eqb name) (map Tool.name ListTools)
           then InternalError else MethodNotFound)
          message.
Proof.
  unfold CallTool, try_catch.
  destruct (dispatch this w name args log) as [[err | r] l1] eqn:E; [| discriminate].
  intros H.
  destruct (String.eqb_spec name "search_assignments") as [-> | Hne].
  - (* the search may throw a TypeError, which is wrapped *)
    simpl existsb.
    destruct err; simpl in H; inversion H; subst; try (eexists; reflexivity).
    assert (Hr : raises is_InternalError (allCourseAssignments this w)).
    { unfold allCourseAssignments. handler_raises. }
    unfold dispatch in E. simpl in E. unfold searchAssignments in E.
    apply bind_throw_inv in E. destruct E as [E | (all & l2 & _ & E)].
    + destruct (Hr _ _ _ E) as (m & Hm). inversion Hm. subst. eexists. reflexivity.
    + apply bind_throw_inv in E. destruct E as [E | (x & l3 & _ & E)]; [| discriminate E].
      destruct (arg args "query"); try discriminate E;
        destruct all; try discriminate E; inversion E;
        try destruct b; discriminate.
  - apply String.eqb_neq in Hne.
    destruct (dispatch_raises_internal name args Hne) as [Hunknown | Hr].
    + replace (existsb (String.eqb name) (map Tool.name ListTools)) with false.
      * unfold dispatch in E.
        rewrite !(unknown_name_eqb name) in E by (assumption || (simpl; tauto)).
        inversion E. subst. simpl in H. inversion H. eexists. reflexivity.
      * symmetry. apply not_true_is_false. intros Hex.
        apply existsb_exists in Hex. destruct Hex as (known & Hin & Heq).
        apply String.eqb_eq in Heq. subst. exact (Hunknown Hin).
    + destruct (Hr _ _ _ E) as (m & ->). simpl in H. inversion H. subst.
      replace (existsb (String.eqb name) (map Tool.name ListTools)) with true;
        [eexists; reflexivity |].
      symmetry. unfold dispatch in E. simpl.
      repeat match goal with
             | |- (?c || _)%bool = true => destruct c eqn:?; [reflexivity | simpl]
             end.
      repeat match goal with
             | Hq : (name =? _)%string = false |- _ => rewrite Hq in E; clear Hq
             end.
      inversion E.
Qed.

End Calls.

(* ================================================================= *)
(** ** The order of the requests *)

Section Order.
Context {rt : Runtime}.
Variable this : CanvasMCPServer.
Variable w : World.

Lemma first_unanswered_all {A} (ep : A -> endpoint) l :
  Forall (fun x => answered w (ep x) <> None) l ->
  first_unanswered w ep l = None /\ until_unanswered w ep l = l.
Proof.
  induction 1 as [| x l Hx Hl [IH1 IH2]]; simpl; [auto |].
  destruct (answered w (ep x)); [| congruence]. rewrite IH1, IH2. auto.
Qed.

Lemma flat_map_answered {A B} (ep : A -> endpoint)
    (g : forall x, body (ep x) -> list B) (h : A -> list B) l :
  (forall x, In x l -> exists data, answered w (ep x) = Some data /\ g x data = h x) ->
  flat_map (fun x => match answered w (ep x) with
                     | Some data => g x data
                     | None => []
                     end) l = flat_map h l.
Proof.
  induction l as [| x l IH]; simpl; intros H; [reflexivity |].
  destruct (H x (or_introl eq_refl)) as (data & -> & ->).
  rewrite IH; [reflexivity |]. intros y Hy. apply H. right. exact Hy.
Qed.

(** The loop shared by get_assignments and search_assignments, in one
    equation. *)
Lemma allCourseAssignments_run log :
  allCourseAssignments this w log =
    match answered w EP_courses with
    | None => (inl (failure_of w EP_courses), (log ++ [request_of this EP_courses])%list)
    | Some courses =>
        (match first_unanswered w assignments_of courses with
         | None =>
             inr (flat_map
                    (fun c => match answered w (assignments_of c) with
                              | Some data => map (tag (Some (Course.name c))) data
                              | None => []
                              end) courses)
         | Some c => inl (failure_of w (assignments_of c))
         end,
         (log ++ request_of this EP_courses
              :: map (fun c => request_of this (assignments_of c))
                     (until_unanswered w assignments_of courses))%list)
    end.
Proof.
  unfold allCourseAssignments, bind. rewrite makeCanvasRequest_run.
  destruct (answered w EP_courses) as [courses |]; [| reflexivity].
  rewrite (for_of_run this w (assignments_of (rt := rt))
             (fun c data => map (tag (Some (Course.name c))) data)).
  rewrite <- app_assoc. reflexivity.
Qed.

(** The loop of get_upcoming_assignments, in one equation. *)
Lemma getUpcomingAssignments_collect_run daysAhead log :
  getUpcomingAssignments_collect this w daysAhead log =
    match answered w EP_courses with
    | None => (inl (failure_of w EP_courses), (log ++ [request_of this EP_courses])%list)
    | Some courses =>
        (match first_unanswered w assignments_of courses with
         | None =>
             inr (flat_map
                    (fun c =>
                       match answered w (assignments_of c) with
                       | Some data =>
                           map (fun a =>
                                  {| Tagged.a := a;
                                     Tagged.course_name := Some (Course.name c);
                                     Tagged.days_until_due := days_until (clock w) a |})
                               (filter (is_upcoming (clock w)
                                          (cutoffDate (clock w) daysAhead)) data)
                       | None => []
                       end) courses)
         | Some c => inl (failure_of w (assignments_of c))
         end,
         (log ++ request_of this EP_courses
              :: map (fun c => request_of this (assignments_of c))
                     (until_unanswered w assignments_of courses))%list)
    end.
Proof.
  unfold getUpcomingAssignments_collect. unfold bind at 1.
  rewrite makeCanvasRequest_run.
  destruct (answered w EP_courses) as [courses |]; [| reflexivity].
  cbv beta iota zeta.
  rewrite (for_of_run this w (assignments_of (rt := rt))
             (fun c data =>
                map (fun a =>
                       {| Tagged.a := a;
                          Tagged.course_name := Some (Course.name c);
                          Tagged.days_until_due := days_until (clock w) a |})
                    (filter (is_upcoming (clock w) (cutoffDate (clock w) daysAhead)) data))).
  rewrite <- app_assoc. reflexivity.
Qed.

(** X4: with no course id (or a falsy one) and [include_completed] true,
    get_assignments asks for the list of active courses and then, course
    by course in the order of that list, for the assignments of each; when
    all of this is answered it returns every assignment of every course,
    in that order, each with the name of its course. *)
Theorem getAssignments_all_courses courseId courses assignments log :
  truthy courseId = false ->
  answered w EP_courses = Some courses ->
  (forall c, In c courses -> answered w (assignments_of c) = Some (assignments c)) ->
  getAssignments this w courseId (JBool true) log =
    (inr (AssignmentsResult
            (flat_map
               (fun c =>
                  map (fun a =>
                         {| AssignmentOut.id := Assignment.id a;
                            AssignmentOut.name := Assignment.name a;
                            AssignmentOut.due_date := Assignment.due_at a;
                            AssignmentOut.points := Assignment.points_possible a;
                            AssignmentOut.course_id := Assignment.course_id a;
                            AssignmentOut.course_name := Some (Course.name c);
                            AssignmentOut.url := Assignment.html_url a |})
                      (assignments c))
               courses)),
     (log ++ request_of this EP_courses
          :: map (fun c => request_of this (assignments_of c)) courses)%list).
Proof.
  intros Hid Hc Ha.
  assert (Hall : Forall (fun c => answered w (assignments_of c) <> None) courses).
  { apply Forall_forall. intros c Hin. rewrite (Ha c Hin). discriminate. }
  destruct (first_unanswered_all assignments_of courses Hall) as [Hnone Hpre].
  unfold getAssignments, getAssignments_fetch, bind. rewrite Hid.
  rewrite allCourseAssignments_run, Hc, Hnone, Hpre. simpl. unfold ret.
  rewrite (flat_map_answered (assignments_of (rt := rt))
             (fun c data => map (tag (Some (Course.name c))) data)
             (fun c => map (tag (Some (Course.name c))) (assignments c)))
    by (intros c Hin; exists (assignments c); auto).
  f_equal. f_equal. f_equal.
  clear. induction courses as [| c l IH]; simpl; [reflexivity |].
  rewrite map_app, IH, map_map. reflexivity.
Qed.

(** X5: the loops over the courses stop at the first request that is
    not answered.  When the assignments of a course cannot be fetched,
    get_assignments, get_upcoming_assignments and search_assignments all
    fail with the failure of that request, return nothing of what the
    earlier courses gave, and send no request for the courses after it. *)
Theorem course_loop_stops_at_first_failure pre c post log :
  answered w EP_courses = Some (pre ++ c :: post)%list ->
  Forall (fun c' => answered w (assignments_of c') <> None) pre ->
  answered w (assignments_of c) = None ->
  let failed :=
    (@inl exn ToolResult (failure_of w (assignments_of c)),
     (log ++ request_of this EP_courses
          :: map (fun c' => request_of this (assignments_of c')) (pre ++ [c]))%list) in
  (forall courseId includeCompleted,
      truthy courseId = false ->
      getAssignments this w courseId includeCompleted log = failed) /\
  (forall daysAhead, getUpcomingAssignments this w daysAhead log = failed) /\
  (forall query, searchAssignments this w query log = failed).
Proof.
  intros Hc Hpre Hx failed.
  destruct (first_unanswered_split w assignments_of pre c post Hpre Hx) as [Hf Hu].
  split; [| split].
  - intros courseId includeCompleted Hid.
    unfold getAssignments, getAssignments_fetch, bind. rewrite Hid.
    rewrite allCourseAssignments_run, Hc, Hf, Hu. reflexivity.
  - intros daysAhead. unfold getUpcomingAssignments, bind.
    rewrite getUpcomingAssignments_collect_run, Hc, Hf, Hu. reflexivity.
  - intros query. unfold searchAssignments, bind.
    rewrite allCourseAssignments_run, Hc, Hf, Hu. reflexivity.
Qed.

(** [getCourseProgress], in one go: the three requests are sent whatever
    happens; with three answers the result is the report, and otherwise
    the failure of one of the requests that got no answer. *)
Lemma getCourseProgress_run courseId log :
  let run := getCourseProgress this w courseId log in
  let course := EP_course (ToString courseId) in
  let enrollments := EP_enrollments (ToString courseId) in
  let assignments := EP_assignments_submission (ToString courseId) in
  snd run =
    (log ++ [ request_of this course; request_of this enrollments;
              request_of this assignments ])%list /\
  match answered w course, answered w enrollments, answered w assignments with
  | Some c, Some e, Some a => fst run = inr (ProgressResult (courseProgress c e a))
  | _, _, _ =>
      exists unanswered,
        In unanswered [course; enrollments; assignments] /\
        answered w unanswered = None /\
        fst run = inl (failure_of w unanswered)
  end.
Proof.
  cbv zeta. unfold getCourseProgress, bind, Promise_all3. cbv zeta. cbn [fst snd].
  rewrite !makeCanvasRequest_run, <- !app_assoc. cbn [fst snd app].
  split.
  - destruct (answered w (EP_course (ToString courseId)));
      destruct (answered w (EP_enrollments (ToString courseId)));
      destruct (answered w (EP_assignments_submission (ToString courseId)));
      reflexivity.
  - destruct (answered w (EP_course (ToString courseId))) eqn:E1;
      destruct (answered w (EP_enrollments (ToString courseId))) eqn:E2;
      destruct (answered w (EP_assignments_submission (ToString courseId))) eqn:E3;
      try reflexivity; unfold sooner; cbn [fst snd];
      repeat match goal with
             | |- context [if ?c then _ else _] => destruct c; cbn [fst snd]
             end;
      first [ exists (EP_course (ToString courseId));
              split; [simpl; tauto | split; [assumption | reflexivity]]
            | exists (EP_enrollments (ToString courseId));
              split; [simpl; tauto | split; [assumption | reflexivity]]
            | exists (EP_assignments_submission (ToString courseId));
              split; [simpl; tauto | split; [assumption | reflexivity]] ].
Qed.

(** X6: get_course_progress always sends the same three requests, for
    the course, for the enrollments and for the assignments with their
    submissions, built from the text of its argument as a template literal
    prints it (the text [undefined] when the argument is missing); it
    sends all three even when one is not answered, and it returns a report
    exactly when all three are answered. *)
Theorem getCourseProgress_three_requests courseId log :
  let run := getCourseProgress this w courseId log in
  let id := ToString courseId in
  snd run =
    (log ++ [ request_of this (EP_course id);
              request_of this (EP_enrollments id);
              request_of this (EP_assignments_submission id) ])%list /\
  ((exists out, fst run = inr (ProgressResult out)) <->
   answered w (EP_course id) <> None /\
   answered w (EP_enrollments id) <> None /\
   answered w (EP_assignments_submission id) <> None).
Proof.
  intros run id. unfold run, id.
  destruct (getCourseProgress_run courseId log) as [Hlog Hres].
  split; [exact Hlog |].
  destruct (answered w (EP_course (ToString courseId))) as [course |];
    destruct (answered w (EP_enrollments (ToString courseId))) as [enrollments |];
    destruct (answered w (EP_assignments_submission (ToString courseId)))
      as [assignments |];
    try (destruct Hres as (unanswered & _ & _ & Hres));
    (split;
     [ intros (out & H); rewrite Hres in H;
       first [discriminate H | repeat split; discriminate]
     | intros (H1 & H2 & H3);
       first [congruence | eexists; exact Hres] ]).
Qed.

(** X7: get_assignments looks at its arguments through their truthiness
    only: any truthy [include_completed], the string ["false"] included,
    switches the filter off, [null] and the other falsy values leave it
    on; and any falsy course id, 0 included, means all courses. *)
Theorem getAssignments_truthiness courseId includeCompleted log :
  getAssignments this w courseId includeCompleted log =
    getAssignments this w courseId (JBool (truthy includeCompleted)) log /\
  (truthy courseId = false ->
   getAssignments this w courseId includeCompleted log =
     getAssignments this w JUndefined includeCompleted log).
Proof.
  split.
  - unfold getAssignments.
    destruct includeCompleted as [| | [] | [s | s | | s m e] | s]; simpl; try reflexivity;
      try (destruct (s =? "")%string; reflexivity).
  - intros H. unfold getAssignments, getAssignments_fetch. rewrite H. reflexivity.
Qed.

(** X8: with a truthy course id, every call of get_assignments sends a
    single request, for the assignments of the course whose id is the
    text of the argument as a template literal prints it, and does not ask
    for the list of courses.  When the request is answered the call
    returns the assignments, without those whose due date has passed or
    cannot be read unless [include_completed] is truthy, and each without
    a course name; when it is not, the call fails with the failure of that
    request. *)
Theorem getAssignments_one_course courseId includeCompleted log :
  truthy courseId = true ->
  let e := EP_assignments (ToString courseId) in
  getAssignments this w courseId includeCompleted log =
    (match answered w e with
     | None => inl (failure_of w e)
     | Some assignments =>
         inr (AssignmentsResult
                (map (fun a =>
                        {| AssignmentOut.id := Assignment.id a;
                           AssignmentOut.name := Assignment.name a;
                           AssignmentOut.due_date := Assignment.due_at a;
                           AssignmentOut.points := Assignment.points_possible a;
                           AssignmentOut.course_id := Assignment.course_id a;
                           AssignmentOut.course_name := None;
                           AssignmentOut.url := Assignment.html_url a |})
                     (if truthy includeCompleted then assignments
                      else filter (fun a =>
                                     negb (due_date_passed_or_unreadable (clock w) a))
                                  assignments)))
     end,
     (log ++ [request_of this e])%list).
Proof.
  intros Hid e. unfold e, getAssignments, getAssignments_fetch, bind. rewrite Hid.
  rewrite makeCanvasRequest_run.
  destruct (answered w (EP_assignments (ToString courseId))) as [assignments |];
    [| reflexivity].
  unfold ret. f_equal. f_equal. f_equal.
  assert (Hdefault :
            truthy (match includeCompleted with JUndefined => JBool false | v => v end) =
            truthy includeCompleted) by (destruct includeCompleted; reflexivity).
  rewrite Hdefault. destruct (truthy includeCompleted); simpl.
  - rewrite map_map. reflexivity.
  - rewrite filter_map_swap, map_map. simpl. f_equal.
    apply filter_ext. intros a. apply still_due_spec.
Qed.

End Order.

(* ================================================================= *)
(** ** More on get_upcoming_assignments *)

Lemma ceil_div_bounds x days d :
  0 < d -> 0 <= x <= days * d -> 0 <= ceil_div x d <= days.
Proof.
  intros Hd [Hx0 Hx]. unfold ceil_div.
  assert (H1 : (- x) / d <= 0 / d) by (apply Z.div_le_mono; lia).
  assert (H2 : (- days * d) / d <= (- x) / d) by (apply Z.div_le_mono; lia).
  rewrite Z.div_0_l in H1 by lia. rewrite Z.div_mul in H2 by lia. lia.
Qed.

Lemma ceil_div_mono x y d : 0 < d -> x <= y -> ceil_div x d <= ceil_div y d.
Proof.
  intros Hd Hxy. unfold ceil_div.
  assert ((- y) / d <= (- x) / d) by (apply Z.div_le_mono; lia). lia.
Qed.

Lemma ceil_div_nonneg x d : 0 < d -> 0 <= x -> 0 <= ceil_div x d.
Proof.
  intros Hd Hx. unfold ceil_div.
  assert (H1 : (- x) / d <= 0 / d) by (apply Z.div_le_mono; lia).
  rewrite Z.div_0_l in H1 by lia. lia.
Qed.

Section UpcomingMore.
Context {rt : Runtime}.
Variable this : CanvasMCPServer.
Variable w : World.

(** The window filter, in words. *)
Lemma is_upcoming_iff now daysAhead a :
  is_upcoming now (cutoffDate now daysAhead) a = true <-> in_window now daysAhead a.
Proof.
  unfold is_upcoming, no_due_at, dueDate, in_window, due_between. split.
  - destruct (Assignment.due_at a) as [s |]; simpl; [| discriminate].
    destruct (s =? "")%string eqn:Es; simpl; [discriminate |].
    destruct (Date_parse s) as [due |] eqn:Ed; simpl; [| discriminate].
    destruct (cutoffDate now daysAhead) as [cutoff |]; simpl;
      [| rewrite andb_false_r; discriminate].
    intros H. apply andb_true_iff in H. destruct H as [H1 H2].
    apply Z.leb_le in H1, H2. apply String.eqb_neq in Es.
    exists cutoff. split; [reflexivity |]. exists s, due. auto.
  - intros (cutoff & -> & s & due & -> & Hne & Hd & Hw). simpl.
    apply String.eqb_neq in Hne. rewrite Hne, Hd. simpl.
    apply andb_true_iff. split; apply Z.leb_le; lia.
Qed.

(** X9: when the list of courses and the assignments of every course
    are answered, get_upcoming_assignments returns exactly the
    assignments whose due date lies in the window, each once for each
    time it was fetched, with the name of its course: nothing that is in
    the window is left out.  The window runs from now to the cutoff date
    that JavaScript computes, both ends included, and holds nothing when
    that cutoff is an Invalid Date; for a whole number of days, computed
    without rounding, whose end is a date, it runs from now to now plus
    that many days. *)
Theorem upcoming_exactly_in_window daysAhead courses assignments log :
  answered w EP_courses = Some courses ->
  (forall c, In c courses -> answered w (assignments_of c) = Some (assignments c)) ->
  exists items,
    getUpcomingAssignments this w daysAhead log =
      (inr (UpcomingResult items),
       (log ++ request_of this EP_courses
            :: map (fun c => request_of this (assignments_of c)) courses)%list) /\
    Permutation items
      (flat_map (fun c =>
                   map (upcoming_item (clock w) c)
                       (filter (is_upcoming (clock w) (cutoffDate (clock w) daysAhead))
                               (assignments c)))
                courses) /\
    (forall item,
        In item items <->
        exists c a,
          In c courses /\ In a (assignments c) /\
          in_window (clock w) daysAhead a /\
          item = upcoming_item (clock w) c a) /\
    (cutoffDate (clock w) daysAhead = NaN -> items = []) /\
    (forall days,
        ToNumber daysAhead = of_int days -> whole_days (clock w) days ->
        Z.abs (clock w + days * 86400000) <= 8640000000000000 ->
        forall item,
          In item items <->
          exists c a,
            In c courses /\ In a (assignments c) /\
            due_between (clock w) (clock w + days * 86400000) a /\
            item = upcoming_item (clock w) c a).
Proof.
  intros Hc Ha.
  assert (Hall : Forall (fun c => answered w (assignments_of c) <> None) courses).
  { apply Forall_forall. intros c Hin. rewrite (Ha c Hin). discriminate. }
  destruct (first_unanswered_all w assignments_of courses Hall) as [Hnone Hpre].
  set (collected :=
         flat_map (fun c =>
                     map (fun a =>
                            {| Tagged.a := a;
                               Tagged.course_name := Some (Course.name c);
                               Tagged.days_until_due := days_until (clock w) a |})
                         (filter (is_upcoming (clock w) (cutoffDate (clock w) daysAhead))
                                 (assignments c)))
                  courses).
  assert (Hrun : getUpcomingAssignments_collect this w daysAhead log =
                 (inr collected,
                  (log ++ request_of this EP_courses
                       :: map (fun c => request_of this (assignments_of c)) courses)%list)).
  { rewrite getUpcomingAssignments_collect_run, Hc, Hnone, Hpre.
    f_equal. f_equal. unfold collected.
    apply (flat_map_answered w (assignments_of (rt := rt))
             (fun c data =>
                map (fun a =>
                       {| Tagged.a := a;
                          Tagged.course_name := Some (Course.name c);
                          Tagged.days_until_due := days_until (clock w) a |})
                    (filter (is_upcoming (clock w) (cutoffDate (clock w) daysAhead)) data))).
    intros c Hin. exists (assignments c). auto. }
  assert (Hout : map upcoming_out collected =
                 flat_map (fun c =>
                             map (upcoming_item (clock w) c)
                                 (filter (is_upcoming (clock w)
                                            (cutoffDate (clock w) daysAhead))
                                         (assignments c)))
                          courses).
  { unfold collected. clear. induction courses as [| c l IH]; simpl; [reflexivity |].
    rewrite map_app, IH, map_map. reflexivity. }
  exists (map upcoming_out (Array_sort by_due_at collected)).
  assert (Hperm : Permutation (map upcoming_out (Array_sort by_due_at collected))
                              (map upcoming_out collected))
    by (apply Permutation_map, Array_sort_perm).
  assert (Hmem : forall item,
             In item (map upcoming_out (Array_sort by_due_at collected)) <->
             exists c a,
               In c courses /\ In a (assignments c) /\
               in_window (clock w) daysAhead a /\
               item = upcoming_item (clock w) c a).
  { intros item. split.
    - intros Hin. apply (Permutation_in _ Hperm) in Hin. rewrite Hout in Hin.
      apply in_flat_map in Hin. destruct Hin as (c & Hc' & Hin).
      apply in_map_iff in Hin. destruct Hin as (a & <- & Hin).
      apply filter_In in Hin. destruct Hin as [Hin Hup].
      exists c, a. repeat split; auto. apply is_upcoming_iff. exact Hup.
    - intros (c & a & Hc' & Hin & Hwin & ->).
      apply (Permutation_in _ (Permutation_sym Hperm)). rewrite Hout.
      apply in_flat_map. exists c. split; [exact Hc' |].
      apply in_map. apply filter_In. split; [exact Hin |].
      apply is_upcoming_iff. exact Hwin. }
  split; [| split; [| split; [| split]]].
  - unfold getUpcomingAssignments, bind. rewrite Hrun. reflexivity.
  - rewrite <- Hout. exact Hperm.
  - exact Hmem.
  - intros Hnan.
    destruct (map upcoming_out (Array_sort by_due_at collected)) as [| item rest] eqn:E;
      [reflexivity |].
    exfalso. destruct (proj1 (Hmem item) (or_introl eq_refl))
      as (_ & _ & _ & _ & (cutoff & Hcut & _) & _).
    unfold NaN in Hnan. congruence.
  - intros days Hn Hwhole Hdate item. rewrite Hmem.
    pose proof (cutoffDate_whole_days (clock w) daysAhead days Hn Hwhole) as Hcut.
    apply Z.leb_le in Hdate. rewrite Hdate in Hcut.
    split; intros (c & a & Hc' & Hin & Hwin & Hitem); exists c, a;
      repeat (split; [assumption |]); (split; [| exact Hitem]).
    + destruct Hwin as (cutoff & Hcut' & Hb). rewrite Hcut in Hcut'.
      inversion Hcut'. subst cutoff. exact Hb.
    + exists (clock w + days * 86400000). split; [exact Hcut | exact Hwin].
Qed.

(** X10: the number of days shown with an upcoming assignment is a
    whole number, at least 0 and at most the length of the window, from
    now to the cutoff date, in days rounded up.  For a whole number of
    days, computed without rounding, it is at most the number of days
    asked for. *)
Theorem upcoming_days_until_due_bounds daysAhead log items log' :
  getUpcomingAssignments this w daysAhead log = (inr (UpcomingResult items), log') ->
  Forall (fun item =>
            exists n cutoff,
              UpcomingOut.days_until_due item = Some n /\
              cutoffDate (clock w) daysAhead = Some cutoff /\
              0 <= n <= ceil_div (cutoff - clock w) 86400000)
         items /\
  (forall days,
      ToNumber daysAhead = of_int days -> whole_days (clock w) days ->
      Forall (fun item =>
                exists n, UpcomingOut.days_until_due item = Some n /\ 0 <= n <= days)
             items).
Proof.
  intros H. apply getUpcomingAssignments_inv in H. destruct H as (collected & Hc & ->).
  apply getUpcomingAssignments_collect_spec in Hc.
  assert (Hall : Forall (fun item =>
            exists due cutoff,
              UpcomingOut.days_until_due item = Some (ceil_div (due - clock w) 86400000) /\
              cutoffDate (clock w) daysAhead = Some cutoff /\
              clock w <= due <= cutoff)
            (map upcoming_out (Array_sort (by_key (fun t => dueDate (Tagged.a t)))
                                          collected))).
  { apply Forall_forall. intros item Hitem.
    apply in_map_iff in Hitem. destruct Hitem as (t & <- & Ht).
    assert (Hin : In t collected)
      by (eapply Permutation_in; [apply Array_sort_perm | exact Ht]).
    rewrite Forall_forall in Hc. destruct (Hc t Hin) as [Hup Hdays].
    apply is_upcoming_iff in Hup.
    destruct Hup as (cutoff & Hcut & s & due & Hs & _ & Hd & Hw).
    exists due, cutoff. simpl. split; [| auto].
    rewrite Hdays. unfold days_until, dueDate. rewrite Hs, Hd. reflexivity. }
  split.
  - eapply Forall_impl; [| exact Hall].
    intros item (due & cutoff & Hn & Hcut & Hw).
    exists (ceil_div (due - clock w) 86400000), cutoff.
    split; [exact Hn |]. split; [exact Hcut |]. split.
    + apply ceil_div_nonneg; lia.
    + apply ceil_div_mono; lia.
  - intros days Hn Hwhole. eapply Forall_impl; [| exact Hall].
    intros item (due & cutoff & Hdays & Hcut & Hw).
    rewrite (cutoffDate_whole_days _ _ _ Hn Hwhole) in Hcut.
    destruct (Z.abs (clock w + days * 86400000) <=? 8640000000000000);
      [| discriminate Hcut].
    inversion Hcut. subst cutoff.
    exists (ceil_div (due - clock w) 86400000). split; [exact Hdays |].
    apply ceil_div_bounds; lia.
Qed.

(** X11: when the number of days is not a number (a text such as
    ["soon"]), or is a whole number of days, computed without rounding,
    that is negative or leads past the last date a [Date] can hold,
    get_upcoming_assignments does not fail: it returns the empty list. *)
Theorem upcoming_empty_without_window daysAhead log items log' :
  no_window (clock w) daysAhead ->
  getUpcomingAssignments this w daysAhead log = (inr (UpcomingResult items), log') ->
  items = [].
Proof.
  intros Hno H. apply getUpcomingAssignments_inv in H.
  destruct H as (collected & Hc & ->).
  apply getUpcomingAssignments_collect_spec in Hc.
  destruct collected as [| t rest]; [reflexivity |].
  exfalso. inversion Hc as [| ? ? [Hup _] _]. subst.
  apply is_upcoming_iff in Hup.
  destruct Hup as (cutoff & Hcut & s & due & _ & _ & _ & Hw).
  destruct Hno as [Hnan | (days & Hn & Hwhole & Hout)].
  - rewrite (cutoffDate_NaN _ _ Hnan) in Hcut. discriminate Hcut.
  - rewrite (cutoffDate_whole_days _ _ _ Hn Hwhole) in Hcut.
    destruct (Z.leb_spec (Z.abs (clock w + days * 86400000)) 8640000000000000);
      [| discriminate Hcut].
    inversion Hcut. subst cutoff. lia.
Qed.

End UpcomingMore.

(* ================================================================= *)
(** ** More on search_assignments *)

Lemma includes_empty s : includes s "" = true.
Proof. destruct s; reflexivity. Qed.

Section SearchMore.
Context {rt : Runtime}.
Variable this : CanvasMCPServer.
Variable w : World.

(** X12: the empty query matches everything: where lower-casing the
    empty string gives the empty string, search_assignments with the query
    [""] returns every gathered assignment, in order. *)
Theorem search_empty_query_returns_all log all log' :
  toLowerCase "" = "" ->
  allCourseAssignments this w log = (inr all, log') ->
  searchAssignments this w (JString "") log =
    (inr (SearchResult (JString "") (map search_out all)), log').
Proof.
  intros Hlow H. unfold searchAssignments, bind. rewrite H. simpl.
  replace (filter (matches "") all) with all; [reflexivity |].
  symmetry. apply forallb_filter_id. apply forallb_forall. intros t _.
  unfold matches. rewrite Hlow, includes_empty. reflexivity.
Qed.

(** X13: a call of search_assignments whose [query] is missing, or is
    not a string, sends all its requests first.  If they bring no
    assignment at all it succeeds with an empty result; if they bring at
    least one it fails with an internal error that names the tool. *)
Theorem search_without_text_query args log all log' :
  (forall s, arg args "query" <> JString s) ->
  allCourseAssignments this w log = (inr all, log') ->
  match all with
  | [] =>
      CallTool this w "search_assignments" args log =
        (inr (SearchResult (arg args "query") []), log')
  | _ :: _ =>
      exists message,
        CallTool this w "search_assignments" args log =
          (inl (McpError InternalError
                  ("Error executing search_assignments: " ++ message)%string), log')
  end.
Proof.
  intros Hq H. unfold CallTool, try_catch, dispatch. simpl.
  unfold searchAssignments, bind. rewrite H.
  destruct all as [| t rest].
  - destruct (arg args "query") as [| | b | n | s]; reflexivity.
  - destruct (arg args "query") as [| | b | n | s]; simpl;
      try (eexists; reflexivity).
    exfalso. exact (Hq s eq_refl).
Qed.

End SearchMore.

(* ================================================================= *)
(** ** More on get_course_progress, get_grades and get_courses *)

Lemma is_submitted_false_iff a : is_submitted a = false <-> not_submitted a.
Proof.
  unfold is_submitted, not_submitted.
  destruct (Assignment.submission a) as [s |]; [| split; auto].
  destruct (Submission.submitted_at s) as [t |] eqn:Et; simpl.
  - split.
    + intros H. apply negb_false_iff, String.eqb_eq in H. subst t.
      right. exists s. auto.
    + intros [H | (s' & H & Hs)]; [discriminate H |].
      inversion H. subst s'. rewrite Et in Hs.
      destruct Hs as [Hn | He]; [discriminate Hn |].
      inversion He. reflexivity.
  - split; [intros _ | reflexivity]. right. exists s. auto.
Qed.

Section Reports.
Context {rt : Runtime}.
Variable this : CanvasMCPServer.
Variable w : World.

(** X14: in the report of get_course_progress every fetched assignment
    is counted once, as completed or as pending; the pending list has as
    many entries as the pending count says and is, entry by entry and in
    the order in which they were fetched, the list of the assignments
    without a submission time; and an empty list of enrollments gives
    absent grade fields, not a failure. *)
Theorem getCourseProgress_pending courseId log out log' :
  getCourseProgress this w courseId log = (inr (ProgressResult out), log') ->
  exists enrollments assignments,
    answered w (EP_enrollments (ToString courseId)) = Some enrollments /\
    answered w (EP_assignments_submission (ToString courseId)) = Some assignments /\
    let p := ProgressOut.progress out in
    (Progress.completed_assignments p + Progress.pending_assignments p
       = Progress.total_assignments p)%nat /\
    List.length (ProgressOut.pending_assignments out) = Progress.pending_assignments p /\
    (forall pending : Assignment.t -> bool,
        (forall a, pending a = true <-> not_submitted a) ->
        ProgressOut.pending_assignments out =
          map (fun a => {| PendingOut.name := Assignment.name a;
                           PendingOut.due_date := Assignment.due_at a;
                           PendingOut.points_possible := Assignment.points_possible a |})
              (filter pending assignments)) /\
    (enrollments = [] ->
     GradeInfo.current_grade (ProgressOut.grade_info out) = None /\
     GradeInfo.current_score (ProgressOut.grade_info out) = None).
Proof.
  intros H. destruct (getCourseProgress_run this w courseId log) as [_ Hres].
  rewrite H in Hres. cbn [fst] in Hres.
  destruct (answered w (EP_course (ToString courseId))) as [course |];
    destruct (answered w (EP_enrollments (ToString courseId))) as [enrollments |];
    destruct (answered w (EP_assignments_submission (ToString courseId)))
      as [assignments |];
    try (destruct Hres as (unanswered & _ & _ & Hres); discriminate Hres).
  inversion Hres. subst out.
  exists enrollments, assignments. split; [reflexivity |]. split; [reflexivity |].
  simpl. split; [| split; [| split]].
  - rewrite (filter_length is_submitted assignments). reflexivity.
  - apply length_map.
  - intros pending Hpending. unfold pending_out. f_equal.
    apply filter_ext. intros a.
    destruct (pending a) eqn:Ep.
    + apply Hpending, is_submitted_false_iff in Ep. rewrite Ep. reflexivity.
    + destruct (is_submitted a) eqn:Es; [reflexivity |].
      apply is_submitted_false_iff, Hpending in Es. congruence.
  - intros ->. split; reflexivity.
Qed.

(** X15: with no course id (or a falsy one) get_grades asks for the
    active courses, with their total scores, and then for the enrollments
    of each course in turn; when all is answered it returns one entry per
    course, in order, with the name and id of the course and the grade of
    the first enrollment, and without a list of assignments. *)
Theorem getGrades_all_courses courseId courses enrollments log :
  truthy courseId = false ->
  answered w EP_courses_total_scores = Some courses ->
  (forall c, In c courses -> answered w (enrollments_of c) = Some (enrollments c)) ->
  getGrades this w courseId log =
    (inr (GradesResult
            (map (fun c =>
                    {| GradeOut.course_name := Some (Course.name c);
                       GradeOut.course_id := JNumber (Course.id c);
                       GradeOut.current_grade := current_grade (enrollments c);
                       GradeOut.current_score := current_score (enrollments c);
                       GradeOut.assignments := None |})
                 courses)),
     (log ++ request_of this EP_courses_total_scores
          :: map (fun c => request_of this (enrollments_of c)) courses)%list).
Proof.
  intros Hid Hc He.
  assert (Hall : Forall (fun c => answered w (enrollments_of c) <> None) courses).
  { apply Forall_forall. intros c Hin. rewrite (He c Hin). discriminate. }
  destruct (first_unanswered_all w enrollments_of courses Hall) as [Hnone Hpre].
  unfold getGrades. rewrite Hid. unfold bind at 1. unfold bind at 1.
  rewrite makeCanvasRequest_run, Hc. cbv beta iota zeta.
  rewrite (for_of_run this w (enrollments_of (rt := rt))
             (fun c data =>
                [ {| GradeOut.course_name := Some (Course.name c);
                     GradeOut.course_id := JNumber (Course.id c);
                     GradeOut.current_grade := current_grade data;
                     GradeOut.current_score := current_score data;
                     GradeOut.assignments := None |} ])).
  rewrite Hnone, Hpre, <- app_assoc. unfold ret. simpl.
  f_equal. f_equal. f_equal.
  rewrite (flat_map_answered w (enrollments_of (rt := rt)) _
             (fun c =>
                [ {| GradeOut.course_name := Some (Course.name c);
                     GradeOut.course_id := JNumber (Course.id c);
                     GradeOut.current_grade := current_grade (enrollments c);
                     GradeOut.current_score := current_score (enrollments c);
                     GradeOut.assignments := None |} ]))
    by (intros c Hin; exists (enrollments c); auto).
  clear. induction courses as [| c l IH]; simpl; [reflexivity |].
  rewrite IH. reflexivity.
Qed.

(** X16: with a truthy course id get_grades asks for the enrollments
    and then for the assignments with their submissions, and does not ask
    for the second when the first is not answered; when both are answered
    it returns a single entry that repeats the course id as it was given,
    has no course name, and lists one line per assignment, in order. *)
Theorem getGrades_one_course courseId log :
  truthy courseId = true ->
  let id := ToString courseId in
  getGrades this w courseId log =
    match answered w (EP_enrollments id) with
    | None =>
        (inl (failure_of w (EP_enrollments id)),
         (log ++ [request_of this (EP_enrollments id)])%list)
    | Some enrollments =>
        (match answered w (EP_assignments_submission id) with
         | None => inl (failure_of w (EP_assignments_submission id))
         | Some assignments =>
             inr (GradesResult
                    [ {| GradeOut.course_name := None;
                         GradeOut.course_id := courseId;
                         GradeOut.current_grade := current_grade enrollments;
                         GradeOut.current_score := current_score enrollments;
                         GradeOut.assignments :=
                           Some (map (fun a =>
                                        {| ScoreOut.name := Assignment.name a;
                                           ScoreOut.score :=
                                             match Assignment.submission a with
                                             | Some s => Submission.score s
                                             | None => None
                                             end;
                                           ScoreOut.grade :=
                                             match Assignment.submission a with
                                             | Some s => Submission.grade s
                                             | None => None
                                             end;
                                           ScoreOut.points_possible :=
                                             Assignment.points_possible a |})
                                     assignments) |} ])
         end,
         (log ++ [ request_of this (EP_enrollments id);
                   request_of this (EP_assignments_submission id) ])%list)
    end.
Proof.
  intros Hid id. unfold id, getGrades, bind. rewrite Hid.
  rewrite makeCanvasRequest_run.
  destruct (answered w (EP_enrollments (ToString courseId))) as [enrollments |];
    [| reflexivity].
  rewrite makeCanvasRequest_run, <- app_assoc.
  destruct (answered w (EP_assignments_submission (ToString courseId)));
    reflexivity.
Qed.

(** X17: get_courses pays no attention to its arguments and sends a
    single request.  When it is answered the result has one entry per
    course, in order, with the course code under [code]; when it is not,
    the caller gets the failure that the client built, not wrapped again
    by the dispatcher. *)
Theorem CallTool_get_courses args log :
  CallTool this w "get_courses" args log =
    (match answered w EP_courses with
     | Some courses =>
         inr (CoursesResult
                (map (fun c => {| CourseOut.id := Course.id c;
                                  CourseOut.name := Course.name c;
                                  CourseOut.code := Course.course_code c |})
                     courses))
     | None =>
         inl (McpError InternalError
                ("Failed to fetch from Canvas: " ++ failure_text w EP_courses)%string)
     end,
     (log ++ [request_of this EP_courses])%list).
Proof.
  unfold CallTool, try_catch, dispatch. simpl. unfold getCourses, bind.
  rewrite makeCanvasRequest_run.
  destruct (answered w EP_courses); reflexivity.
Qed.

Lemma CallTool_sends name args :
  sends (authenticated this) (CallTool this w name args).
Proof.
  unfold CallTool. apply sends_try_catch; [apply dispatch_sends |].
  intros e. unfold rethrow. destruct e; apply sends_throw.
Qed.

End Reports.

(** X18: a server started with a token serves every call with what the
    environment says: each request goes to [CANVAS_BASE_URL], or to the
    built-in address when that variable is absent or empty, and carries
    [CANVAS_ACCESS_TOKEN] as its bearer token. *)
Theorem start_and_call_uses_environment {rt : Runtime} env w name args token log r log' :
  ProcessEnv.CANVAS_ACCESS_TOKEN env = Some token ->
  token <> "" ->
  start_and_call env w name args log = (r, log') ->
  let base :=
    match ProcessEnv.CANVAS_BASE_URL env with
    | Some url => if (url =? "")%string then "https://bruinlearn.ucla.edu" else url
    | None => "https://bruinlearn.ucla.edu"
    end in
  exists sent,
    log' = (log ++ sent)%list /\
    Forall (fun request =>
              (exists e, Request.url request = (base ++ "/api/v1" ++ endpoint_path e)%string) /\
              Request.headers request =
                [ ("Authorization", ("Bearer " ++ token)%string);
                  ("Content-Type", "application/json") ])
           sent.
Proof.
  intros Ht Hne H base.
  unfold start_and_call, bind, constructor in H. simpl in H. rewrite Ht in H.
  simpl in H. apply String.eqb_neq in Hne. rewrite !Hne in H. simpl in H.
  destruct (CallTool_sends _ w name args _ _ _ H) as (sent & -> & Hall).
  exists sent. split; [reflexivity |].
  eapply Forall_impl; [| exact Hall].
  intros request (e & ->). simpl. split; [exists e |]; reflexivity.
Qed.

(* ================================================================= *)
(** ** The registry and the dispatcher agree *)

Lemma arg_with_arg key v args key' :
  arg (with_arg key v args) key' =
    if (key =? key')%string then v else arg args key'.
Proof.
  unfold with_arg, arg. simpl. destruct (key =? key')%string; [reflexivity |].
  destruct args; reflexivity.
Qed.

(** X19: every default that list-tools advertises is the one the
    dispatcher applies: calling a tool with an argument left out is the
    same as calling it with that argument set to the default in the
    tool's schema (7 for [days_ahead], [false] for [include_completed]). *)
Theorem advertised_defaults_applied {rt : Runtime} this w tool key property default
    args log :
  In tool ListTools ->
  In (key, property) (InputSchema.properties (Tool.inputSchema tool)) ->
  Property.default property = Some default ->
  arg args key = JUndefined ->
  CallTool this w (Tool.name tool) (with_arg key default args) log =
  CallTool this w (Tool.name tool) args log.
Proof.
  intros Htool Hprop Hdef Hmissing.
  simpl in Htool.
  destruct Htool as [<- | [<- | [<- | [<- | [<- | [<- | []]]]]]]; simpl in Hprop;
    repeat match goal with
           | H : _ \/ _ |- _ => destruct H as [H | H]
           | H : False |- _ => destruct H
           | H : (_, _) = (_, _) |- _ => inversion H; subst; clear H
           end;
    simpl in Hdef; try discriminate Hdef; inversion Hdef; subst default.
  - (* include_completed *)
    unfold CallTool, dispatch. cbn [Tool.name String.eqb Ascii.eqb Bool.eqb].
    rewrite !arg_with_arg. cbn [String.eqb Ascii.eqb Bool.eqb].
    rewrite Hmissing. reflexivity.
  - (* days_ahead *)
    unfold CallTool, dispatch. cbn [Tool.name String.eqb Ascii.eqb Bool.eqb].
    rewrite !arg_with_arg. cbn [String.eqb Ascii.eqb Bool.eqb].
    rewrite Hmissing. reflexivity.
Qed.

(* ================================================================= *)
(** ** The further properties at work *)

Lemma CallTool_requests_authenticated_witness :
  let run := CallTool (rt := Engine.runtime) Examples.server Examples.world
               "get_assignments" None [] in
  run = (fst run, snd run) /\
  Forall (fun request =>
            Request.headers request =
              [ ("Authorization", "Bearer token"); ("Content-Type", "application/json") ])
         (snd run).
Proof.
  intros run.
  assert (H : run = (fst run, snd run)) by (vm_compute; reflexivity).
  split; [exact H |].
  destruct (CallTool_requests_authenticated (rt := Engine.runtime) Examples.server
              Examples.world "get_assignments" None [] (fst run) (snd run) H)
    as (sent & Hs & Hall).
  rewrite Hs. simpl app. eapply Forall_impl; [| exact Hall].
  intros request (e & _ & Hh). exact Hh.
Defined.

Lemma CallTool_error_code_witness :
  let run := CallTool (rt := Engine.runtime) Examples.server Examples.offline
               "get_grades" None [] in
  run = (inl (McpError InternalError "Failed to fetch from Canvas: fetch failed"), snd run) /\
  exists message,
    McpError InternalError "Failed to fetch from Canvas: fetch failed" =
    McpError InternalError message.
Proof.
  intros run.
  assert (H : run = (inl (McpError InternalError "Failed to fetch from Canvas: fetch failed"),
                     snd run)) by (vm_compute; reflexivity).
  split; [exact H |].
  exact (CallTool_error_code (rt := Engine.runtime) Examples.server Examples.offline
           "get_grades" None [] _ _ H).
Defined.

Lemma examples_assignments_answered c :
  In c [Examples.math; Examples.history] ->
  answered Examples.world (assignments_of (rt := Engine.runtime) c) =
    Some (MoreExamples.assignments c).
Proof. intros [<- | [<- | []]]; vm_compute; reflexivity. Qed.

Lemma getAssignments_all_courses_witness :
  truthy (JNumber (S754_zero false)) = false /\
  answered Examples.world EP_courses = Some [Examples.math; Examples.history] /\
  match fst (getAssignments (rt := Engine.runtime) Examples.server Examples.world
               (JNumber (S754_zero false)) (JBool true) []) with
  | inr (AssignmentsResult results) =>
      map AssignmentOut.name results =
        ["Midterm"; "Homework"; "Quiz"; "Warm-up"; "Reading"; "Essay"]
  | _ => False
  end.
Proof.
  split; [reflexivity |]. split; [reflexivity |].
  rewrite (getAssignments_all_courses (rt := Engine.runtime) Examples.server
             Examples.world (JNumber (S754_zero false)) [Examples.math; Examples.history]
             MoreExamples.assignments [] eq_refl eq_refl examples_assignments_answered).
  vm_compute. reflexivity.
Defined.

Lemma course_loop_stops_at_first_failure_witness :
  answered MoreExamples.world EP_courses =
    Some ([Examples.math] ++ MoreExamples.archived :: [Examples.history])%list /\
  answered MoreExamples.world (assignments_of (rt := Engine.runtime) MoreExamples.archived) =
    None /\
  map Request.url
      (snd (getUpcomingAssignments (rt := Engine.runtime) Examples.server
              MoreExamples.world (JNumber (of_int 7)) [])) =
    [ "https://bruinlearn.ucla.edu/api/v1/courses?enrollment_state=active&per_page=100";
      "https://bruinlearn.ucla.edu/api/v1/courses/1/assignments?per_page=100";
      "https://bruinlearn.ucla.edu/api/v1/courses/3/assignments?per_page=100" ].
Proof.
  assert (Hunanswered : answered MoreExamples.world
                          (assignments_of (rt := Engine.runtime) MoreExamples.archived) = None)
    by (vm_compute; reflexivity).
  split; [reflexivity |]. split; [exact Hunanswered |].
  assert (Hpre : Forall (fun c' => answered MoreExamples.world
                                     (assignments_of (rt := Engine.runtime) c') <> None)
                        [Examples.math])
    by (constructor; [vm_compute; discriminate | constructor]).
  rewrite (proj1 (proj2 (course_loop_stops_at_first_failure (rt := Engine.runtime)
                           Examples.server MoreExamples.world
                           [Examples.math] MoreExamples.archived [Examples.history] []
                           eq_refl Hpre Hunanswered)) (JNumber (of_int 7))).
  vm_compute. reflexivity.
Defined.

Lemma getAssignments_truthiness_witness :
  truthy (JString "") = false /\
  getAssignments (rt := Engine.runtime) Examples.server Examples.world
    (JString "") (JString "false") [] =
  getAssignments (rt := Engine.runtime) Examples.server Examples.world
    JUndefined (JString "false") [].
Proof.
  split; [reflexivity |].
  exact (proj2 (getAssignments_truthiness (rt := Engine.runtime) Examples.server
                  Examples.world (JString "") (JString "false") []) eq_refl).
Defined.

Lemma getAssignments_one_course_witness :
  truthy (JNumber MoreExamples.sextillion) = true /\
  map Request.url
      (snd (getAssignments (rt := Engine.runtime) Examples.server Examples.world
              (JNumber MoreExamples.sextillion) JUndefined [])) =
    [ "https://bruinlearn.ucla.edu/api/v1/courses/1e+21/assignments?per_page=100" ] /\
  truthy (JString "2") = true /\
  match fst (getAssignments (rt := Engine.runtime) Examples.server Examples.world
               (JString "2") (JString "yes") []) with
  | inr (AssignmentsResult results) =>
      map AssignmentOut.course_name results = [None]
  | _ => False
  end.
Proof.
  split; [reflexivity |]. split; [| split; [reflexivity |]].
  - rewrite (getAssignments_one_course (rt := Engine.runtime) Examples.server
               Examples.world (JNumber MoreExamples.sextillion) JUndefined [] eq_refl).
    vm_compute. reflexivity.
  - rewrite (getAssignments_one_course (rt := Engine.runtime) Examples.server
               Examples.world (JString "2") (JString "yes") [] eq_refl).
    vm_compute. reflexivity.
Defined.

(** The three requests of get_course_progress for the course 1e21. *)
Example getCourseProgress_requests :
  map Request.url
      (snd (getCourseProgress (rt := Engine.runtime) Examples.server Examples.world
              (JNumber MoreExamples.sextillion) [])) =
    [ "https://bruinlearn.ucla.edu/api/v1/courses/1e+21";
      "https://bruinlearn.ucla.edu/api/v1/courses/1e+21/enrollments?user_id=self&include[]=grades";
      "https://bruinlearn.ucla.edu/api/v1/courses/1e+21/assignments?include[]=submission&per_page=100" ].
Proof. vm_compute. reflexivity. Qed.

(** Of two requests that fail, the one that fails first decides: the
    enrollments, though the course comes first in the array. *)
Example getCourseProgress_first_failure :
  fst (getCourseProgress (rt := Engine.runtime) Examples.server MoreExamples.flaky
         (JNumber (of_int 5)) []) =
    inl (McpError InternalError "Failed to fetch from Canvas: socket hang up").
Proof. vm_compute. reflexivity. Qed.

Lemma upcoming_exactly_in_window_witness :
  answered Examples.world EP_courses = Some [Examples.math; Examples.history] /\
  exists items,
    fst (getUpcomingAssignments (rt := Engine.runtime) Examples.server Examples.world
           (JNumber (of_int 7)) []) = inr (UpcomingResult items) /\
    List.length items = 3%nat /\
    In (upcoming_item (rt := Engine.runtime) 1705000000000 Examples.history
          (Examples.assignment 7 "Essay" (Some "2024-01-13T00:00:00Z") None))
       items.
Proof.
  split; [reflexivity |].
  destruct (upcoming_exactly_in_window (rt := Engine.runtime) Examples.server
              Examples.world (JNumber (of_int 7)) [Examples.math; Examples.history]
              MoreExamples.assignments [] eq_refl examples_assignments_answered)
    as (items & Hrun & Hperm & _ & _ & Hwhole).
  exists items. split; [rewrite Hrun; reflexivity |]. split.
  - rewrite (Permutation_length Hperm). vm_compute. reflexivity.
  - apply (Hwhole 7); [reflexivity | | simpl clock; lia |].
    + unfold whole_days. simpl clock. change (2 ^ 53) with 9007199254740992. lia.
    + exists Examples.history,
        (Examples.assignment 7 "Essay" (Some "2024-01-13T00:00:00Z") None).
      split; [simpl; tauto |]. split; [vm_compute; tauto |].
      split; [| reflexivity].
      exists "2024-01-13T00:00:00Z", 1705104000000.
      split; [reflexivity |]. split; [discriminate |].
      split; [vm_compute; reflexivity |]. simpl clock. lia.
Defined.

Lemma upcoming_days_until_due_bounds_witness :
  let run := getUpcomingAssignments (rt := Engine.runtime) Examples.server Examples.world
               (JNumber (of_int 7)) [] in
  run = (inr (UpcomingResult Examples.upcoming_items), snd run) /\
  Forall (fun item =>
            exists n, UpcomingOut.days_until_due item = Some n /\ 0 <= n <= 7)
         Examples.upcoming_items.
Proof.
  intros run.
  assert (H : run = (inr (UpcomingResult Examples.upcoming_items), snd run))
    by (vm_compute; reflexivity).
  split; [exact H |].
  apply (proj2 (upcoming_days_until_due_bounds (rt := Engine.runtime) Examples.server
                  Examples.world (JNumber (of_int 7)) [] Examples.upcoming_items
                  (snd run) H) 7); [reflexivity |].
  unfold whole_days. simpl clock. change (2 ^ 53) with 9007199254740992. lia.
Defined.

(** With half a day asked for, the survey due in a millisecond is shown
    as due in one day: more than the days asked for. *)
Example half_a_day :
  match fst (getUpcomingAssignments (rt := Engine.runtime) Examples.server
               Examples.world_closing (JNumber Examples.half) []) with
  | inr (UpcomingResult items) =>
      map (fun item => (UpcomingOut.name item, UpcomingOut.days_until_due item)) items =
        [ ("Poll", Some 0); ("Survey", Some 1) ]
  | _ => False
  end.
Proof. vm_compute. reflexivity. Qed.

Lemma upcoming_empty_without_window_witness :
  let run := getUpcomingAssignments (rt := Engine.runtime) Examples.server Examples.world
               (JString "soon") [] in
  no_window (rt := Engine.runtime) (clock Examples.world) (JString "soon") /\
  run = (inr (UpcomingResult []), snd run).
Proof.
  intros run.
  assert (Hno : no_window (rt := Engine.runtime) (clock Examples.world) (JString "soon"))
    by (left; reflexivity).
  split; [exact Hno |].
  destruct run as [[e | [| | items | | |]] log'] eqn:E;
    try (vm_compute in E; discriminate E).
  rewrite (upcoming_empty_without_window (rt := Engine.runtime) Examples.server
             Examples.world (JString "soon") [] items log' Hno E).
  reflexivity.
Defined.

(** A negative number of days, and one that leads past the last date. *)
Example no_window_examples :
  no_window (rt := Engine.runtime) 1705000000000 (JNumber (of_int (-3))) /\
  no_window (rt := Engine.runtime) 1705000000000 (JNumber (of_int 100000000)) /\
  fst (getUpcomingAssignments (rt := Engine.runtime) Examples.server Examples.world
         (JNumber (of_int 100000000)) []) = inr (UpcomingResult []).
Proof.
  split; [| split].
  - right. exists (-3). split; [reflexivity |].
    unfold whole_days. change (2 ^ 53) with 9007199254740992. lia.
  - right. exists 100000000. split; [reflexivity |].
    unfold whole_days. change (2 ^ 53) with 9007199254740992. lia.
  - vm_compute. reflexivity.
Qed.

Lemma search_empty_query_returns_all_witness :
  let run := allCourseAssignments (rt := Engine.runtime) Examples.server Examples.world [] in
  toLowerCase (Runtime := Engine.runtime) "" = "" /\
  run = (inr Examples.all_assignments, snd run) /\
  searchAssignments (rt := Engine.runtime) Examples.server Examples.world (JString "") [] =
    (inr (SearchResult (JString "") (map search_out Examples.all_assignments)), snd run).
Proof.
  intros run.
  assert (H : run = (inr Examples.all_assignments, snd run)) by (vm_compute; reflexivity).
  split; [reflexivity |]. split; [exact H |].
  exact (search_empty_query_returns_all (rt := Engine.runtime) Examples.server
           Examples.world [] Examples.all_assignments (snd run) eq_refl H).
Defined.

Lemma search_without_text_query_witness :
  let run := allCourseAssignments (rt := Engine.runtime) Examples.server Examples.world [] in
  (forall s, arg (Some [("query", JNumber (of_int 5))]) "query" <> JString s) /\
  run = (inr Examples.all_assignments, snd run) /\
  exists message,
    CallTool (rt := Engine.runtime) Examples.server Examples.world
      "search_assignments" (Some [("query", JNumber (of_int 5))]) [] =
      (inl (McpError InternalError
              ("Error executing search_assignments: " ++ message)%string), snd run).
Proof.
  intros run.
  assert (Hq : forall s, arg (Some [("query", JNumber (of_int 5))]) "query" <> JString s)
    by (intros s; discriminate).
  assert (H : run = (inr Examples.all_assignments, snd run)) by (vm_compute; reflexivity).
  split; [exact Hq |]. split; [exact H |].
  exact (search_without_text_query (rt := Engine.runtime) Examples.server Examples.world
           (Some [("query", JNumber (of_int 5))]) [] Examples.all_assignments (snd run) Hq H).
Defined.

Lemma getCourseProgress_pending_witness :
  let out := courseProgress Examples.math [] Examples.math_assignments in
  let run := getCourseProgress (rt := Engine.runtime) Examples.server Examples.world
               (JNumber (of_int 1)) [] in
  run = (inr (ProgressResult out), snd run) /\
  List.length (ProgressOut.pending_assignments out) =
    Progress.pending_assignments (ProgressOut.progress out) /\
  map PendingOut.name (ProgressOut.pending_assignments out) = ["Midterm"; "Quiz"; "Reading"].
Proof.
  intros out run.
  assert (H : run = (inr (ProgressResult out), snd run)) by (vm_compute; reflexivity).
  split; [exact H |].
  destruct (getCourseProgress_pending (rt := Engine.runtime) Examples.server
              Examples.world (JNumber (of_int 1)) [] out (snd run) H)
    as (enrollments & assignments & _ & Ha & _ & Hlen & Hpending & _).
  split; [exact Hlen |].
  rewrite (Hpending (fun a => negb (is_submitted a)))
    by (intros a; rewrite negb_true_iff; apply is_submitted_false_iff).
  vm_compute in Ha. inversion Ha. vm_compute. reflexivity.
Defined.

Lemma moreexamples_enrollments_answered c :
  In c [Examples.math; MoreExamples.archived; Examples.history] ->
  answered MoreExamples.world (enrollments_of (rt := Engine.runtime) c) =
    Some (MoreExamples.enrollments c).
Proof. intros [<- | [<- | [<- | []]]]; vm_compute; reflexivity. Qed.

Lemma getGrades_all_courses_witness :
  truthy JUndefined = false /\
  answered MoreExamples.world EP_courses_total_scores =
    Some [Examples.math; MoreExamples.archived; Examples.history] /\
  match fst (getGrades (rt := Engine.runtime) Examples.server MoreExamples.world
               JUndefined []) with
  | inr (GradesResult grades) =>
      map GradeOut.current_grade grades = [Some "A-"; None; None]
  | _ => False
  end.
Proof.
  split; [reflexivity |]. split; [reflexivity |].
  rewrite (getGrades_all_courses (rt := Engine.runtime) Examples.server
             MoreExamples.world JUndefined
             [Examples.math; MoreExamples.archived; Examples.history]
             MoreExamples.enrollments [] eq_refl eq_refl
             moreexamples_enrollments_answered).
  vm_compute. reflexivity.
Defined.

Lemma getGrades_one_course_witness :
  truthy (JNumber (of_int 1)) = true /\
  match fst (getGrades (rt := Engine.runtime) Examples.server MoreExamples.world
               (JNumber (of_int 1)) []) with
  | inr (GradesResult [entry]) =>
      GradeOut.course_id entry = JNumber (of_int 1) /\
      GradeOut.current_score entry = Some (of_int 91) /\
      option_map (@List.length _) (GradeOut.assignments entry) = Some 5%nat
  | _ => False
  end /\
  map Request.url
      (snd (getGrades (rt := Engine.runtime) Examples.server MoreExamples.world
              (JNumber MoreExamples.sextillion) [])) =
    [ "https://bruinlearn.ucla.edu/api/v1/courses/1e+21/enrollments?user_id=self&include[]=grades";
      "https://bruinlearn.ucla.edu/api/v1/courses/1e+21/assignments?include[]=submission&per_page=100" ].
Proof.
  split; [reflexivity |]. split.
  - rewrite (getGrades_one_course (rt := Engine.runtime) Examples.server
               MoreExamples.world (JNumber (of_int 1)) [] eq_refl).
    vm_compute. auto.
  - rewrite (getGrades_one_course (rt := Engine.runtime) Examples.server
               MoreExamples.world (JNumber MoreExamples.sextillion) [] eq_refl).
    vm_compute. reflexivity.
Defined.

Lemma start_and_call_uses_environment_witness :
  let run := start_and_call (rt := Engine.runtime) MoreExamples.with_base_url
               Examples.world "get_courses" None [] in
  ProcessEnv.CANVAS_ACCESS_TOKEN MoreExamples.with_base_url = Some "secret" /\
  "secret" <> "" /\
  run = (fst run, snd run) /\
  Forall (fun request =>
            Request.headers request =
              [ ("Authorization", "Bearer secret"); ("Content-Type", "application/json") ])
         (snd run).
Proof.
  intros run.
  assert (Hne : "secret" <> "") by discriminate.
  assert (H : run = (fst run, snd run)) by (vm_compute; reflexivity).
  split; [reflexivity |]. split; [exact Hne |]. split; [exact H |].
  destruct (start_and_call_uses_environment (rt := Engine.runtime)
              MoreExamples.with_base_url Examples.world "get_courses" None "secret"
              [] (fst run) (snd run) eq_refl Hne H)
    as (sent & Hs & Hall).
  rewrite Hs. simpl app. eapply Forall_impl; [| exact Hall].
  intros request (_ & Hh). exact Hh.
Defined.

(** The request of a server configured from the environment. *)
Example request_with_base_url :
  snd (start_and_call (rt := Engine.runtime) MoreExamples.with_base_url
         Examples.world "get_courses" None []) =
    [ {| Request.url :=
           "https://canvas.example.edu/api/v1/courses?enrollment_state=active&per_page=100";
         Request.headers :=
           [ ("Authorization", "Bearer secret"); ("Content-Type", "application/json") ] |} ].
Proof. vm_compute. reflexivity. Qed.

Lemma advertised_defaults_applied_witness :
  In MoreExamples.upcoming_tool ListTools /\
  arg None "days_ahead" = JUndefined /\
  CallTool (rt := Engine.runtime) Examples.server Examples.world
    "get_upcoming_assignments" (with_arg "days_ahead" (JNumber (of_int 7)) None) [] =
  CallTool (rt := Engine.runtime) Examples.server Examples.world
    "get_upcoming_assignments" None [].
Proof.
  assert (Htool : In MoreExamples.upcoming_tool ListTools)
    by (right; right; left; reflexivity).
  split; [exact Htool |]. split; [reflexivity |].
  exact (advertised_defaults_applied (rt := Engine.runtime) Examples.server Examples.world
           MoreExamples.upcoming_tool "days_ahead"
           {| Property.type := "number";
              Property.description := "Number of days to look ahead (default: 7)";
              Property.default := Some (JNumber (of_int 7)) |}
           (JNumber (of_int 7)) None [] Htool (or_introl eq_refl) eq_refl eq_refl).
Defined.
